(** * Evangelist: PDF to JPEG conversion server (server.go)

    A shallow embedding of the conversion-and-upload pipeline of
    [server.go], together with the properties of its page partitioning,
    page counting, template handling and error paths.

    Conventions of the embedding:
    - Go's [int] is the 64-bit two's complement integer of the amd64
      port; a value is a [Z] in [[MinInt, MaxInt]] and every addition and
      subtraction wraps ([Int.add], [Int.sub]).
    - Go's [float64] is IEEE-754 binary64, given by the Standard
      Library's [SpecFloat] at precision 53 and maximal exponent 1024.
    - Go strings are byte strings, embedded as [string].
    - A call returning [(T, error)] is embedded as [result T]; a call
      returning only [error] as [option error] ([None] is [nil]).
    - External effects (sub-processes, the local file system, the
      object store, the random source) are answered by an environment
      [Env]; what the program does to the outside world is recorded as a
      list of [Event]s.
    - Loops whose termination depends on integer wrap-around take a
      [fuel] argument and return [None] when it runs out. *)

From Stdlib Require Import ZArith Lia Ascii String List Bool.
From Stdlib Require Import Floats.SpecFloat.
From stdpp Require Import gmap strings list.

Open Scope Z_scope.

(** ** Results *)

(** The [error] values the program can observe. *)
Inductive error :=
  | errorString (msg : string)              (* errors.New(msg) *)
  | NumError (Func Num : string) (Err : error) (* *strconv.NumError *)
  | ExternalError (msg : string).            (* os/exec, os, goamz *)

Inductive result (A : Type) :=
  | Ok (a : A)
  | Err (e : error).
Arguments Ok {A} a.
Arguments Err {A} e.

Definition is_Ok {A} (r : result A) : bool :=
  match r with Ok _ => true | Err _ => false end.

(** ** Machine integers *)

Module Int.
Definition MaxInt : Z := 2 ^ 63 - 1.
Definition MinInt : Z := - 2 ^ 63.

Definition wrap (z : Z) : Z := (z + 2 ^ 63) mod 2 ^ 64 - 2 ^ 63.

Definition add (a b : Z) : Z := wrap (a + b).
Definition sub (a b : Z) : Z := wrap (a - b).

Definition in_range (z : Z) : Prop := MinInt <= z <= MaxInt.
End Int.

(** ** package strings *)

Module strings.
Fixpoint HasPrefix (s prefix : string) {struct prefix} : bool :=
  match prefix, s with
  | EmptyString, _ => true
  | String p prefix', String c s' =>
      if Ascii.eqb p c then HasPrefix s' prefix' else false
  | String _ _, EmptyString => false
  end.

(** [strings.Contains(s, substr)] *)
Fixpoint Contains (s substr : string) : bool :=
  HasPrefix s substr ||
  match s with
  | EmptyString => false
  | String _ s' => Contains s' substr
  end.

Fixpoint inCutset (c : ascii) (cutset : string) : bool :=
  match cutset with
  | EmptyString => false
  | String d cutset' => Ascii.eqb c d || inCutset c cutset'
  end.

Fixpoint TrimLeft (s cutset : string) : string :=
  match s with
  | EmptyString => EmptyString
  | String c s' => if inCutset c cutset then TrimLeft s' cutset else s
  end.

Fixpoint TrimRight (s cutset : string) : string :=
  match s with
  | EmptyString => EmptyString
  | String c s' =>
      match TrimRight s' cutset with
      | EmptyString => if inCutset c cutset then EmptyString
                       else String c EmptyString
      | t => String c t
      end
  end.

(** [strings.Trim(s, cutset)]: all leading and trailing bytes that
    occur in [cutset] are removed. *)
Definition Trim (s cutset : string) : string :=
  TrimRight (TrimLeft s cutset) cutset.

Fixpoint drop (n : nat) (s : string) : string :=
  match n, s with
  | O, _ => s
  | S n', String _ s' => drop n' s'
  | S _, EmptyString => EmptyString
  end.

(** [strings.Replace(s, old, new, 1)] for a non-empty [old]: the first
    occurrence of [old] is replaced. *)
Fixpoint Replace_1 (s old new : string) : string :=
  match s with
  | EmptyString => EmptyString
  | String c s' =>
      if HasPrefix s old then new +:+ drop (String.length old) s
      else String c (Replace_1 s' old new)
  end.
End strings.

(** ** package strconv *)

Module strconv.
Definition ErrSyntax : error := errorString "invalid syntax".
Definition ErrRange : error := errorString "value out of range".

Definition digits : string := "0123456789abcdefghijklmnopqrstuvwxyz".

Definition digit (d : Z) : ascii :=
  match String.get (Z.to_nat d) digits with
  | Some c => c
  | None => "0"%char
  end.

(** [formatBits]: the digits of [u] in [base], least significant
    first, pushed in front of [acc]. *)
Fixpoint formatBits (fuel : nat) (base u : Z) (acc : string) : string :=
  match fuel with
  | O => acc
  | S fuel' =>
      if u <? base then String (digit u) acc
      else formatBits fuel' base (u / base) (String (digit (u mod base)) acc)
  end.

Definition FormatUint (u base : Z) : string :=
  formatBits (S (Z.to_nat (Z.log2 u))) base u EmptyString.

(** [strconv.FormatInt(i, base)] *)
Definition FormatInt (i base : Z) : string :=
  if i <? 0 then String "-"%char (FormatUint (- i) base)
  else FormatUint i base.

Definition Itoa (i : Z) : string := FormatInt i 10.

Definition digitVal (c : ascii) : option Z :=
  let n := Z.of_N (N_of_ascii c) in
  if (48 <=? n) && (n <=? 57) then Some (n - 48) else None.

Definition maxUint64 : Z := 2 ^ 64 - 1.

(** The digit loop of [ParseUint(s, 10, 64)], started with the value
    [n] accumulated so far. *)
Fixpoint parseDigits (s0 s : string) (n : Z) : result Z :=
  match s with
  | EmptyString => Ok n
  | String c s' =>
      match digitVal c with
      | None => Err (NumError "ParseUint" s0 ErrSyntax)
      | Some d =>
          if n * 10 + d >? maxUint64
          then Err (NumError "ParseUint" s0 ErrRange)
          else parseDigits s0 s' (n * 10 + d)
      end
  end.

Definition ParseUint (s : string) : result Z :=
  match s with
  | EmptyString => Err (NumError "ParseUint" s ErrSyntax)
  | _ => parseDigits s s 0
  end.

(** [strconv.ParseInt(s, 10, 0)]: an optional sign, then decimal
    digits; the value must fit the machine [int]. *)
Definition ParseInt (s : string) : result Z :=
  match s with
  | EmptyString => Err (NumError "ParseInt" s ErrSyntax)
  | String c s' =>
      let neg := Ascii.eqb c "-" in
      let body := if Ascii.eqb c "+" || neg then s' else s in
      match ParseUint body with
      | Err (NumError _ _ e) => Err (NumError "ParseInt" s e)
      | Err e => Err e
      | Ok un =>
          let cutoff := 2 ^ 63 in
          if negb neg && (un >=? cutoff) then Err (NumError "ParseInt" s ErrRange)
          else if neg && (un >? cutoff) then Err (NumError "ParseInt" s ErrRange)
          else Ok (if neg then - un else un)
      end
  end.
End strconv.

(** ** package fmt *)

(** [fmt.Sprintf] for operands that are [int]s or [string]s.  The
    embedding covers format strings whose directives are a [%]
    immediately followed by the verb: [%%], the verbs [d v b o x T] for
    an [int], [s v T] for a [string], Go's bad-verb and missing-operand
    renderings, and the report of unused operands.  Flags, widths,
    precisions, explicit argument indexes and the verbs [c q U X] are
    outside this fragment: there [doPrintf] renders the directive as a
    bad verb, where Go would format the operand.  The properties that
    depend on the text a template produces are stated for templates
    inside the fragment; the properties stated for arbitrary templates
    use [Sprintf] only as the function from template and page number
    to path, whatever its value. *)
Module fmt.
Inductive operand :=
  | Int (n : Z)
  | Str (s : string).

Definition typeName (a : operand) : string :=
  match a with Int _ => "int" | Str _ => "string" end.

Definition valueString (a : operand) : string :=
  match a with Int n => strconv.Itoa n | Str s => s end.

Definition badVerb (verb : ascii) (a : operand) : string :=
  "%!" +:+ String verb ("(" +:+ typeName a +:+ "=" +:+ valueString a +:+ ")").

Definition printArg (a : operand) (verb : ascii) : string :=
  if Ascii.eqb verb "T" then typeName a
  else
    match a with
    | Int n =>
        if Ascii.eqb verb "d" || Ascii.eqb verb "v" then strconv.Itoa n
        else if Ascii.eqb verb "b" then strconv.FormatInt n 2
        else if Ascii.eqb verb "o" then strconv.FormatInt n 8
        else if Ascii.eqb verb "x" then strconv.FormatInt n 16
        else badVerb verb a
    | Str s =>
        if Ascii.eqb verb "s" || Ascii.eqb verb "v" then s
        else badVerb verb a
    end.

Fixpoint extraList (a : list operand) : string :=
  match a with
  | [] => EmptyString
  | x :: a' =>
      (typeName x +:+ "=" +:+ valueString x) +:+
      match a' with [] => EmptyString | _ => ", " +:+ extraList a' end
  end.

Definition extra (a : list operand) : string :=
  match a with
  | [] => EmptyString
  | _ => "%!(EXTRA " +:+ extraList a +:+ ")"
  end.

(** [doPrintf]: [a] holds the operands not consumed so far. *)
Fixpoint doPrintf (format : string) (a : list operand) : string :=
  match format with
  | EmptyString => extra a
  | String c rest =>
      if Ascii.eqb c "%" then
        match rest with
        | EmptyString => "%!(NOVERB)" +:+ extra a
        | String verb rest' =>
            if Ascii.eqb verb "%" then String "%" (doPrintf rest' a)
            else
              match a with
              | x :: a' => printArg x verb +:+ doPrintf rest' a'
              | [] =>
                  ("%!" +:+ String verb "(MISSING)") +:+ doPrintf rest' []
              end
        end
      else String c (doPrintf rest a)
  end.

Definition Sprintf (format : string) (a : list operand) : string :=
  doPrintf format a.
End fmt.

(** ** float64 and package math *)

Module float64.
Definition prec : Z := 53.
Definition emax : Z := 1024.

(** [float64(n)] for an [int] [n]: rounded to nearest, ties to even. *)
Definition of_int (n : Z) : spec_float := binary_normalize prec emax n 0 false.

(** [x / y] *)
Definition div (x y : spec_float) : spec_float := SFdiv prec emax x y.

(** [math.Ceil(x)]: the least integral value not below [x]. *)
Definition Ceil (x : spec_float) : spec_float :=
  match x with
  | S754_finite s m e =>
      if 0 <=? e then x
      else
        let q := Zpos m / 2 ^ (- e) in
        let r := Zpos m mod 2 ^ (- e) in
        if s then binary_normalize prec emax (- q) 0 true
        else binary_normalize prec emax (if r =? 0 then q else q + 1) 0 false
  | _ => x
  end.

(** [int(x)]: truncation toward zero.  For a value that [int] cannot
    represent the result is implementation-dependent; amd64 yields
    [MinInt]. *)
Definition to_int (x : spec_float) : Z :=
  match x with
  | S754_zero _ => 0
  | S754_finite s m e =>
      let a := if 0 <=? e then Zpos m * 2 ^ e else Zpos m / 2 ^ (- e) in
      let v := if s then - a else a in
      if (Int.MinInt <=? v) && (v <=? Int.MaxInt) then v else Int.MinInt
  | _ => Int.MinInt
  end.
End float64.

(** ** Constants of server.go *)

(** number of workers to run simultaneously to convert a PDF *)
Definition NUM_WORKERS_CONVERT : Z := 2.

(** number of workers to run simultaneously to upload a PDF *)
Definition NUM_WORKERS_UPLOAD : Z := 10.

(** possible alpha numeric characters *)
Definition ALPHA_NUMERIC : string := "abcdefghijklmnopqrstuvwxyz0123456789".

(** The line feed, Go's ["\n"]. *)
Definition LF : string := String "010"%char EmptyString.

(** The carriage return, Go's ["\\r"]. *)
Definition CR : string := String "013"%char EmptyString.

(** ** The outside world *)

(** An HTTP request as the handler sees it. *)
Record Request := {
  Method : string;
  (** outcome of [request.ParseMultipartForm] *)
  ParseMultipartForm : option error;
  (** [request.Form], the parsed form values *)
  Form : gmap string (list string);
}.

(** The answers of the environment to the program's external calls. *)
Record Env := {
  (** [aws.EnvAuth()] *)
  EnvAuth : option error;
  (** [bucket.GetReader(path)] *)
  GetReader : string -> option error;
  (** [os.Create(path)] and [io.Copy] into it *)
  os_Create : string -> option error;
  io_Copy : string -> option error;
  (** the byte at index [i] delivered by the [k]-th call of [rand.Read] *)
  rand_Read : nat -> nat -> Z;
  (** [cmd.Output()] of the command with the given argument vector *)
  cmd_Output : list string -> result string;
  (** [cmd.Run()] of the command with the given argument vector *)
  cmd_Run : list string -> option error;
  (** [bucket.PutReader(remotePath, file, size, "image/jpeg", s3.PublicRead)]
      for the local file at the given path *)
  PutReader : string -> string -> option error;
  (** the files present under /tmp before the request *)
  files0 : list string;
}.

(** What the program does to the outside world. *)
Inductive Event :=
  | Exec (argv : list string) (err : option error)
  | Printf (format : string) (err : option error) (* fmt.Printf(format, err.Error()) *)
  | PrintError (err : error)                       (* fmt.Printf(err.Error()) *)
  | Put (remotePath localPath : string) (err : option error).

(** The files of the scratch directory.  A rasterizer or resizer run
    that succeeds leaves its output file behind; [os.Open] finds exactly
    the files that are present. *)
Definition fileExists (path : string) (files : list string) : bool :=
  existsb (String.eqb path) files.

(** [os.Open(path)]: the error for a missing file is a [*PathError]
    that names the file. *)
Definition os_Open (files : list string) (path : string) : option error :=
  if fileExists path files then None
  else Some (ExternalError ("open " +:+ path +:+ ": no such file or directory")).

(** ** server.go *)

(** Returns the number of pages in the PDF specified by [pdfPath]. *)
Definition getNumPages (env : Env) (pdfPath : string) : result Z :=
  (* ghostscript can retrieve us the number of pages *)
  let cmd := ["gs"; "-q"; "-dNODISPLAY"; "-c";
              fmt.Sprintf "(%s) (r) file runpdfbegin pdfpagecount = quit"
                          [fmt.Str pdfPath]] in
  match cmd_Output env cmd with
  | Err err => Err err
  | Ok numPagesBytes =>
      let numPagesStr := strings.Trim numPagesBytes LF in
      match strconv.ParseInt numPagesStr with
      | Err err => Err err
      | Ok numPagesInt64 => Ok numPagesInt64
      end
  end.

(** [uploadJPEGToS3]: uploads one page of one variant.  [jpegFile.Stat()]
    on the file just opened is taken to succeed. *)
Definition uploadJPEGToS3 (env : Env) (files : list string)
    (jpegPath s3JPEGPath : string) (pageNum : Z) : list Event * option error :=
  let localPath := fmt.Sprintf jpegPath [fmt.Int pageNum] in
  match os_Open files localPath with
  | Some err => ([], Some err)
  | None =>
      let remoteJPEGPath := fmt.Sprintf s3JPEGPath [fmt.Int pageNum] in
      let err := PutReader env remoteJPEGPath localPath in
      ([Put remoteJPEGPath localPath err], err)
  end.

(** The page loop of [uploadJPEGRangeToS3], entered at [pageNum]. *)
Fixpoint uploadJPEGRangeToS3_from (fuel : nat) (env : Env) (files : list string)
    (jpegPath smallJPEGPath largeJPEGPath : string)
    (s3JPEGPath s3SmallJPEGPath s3LargeJPEGPath : string)
    (pageNum lastPage : Z) : option (list Event * option error) :=
  match fuel with
  | O => None
  | S fuel' =>
      if pageNum <=? lastPage then
        (* upload JPEGs (normal, and large) corresponding to each page to S3 *)
        let '(ev1, err) := uploadJPEGToS3 env files jpegPath s3JPEGPath pageNum in
        match err with
        | Some _ => Some (ev1, err)
        | None =>
          let '(ev2, err) :=
            uploadJPEGToS3 env files smallJPEGPath s3SmallJPEGPath pageNum in
          match err with
          | Some _ => Some (ev1 ++ ev2, err)
          | None =>
            let '(ev3, err) :=
              uploadJPEGToS3 env files largeJPEGPath s3LargeJPEGPath pageNum in
            match err with
            | Some _ => Some (ev1 ++ ev2 ++ ev3, err)
            | None =>
              match uploadJPEGRangeToS3_from fuel' env files
                      jpegPath smallJPEGPath largeJPEGPath
                      s3JPEGPath s3SmallJPEGPath s3LargeJPEGPath
                      (Int.add pageNum 1) lastPage with
              | None => None
              | Some (evs, err) => Some (ev1 ++ ev2 ++ ev3 ++ evs, err)
              end
            end
          end
        end
      else Some ([], None)
  end.

(** [uploadJPEGRangeToS3]: uploads the pages [firstPage..lastPage]. *)
Definition uploadJPEGRangeToS3 (fuel : nat) (env : Env) (files : list string)
    (jpegPath smallJPEGPath largeJPEGPath : string)
    (s3JPEGPath s3SmallJPEGPath s3LargeJPEGPath : string)
    (firstPage lastPage : Z) : option (list Event * option error) :=
  uploadJPEGRangeToS3_from fuel env files jpegPath smallJPEGPath largeJPEGPath
    s3JPEGPath s3SmallJPEGPath s3LargeJPEGPath firstPage lastPage.

(** [int(math.Ceil(float64(numPages) / float64(numWorkers)))], the
    computation of lines 171-172 and 257-258. *)
Definition numPagesPerWorker (numPages numWorkers : Z) : Z :=
  let numPagesPerWorkerFloat64 :=
    float64.div (float64.of_int numPages) (float64.of_int numWorkers) in
  float64.to_int (float64.Ceil numPagesPerWorkerFloat64).

(** The worker-spawning loop of lines 175-186 and 262-273, entered at
    [firstPage].  Both coordinators run the same loop; [worker] is the
    goroutine started for a page range, and the result lists what the
    workers return, in spawning order.  A worker started with [go] runs
    on its own: its result does not influence the loop. *)
Fixpoint spawnWorkers {W : Type} (fuel : nat) (worker : Z -> Z -> option W)
    (numPages numPagesPerWorker firstPage : Z) : option (list W) :=
  match fuel with
  | O => None
  | S fuel' =>
      if firstPage <=? numPages then
        (* spawn workers, keeping track of them to wait until they're finished *)
        let lastPage := Int.sub (Int.add firstPage numPagesPerWorker) 1 in
        let lastPage := if lastPage >? numPages then numPages else lastPage in
        match worker firstPage lastPage,
              spawnWorkers fuel' worker numPages numPagesPerWorker
                (Int.add firstPage numPagesPerWorker) with
        | Some w, Some ws => Some (w :: ws)
        | _, _ => None
        end
      else Some []
  end.

(** The page ranges handed to the workers. *)
Definition pageRanges (fuel : nat) (numPages numWorkers : Z) : option (list (Z * Z)) :=
  spawnWorkers fuel (fun firstPage lastPage => Some (firstPage, lastPage))
    numPages (numPagesPerWorker numPages numWorkers) 1.

(** [request.Form[key]]: the values and whether the key is present. *)
Definition lookupForm (request : Request) (key : string) : list string * bool :=
  match Form request !! key with
  | Some values => (values, true)
  | None => ([], false)
  end.

(** [uploadAllJPEGsToS3]: uploads the JPEGs at [jpegPath],
    [smallJPEGPath] and [largeJPEGPath] to S3; the S3 names are taken
    from the request.  The result holds the events of every upload
    worker, in spawning order, and the returned error. *)
Definition uploadAllJPEGsToS3 (fuel : nat) (env : Env) (files : list string)
    (request : Request) (jpegPath smallJPEGPath largeJPEGPath : string)
    (numPages : Z) : option (list (list Event) * option error) :=
  let '(s3JPEGPathSet, okJPEGPath) := lookupForm request "s3JPEGPath" in
  let '(s3SmallJPEGPathSet, okSmallJPEGPath) := lookupForm request "s3SmallJPEGPath" in
  let '(s3LargeJPEGPathSet, okLargeJPEGPath) := lookupForm request "s3LargeJPEGPath" in
  (* ensure user gives us precisely one normal JPEG and one large JPEG path *)
  if negb okJPEGPath then
    Some ([], Some (errorString
      ("Must specify a JPEG path in the 's3JPEGPath' key." +:+ LF)))
  else if negb okSmallJPEGPath then
    Some ([], Some (errorString
      ("Must specify a small JPEG path in the 's3SmallJPEGPath' key." +:+ LF)))
  else if negb okLargeJPEGPath then
    Some ([], Some (errorString
      ("Must specify a large JPEG path in the 's3LargeJPEGPath' key." +:+ LF)))
  else if negb (length s3JPEGPathSet =? 1)%nat then
    Some ([], Some (errorString
      ("Must specify exactly one JPEG path in the 's3JPEGPath' key." +:+ LF)))
  else if negb (length s3SmallJPEGPathSet =? 1)%nat then
    Some ([], Some (errorString
      ("Must specify exactly one JPEG path in the 's3SmallJPEGPath' key." +:+ LF)))
  else if negb (length s3LargeJPEGPathSet =? 1)%nat then
    Some ([], Some (errorString
      ("Must specify exactly one JPEG path in the 's3LargeJPEGPath' key." +:+ LF)))
  else
    let s3JPEGPath := hd EmptyString s3JPEGPathSet in
    if negb (strings.Contains s3JPEGPath "%d") then
      Some ([], Some (errorString
        ("Must specify a JPEG path with %d in the 's3JPEGPath' key." +:+ LF)))
    else
    let s3SmallJPEGPath := hd EmptyString s3SmallJPEGPathSet in
    if negb (strings.Contains s3SmallJPEGPath "%d") then
      Some ([], Some (errorString
        ("Must specify a JPEG path with %d in the 's3SmallJPEGPath' key." +:+ LF)))
    else
    let s3LargeJPEGPath := hd EmptyString s3LargeJPEGPathSet in
    if negb (strings.Contains s3LargeJPEGPath "%d") then
      Some ([], Some (errorString
        ("Must specify a JPEG path with %d in the 's3LargeJPEGPath' key." +:+ LF)))
    else
    (* find number of pages to upload per worker *)
    let numPagesPerWorker := numPagesPerWorker numPages NUM_WORKERS_UPLOAD in
    match spawnWorkers fuel
            (uploadJPEGRangeToS3 fuel env files jpegPath smallJPEGPath largeJPEGPath
               s3JPEGPath s3SmallJPEGPath s3LargeJPEGPath)
            numPages numPagesPerWorker 1 with
    | None => None
    | Some workers => Some (map fst workers, None)
    end.

(** [resizeAndSaveImage]: resizes the JPEG at [jpegPath] to at most
    [maxWidth] x [maxHeight] and saves it to [resizedJPEGPath]. *)
Definition resizeAndSaveImage (env : Env) (jpegPath resizedJPEGPath : string)
    (maxWidth maxHeight : Z) : Event * option error :=
  let dimension := fmt.Sprintf "%dx%d" [fmt.Int maxWidth; fmt.Int maxHeight] in
  let cmd := ["convert"; "-resize"; dimension; jpegPath; resizedJPEGPath] in
  let err := cmd_Run env cmd in
  (Exec cmd err, err).

(** The file a command leaves behind when it succeeds. *)
Definition produced (err : option error) (path : string) : list string :=
  match err with None => [path] | Some _ => [] end.

(** The page loop of [convertPagesToJPEGs], entered at [pageNum].  The
    result holds the worker's events and the files it has produced. *)
Fixpoint convertPagesToJPEGs_from (fuel : nat) (env : Env)
    (pdfPath jpegPath smallJPEGPath largeJPEGPath : string)
    (pageNum lastPage : Z) : option (list Event * list string) :=
  match fuel with
  | O => None
  | S fuel' =>
      if pageNum <=? lastPage then
        (* convert a single page at a time with the correct output JPEG path *)
        let firstPageOption := fmt.Sprintf "-dFirstPage=%d" [fmt.Int pageNum] in
        let lastPageOption := fmt.Sprintf "-dLastPage=%d" [fmt.Int pageNum] in
        (* convert to two sizes: normal and large *)
        let jpegPathForPage := fmt.Sprintf jpegPath [fmt.Int pageNum] in
        let smallJPEGPathForPage := fmt.Sprintf smallJPEGPath [fmt.Int pageNum] in
        let largeJPEGPathForPage := fmt.Sprintf largeJPEGPath [fmt.Int pageNum] in
        let outputFileOption :=
          fmt.Sprintf "-sOutputFile=%s" [fmt.Str largeJPEGPathForPage] in
        let cmd := ["gs"; "-dNOPAUSE"; "-sDEVICE=jpeg"; firstPageOption;
                    lastPageOption; outputFileOption; "-dJPEGQ=90"; "-r200"; "-q";
                    pdfPath; "-c"; "quit"] in
        let err := cmd_Run env cmd in
        match err with
        | Some _ =>
            Some ([Exec cmd err; Printf ("gs command failed: %s" +:+ LF) err], [])
        | None =>
          (* the value returned by resizeAndSaveImage is not assigned:
             [err] is still the rasterizer's *)
          let '(ev1, r1) :=
            resizeAndSaveImage env largeJPEGPathForPage jpegPathForPage 800 800 in
          let files1 := largeJPEGPathForPage :: produced r1 jpegPathForPage in
          match err with
          | Some _ =>
              Some ([Exec cmd err; ev1;
                     Printf ("Couldn't resize image: %s" +:+ LF) err], files1)
          | None =>
            let '(ev2, r2) :=
              resizeAndSaveImage env jpegPathForPage smallJPEGPathForPage 300 300 in
            let files2 := files1 ++ produced r2 smallJPEGPathForPage in
            match err with
            | Some _ =>
                Some ([Exec cmd err; ev1; ev2;
                       Printf ("Couldn't resize image: %s" +:+ LF) err], files2)
            | None =>
              match convertPagesToJPEGs_from fuel' env pdfPath jpegPath
                      smallJPEGPath largeJPEGPath (Int.add pageNum 1) lastPage with
              | None => None
              | Some (evs, fs) => Some (Exec cmd err :: ev1 :: ev2 :: evs, files2 ++ fs)
              end
            end
          end
        end
      else Some ([], [])
  end.

(** [convertPagesToJPEGs]: converts the pages [firstPage..lastPage]. *)
Definition convertPagesToJPEGs (fuel : nat) (env : Env)
    (pdfPath jpegPath smallJPEGPath largeJPEGPath : string)
    (firstPage lastPage : Z) : option (list Event * list string) :=
  convertPagesToJPEGs_from fuel env pdfPath jpegPath smallJPEGPath largeJPEGPath
    firstPage lastPage.

(** [convertPDFToJPEGs]: converts the PDF at [pdfPath] to JPEGs and
    returns the number of pages.  The result also holds what every
    conversion worker did, in spawning order. *)
Definition convertPDFToJPEGs (fuel : nat) (env : Env)
    (pdfPath jpegPath smallJPEGPath largeJPEGPath : string)
    : option (list (list Event * list string) * result Z) :=
  match getNumPages env pdfPath with
  | Err err => Some ([], Err err)
  | Ok numPages =>
      (* find number of pages to convert per worker *)
      let numPagesPerWorker := numPagesPerWorker numPages NUM_WORKERS_CONVERT in
      match spawnWorkers fuel
              (convertPagesToJPEGs fuel env pdfPath jpegPath smallJPEGPath largeJPEGPath)
              numPages numPagesPerWorker 1 with
      | None => None
      | Some workers => Some (workers, Ok numPages)
      end
  end.

(** [generateRandomString]: [random i] is the [i]-th random byte. *)
Definition generateRandomString (length : nat) (random : nat -> Z) : string :=
  string_of_list_ascii
    (map (fun i =>
            (* index randomly into a list of alpha numeric characters *)
            let index := (random i mod 256) mod Z.of_nat (String.length ALPHA_NUMERIC) in
            match String.get (Z.to_nat index) ALPHA_NUMERIC with
            | Some c => c
            | None => "a"%char
            end)
         (seq 0 length)).

(** [fetchPDF]: downloads the PDF named by the request to a temporary
    file and returns its path. *)
Definition fetchPDF (env : Env) (request : Request) : result string :=
  match ParseMultipartForm request with
  | Some err => Err err
  | None =>
      let '(s3PDFPathSet, ok) := lookupForm request "s3PDFPath" in
      (* ensure user gives us precisely one PDF to convert *)
      if negb ok then
        Err (errorString ("Must specify a PDF to convert in the 's3PDFPath' key." +:+ LF))
      else if negb (length s3PDFPathSet =? 1)%nat then
        Err (errorString ("Must specify exactly one S3 PDF path in 's3PDFPath' key." +:+ LF))
      else
        (* find PDF in S3 *)
        let s3PDFPath := hd EmptyString s3PDFPathSet in
        match GetReader env s3PDFPath with
        | Some err => Err err
        | None =>
            (* copy multipart data into temporary file for processing *)
            let pdfPath := "/tmp/" +:+ generateRandomString 50 (rand_Read env 0) +:+ ".pdf" in
            match os_Create env pdfPath with
            | Some err => Err err
            | None =>
                match io_Copy env pdfPath with
                | Some err => Err err
                | None => Ok pdfPath
                end
            end
        end
  end.

(** [connectToS3]: an S3 connection to the given bucket. *)
Definition connectToS3 (env : Env) (bucketName : string) : result string :=
  match EnvAuth env with
  | Some err => Err err
  | None => Ok bucketName
  end.

(** What the handler writes to the [http.ResponseWriter]. *)
Inductive Response :=
  | Fprintf (body : string)
  | http_Error (err : error) (code : Z).

Definition StatusInternalServerError : Z := 500.

(** The observable behaviour of one request. *)
Record Outcome := {
  response : Response;
  (** what the handler itself printed *)
  printed : list Event;
  (** events and produced files of every conversion worker *)
  converted : list (list Event * list string);
  (** events of every upload worker *)
  uploaded : list (list Event);
}.

(** [handleError] on a non-nil [err]: prints it and writes a 500. *)
Definition handleError (err : error)
    (converted : list (list Event * list string)) (uploaded : list (list Event))
    : Outcome :=
  {| response := http_Error err StatusInternalServerError;
     printed := [PrintError err];
     converted := converted; uploaded := uploaded |}.

(** The templates of the scratch files of a request (lines 370-372):
    normal, small and large. *)
Definition scratchPaths (jpegPrefix : string) : string * string * string :=
  let jpegPath := fmt.Sprintf "/tmp/%s%%d.jpg" [fmt.Str jpegPrefix] in
  let smallJPEGPath := fmt.Sprintf "/tmp/%s%%d-small.jpg" [fmt.Str jpegPrefix] in
  let largeJPEGPath := fmt.Sprintf "/tmp/%s%%d-large.jpg" [fmt.Str jpegPrefix] in
  (jpegPath, smallJPEGPath, largeJPEGPath).

(** [convert]: converts the PDF named by the request to a set of JPEGs
    and uploads them to S3. *)
Definition convert (fuel : nat) (env : Env) (request : Request)
    (bucketName : string) : option Outcome :=
  if negb (String.eqb (Method request) "POST") then
    Some {| response := Fprintf ("Only POST requests are supported." +:+ LF);
            printed := []; converted := []; uploaded := [] |}
  else
  match connectToS3 env bucketName with
  | Err err => Some (handleError err [] [])
  | Ok bucket =>
  match fetchPDF env request with
  | Err err => Some (handleError err [] [])
  | Ok pdfPath =>
    (* put JPEGs in tmp folder under random prefix *)
    let jpegPrefix := generateRandomString 50 (rand_Read env 1) in
    let '(jpegPath, smallJPEGPath, largeJPEGPath) := scratchPaths jpegPrefix in
    match convertPDFToJPEGs fuel env pdfPath jpegPath smallJPEGPath largeJPEGPath with
    | None => None
    | Some (converted, Err err) => Some (handleError err converted [])
    | Some (converted, Ok numPages) =>
        let files := files0 env ++ pdfPath :: concat (map snd converted) in
        match uploadAllJPEGsToS3 fuel env files request jpegPath smallJPEGPath
                largeJPEGPath numPages with
        | None => None
        | Some (uploaded, Some err) => Some (handleError err converted uploaded)
        | Some (uploaded, None) =>
            Some {| response := Fprintf ("Done" +:+ LF);
                    printed := [Printf ("Conversion finished" +:+ LF) None];
                    converted := converted; uploaded := uploaded |}
        end
    end
  end
  end.

(** ** The earlier revision of server.go

    In the earlier revision of the server the request carries the single
    template [s3JPEGPath]; the workers derive the small and the large
    template from it. *)
Module Earlier.
(** The derivation of lines 83-87. *)
Definition smallOf (path : string) : string := strings.Replace_1 path "%d" "%d-small".
Definition largeOf (path : string) : string := strings.Replace_1 path "%d" "%d-large".

Fixpoint uploadJPEGRangeToS3_from (fuel : nat) (env : Env) (files : list string)
    (jpegPath smallJPEGPath largeJPEGPath : string)
    (s3JPEGPath s3SmallJPEGPath s3LargeJPEGPath : string)
    (pageNum lastPage : Z) : option (list Event * option error) :=
  match fuel with
  | O => None
  | S fuel' =>
      if pageNum <=? lastPage then
        (* upload JPEGs (small, normal, and large) corresponding to each page to S3 *)
        let '(ev1, err) :=
          uploadJPEGToS3 env files smallJPEGPath s3SmallJPEGPath pageNum in
        match err with
        | Some _ => Some (ev1, err)
        | None =>
          let '(ev2, err) := uploadJPEGToS3 env files jpegPath s3JPEGPath pageNum in
          match err with
          | Some _ => Some (ev1 ++ ev2, err)
          | None =>
            let '(ev3, err) :=
              uploadJPEGToS3 env files largeJPEGPath s3LargeJPEGPath pageNum in
            match err with
            | Some _ => Some (ev1 ++ ev2 ++ ev3, err)
            | None =>
              match uploadJPEGRangeToS3_from fuel' env files
                      jpegPath smallJPEGPath largeJPEGPath
                      s3JPEGPath s3SmallJPEGPath s3LargeJPEGPath
                      (Int.add pageNum 1) lastPage with
              | None => None
              | Some (evs, err) => Some (ev1 ++ ev2 ++ ev3 ++ evs, err)
              end
            end
          end
        end
      else Some ([], None)
  end.

Definition uploadJPEGRangeToS3 (fuel : nat) (env : Env) (files : list string)
    (jpegPath s3JPEGPath : string) (firstPage lastPage : Z)
    : option (list Event * option error) :=
  let smallJPEGPath := smallOf jpegPath in
  let largeJPEGPath := largeOf jpegPath in
  let s3SmallJPEGPath := smallOf s3JPEGPath in
  let s3LargeJPEGPath := largeOf s3JPEGPath in
  uploadJPEGRangeToS3_from fuel env files jpegPath smallJPEGPath largeJPEGPath
    s3JPEGPath s3SmallJPEGPath s3LargeJPEGPath firstPage lastPage.

(** The page loop of the earlier [convertPagesToJPEGs] (lines 162-203),
    entered at [pageNum]; the resizer is [epeg], and the outcome of
    every run is assigned to [err] and checked. *)
Fixpoint convertPagesToJPEGs_from (fuel : nat) (env : Env)
    (pdfPath jpegPath smallJPEGPath largeJPEGPath : string)
    (pageNum lastPage : Z) : option (list Event * list string) :=
  match fuel with
  | O => None
  | S fuel' =>
      if pageNum <=? lastPage then
        (* convert a single page at a time with the correct output JPEG path *)
        let firstPageOption := fmt.Sprintf "-dFirstPage=%d" [fmt.Int pageNum] in
        let lastPageOption := fmt.Sprintf "-dLastPage=%d" [fmt.Int pageNum] in
        (* convert to three sizes: small, normal, and large *)
        let smallJPEGPathForPage := fmt.Sprintf smallJPEGPath [fmt.Int pageNum] in
        let jpegPathForPage := fmt.Sprintf jpegPath [fmt.Int pageNum] in
        let largeJPEGPathForPage := fmt.Sprintf largeJPEGPath [fmt.Int pageNum] in
        let outputFileOption :=
          fmt.Sprintf "-sOutputFile=%s" [fmt.Str largeJPEGPathForPage] in
        let cmd := ["gs"; "-dNOPAUSE"; "-sDEVICE=jpeg"; firstPageOption;
                    lastPageOption; outputFileOption; "-dJPEGQ=90"; "-r300"; "-q";
                    pdfPath; "-c"; "quit"] in
        let err := cmd_Run env cmd in
        match err with
        | Some _ =>
            Some ([Exec cmd err; Printf ("gs command failed: %s" +:+ LF) err], [])
        | None =>
          (* resize large JPEG to normal size *)
          let cmd800 := ["epeg"; "-m"; "800"; largeJPEGPathForPage; jpegPathForPage] in
          let err800 := cmd_Run env cmd800 in
          match err800 with
          | Some _ =>
              Some ([Exec cmd err; Exec cmd800 err800;
                     Printf ("epeg command failed: %s" +:+ LF) err800],
                    [largeJPEGPathForPage])
          | None =>
            (* resize large JPEG to small size *)
            let cmd300 :=
              ["epeg"; "-m"; "300"; largeJPEGPathForPage; smallJPEGPathForPage] in
            let err300 := cmd_Run env cmd300 in
            match err300 with
            | Some _ =>
                Some ([Exec cmd err; Exec cmd800 err800; Exec cmd300 err300;
                       Printf ("epeg command failed: %s" +:+ LF) err300],
                      [largeJPEGPathForPage; jpegPathForPage])
            | None =>
              match convertPagesToJPEGs_from fuel' env pdfPath jpegPath
                      smallJPEGPath largeJPEGPath (Int.add pageNum 1) lastPage with
              | None => None
              | Some (evs, fs) =>
                  Some (Exec cmd err :: Exec cmd800 err800 :: Exec cmd300 err300 :: evs,
                        largeJPEGPathForPage :: jpegPathForPage
                          :: smallJPEGPathForPage :: fs)
              end
            end
          end
        end
      else Some ([], [])
  end.

(** The earlier [convertPagesToJPEGs]: the variant templates are derived
    from [jpegPath] (lines 158-159). *)
Definition convertPagesToJPEGs (fuel : nat) (env : Env) (pdfPath jpegPath : string)
    (firstPage lastPage : Z) : option (list Event * list string) :=
  let smallJPEGPath := smallOf jpegPath in
  let largeJPEGPath := largeOf jpegPath in
  convertPagesToJPEGs_from fuel env pdfPath jpegPath smallJPEGPath largeJPEGPath
    firstPage lastPage.
End Earlier.

(** ** Sample runs *)

Definition sampleForm : gmap string (list string) :=
  <["s3PDFPath" := ["exam-pdf/doc.pdf"]]>
  (<["s3JPEGPath" := ["split-pages/page%d.jpg"]]>
  (<["s3SmallJPEGPath" := ["split-pages/page%d-small.jpg"]]>
  (<["s3LargeJPEGPath" := ["split-pages/page%d-large.jpg"]]> ∅))).

Definition sampleRequest : Request :=
  {| Method := "POST"; ParseMultipartForm := None; Form := sampleForm |}.

(** An environment in which every external call succeeds and the
    rasterizer reports [pagecount] on its standard output. *)
Definition sampleEnv (pagecount : string) : Env :=
  {| EnvAuth := None;
     GetReader := fun _ => None;
     os_Create := fun _ => None;
     io_Copy := fun _ => None;
     rand_Read := fun k i => Z.of_nat (k + i);
     cmd_Output := fun _ => Ok pagecount;
     cmd_Run := fun _ => None;
     PutReader := fun _ _ => None;
     files0 := [] |}.

(** ** Notions used in the statements *)

(** The exact ceiling of [total / workerCount]. *)
Definition ceilDiv (total workerCount : Z) : Z :=
  (total + workerCount - 1) / workerCount.

(** [loopInRange numPages numWorkers]: the spawning loop for
    [numWorkers] workers advances and stays within the machine
    integers. *)
Definition loopInRange (numPages numWorkers : Z) : Prop :=
  1 <= numPagesPerWorker numPages numWorkers /\
  numPages + numPagesPerWorker numPages numWorkers <= Int.MaxInt.

(** [chain first ranges last]: the ranges are non-empty and follow one
    another without gap, from page [first] to page [last]. *)
Fixpoint chain (first : Z) (ranges : list (Z * Z)) (last : Z) : Prop :=
  match ranges with
  | [] => last = first - 1
  | (a, b) :: ranges' => a = first /\ a <= b /\ chain (b + 1) ranges' last
  end.

(** The pages of a range. *)
Definition pagesOf (r : Z * Z) : list Z := seqZ (fst r) (snd r - fst r + 1).

(** [noPercent s]: the byte [%] does not occur in [s]. *)
Fixpoint noPercent (s : string) : bool :=
  match s with
  | EmptyString => true
  | String c s' => negb (Ascii.eqb c "%") && noPercent s'
  end.

(** The remote paths written to the store, in order. *)
Definition remotePath (ev : Event) : option string :=
  match ev with Put remote _ _ => Some remote | _ => None end.

Definition storeWrites (evs : list Event) : list string := omap remotePath evs.

Definition isPrintf (ev : Event) : bool :=
  match ev with Printf _ _ => true | _ => false end.

(** The rasterizer command for one page. *)
Definition gsCommand (pdfPath largeJPEGPath : string) (pageNum : Z) : list string :=
  ["gs"; "-dNOPAUSE"; "-sDEVICE=jpeg";
   fmt.Sprintf "-dFirstPage=%d" [fmt.Int pageNum];
   fmt.Sprintf "-dLastPage=%d" [fmt.Int pageNum];
   fmt.Sprintf "-sOutputFile=%s" [fmt.Str (fmt.Sprintf largeJPEGPath [fmt.Int pageNum])];
   "-dJPEGQ=90"; "-r200"; "-q"; pdfPath; "-c"; "quit"].

(** The three store writes of one page, in the order of the worker. *)
Definition pageWrites (s3JPEGPath s3SmallJPEGPath s3LargeJPEGPath : string)
    (pageNum : Z) : list string :=
  [fmt.Sprintf s3JPEGPath [fmt.Int pageNum];
   fmt.Sprintf s3SmallJPEGPath [fmt.Int pageNum];
   fmt.Sprintf s3LargeJPEGPath [fmt.Int pageNum]].

(** [malformed request key]: the form field is absent, does not have
    exactly one value, or its value lacks the placeholder. *)
Definition malformed (request : Request) (key : string) : Prop :=
  match Form request !! key with
  | None => True
  | Some values =>
      length values <> 1%nat \/
      exists value, values = [value] /\ strings.Contains value "%d" = false
  end.

(** The three remote templates of a request that passes validation. *)
Definition remoteTemplates (request : Request) (normal small large : string) : Prop :=
  Form request !! "s3JPEGPath" = Some [normal] /\
  Form request !! "s3SmallJPEGPath" = Some [small] /\
  Form request !! "s3LargeJPEGPath" = Some [large] /\
  strings.Contains normal "%d" = true /\
  strings.Contains small "%d" = true /\
  strings.Contains large "%d" = true.

(** Page counting as the specification words it: the output is
    stripped of surrounding white space and parsed. *)
Definition whitespace : string :=
  String " "%char (String "009"%char (String "010"%char
    (String "011"%char (String "012"%char (String "013"%char EmptyString))))).

Definition countPages_spec (env : Env) (pdfPath : string) : result Z :=
  let cmd := ["gs"; "-q"; "-dNODISPLAY"; "-c";
              fmt.Sprintf "(%s) (r) file runpdfbegin pdfpagecount = quit"
                          [fmt.Str pdfPath]] in
  match cmd_Output env cmd with
  | Err err => Err err
  | Ok out => strconv.ParseInt (strings.Trim out whitespace)
  end.

(** [n] copies of the line feed. *)
Fixpoint lineFeeds (n : nat) : string :=
  match n with
  | O => EmptyString
  | S n' => String "010"%char (lineFeeds n')
  end.

(** A request whose form holds the given values for the three remote
    templates; a field given as [None] is absent. *)
Definition insertField (key : string) (values : option (list string))
    (form : gmap string (list string)) : gmap string (list string) :=
  match values with
  | Some v => <[key := v]> form
  | None => form
  end.

Definition requestWith (normal small large : option (list string)) : Request :=
  {| Method := "POST"; ParseMultipartForm := None;
     Form := insertField "s3JPEGPath" normal
               (insertField "s3SmallJPEGPath" small
                  (insertField "s3LargeJPEGPath" large
                     {["s3PDFPath" := ["exam-pdf/doc.pdf"]]})) |}.

(** The rasterizer prints "6" followed by a carriage return and a line
    feed. *)
Definition envCRLF : Env := sampleEnv ("6" +:+ CR +:+ LF).

(** The gs command of [getNumPages]. *)
Definition pageCountCommand (pdfPath : string) : list string :=
  ["gs"; "-q"; "-dNODISPLAY"; "-c";
   fmt.Sprintf "(%s) (r) file runpdfbegin pdfpagecount = quit" [fmt.Str pdfPath]].

(** Scratch files of a sample job with two pages. *)
Definition sampleFiles : list string :=
  ["/tmp/x1.jpg"; "/tmp/x1-small.jpg"; "/tmp/x1-large.jpg";
   "/tmp/x2.jpg"; "/tmp/x2-small.jpg"; "/tmp/x2-large.jpg"].

(** The events of the upload worker for one page when every call
    succeeds. *)
Definition pagePuts (jpegPath smallJPEGPath largeJPEGPath : string)
    (s3JPEGPath s3SmallJPEGPath s3LargeJPEGPath : string) (pageNum : Z) : list Event :=
  [Put (fmt.Sprintf s3JPEGPath [fmt.Int pageNum])
       (fmt.Sprintf jpegPath [fmt.Int pageNum]) None;
   Put (fmt.Sprintf s3SmallJPEGPath [fmt.Int pageNum])
       (fmt.Sprintf smallJPEGPath [fmt.Int pageNum]) None;
   Put (fmt.Sprintf s3LargeJPEGPath [fmt.Int pageNum])
       (fmt.Sprintf largeJPEGPath [fmt.Int pageNum]) None].

(** The resizer command. *)
Definition resizeCommand (jpegPath resizedJPEGPath : string) (maxWidth maxHeight : Z)
    : list string :=
  ["convert"; "-resize";
   fmt.Sprintf "%dx%d" [fmt.Int maxWidth; fmt.Int maxHeight];
   jpegPath; resizedJPEGPath].

(** The events of the conversion worker for one page when every
    command succeeds, and the files it leaves behind. *)
Definition pageExecs (pdfPath jpegPath smallJPEGPath largeJPEGPath : string)
    (pageNum : Z) : list Event :=
  [Exec (gsCommand pdfPath largeJPEGPath pageNum) None;
   Exec (resizeCommand (fmt.Sprintf largeJPEGPath [fmt.Int pageNum])
           (fmt.Sprintf jpegPath [fmt.Int pageNum]) 800 800) None;
   Exec (resizeCommand (fmt.Sprintf jpegPath [fmt.Int pageNum])
           (fmt.Sprintf smallJPEGPath [fmt.Int pageNum]) 300 300) None].

Definition pageFiles (jpegPath smallJPEGPath largeJPEGPath : string)
    (pageNum : Z) : list string :=
  [fmt.Sprintf largeJPEGPath [fmt.Int pageNum];
   fmt.Sprintf jpegPath [fmt.Int pageNum];
   fmt.Sprintf smallJPEGPath [fmt.Int pageNum]].

(** An environment in which the rasterizer succeeds and every run of
    the resizer fails. *)
Definition envResizerFails (pagecount : string) : Env :=
  {| EnvAuth := None;
     GetReader := fun _ => None;
     os_Create := fun _ => None;
     io_Copy := fun _ => None;
     rand_Read := fun k i => Z.of_nat (k + i);
     cmd_Output := fun _ => Ok pagecount;
     cmd_Run := fun argv =>
       match argv with
       | name :: _ =>
           if String.eqb name "convert" then Some (ExternalError "exit status 1")
           else None
       | [] => None
       end;
     PutReader := fun _ _ => None;
     files0 := [] |}.

(** ** What the handler logs *)

(** [err.Error()] for an error made with [errors.New] and for an error
    of a sub-process, of the file system or of the store, whose text is
    the environment's.  The text of a [*strconv.NumError] is not
    embedded. *)
Definition Error (err : error) : option string :=
  match err with
  | errorString msg => Some msg
  | ExternalError msg => Some msg
  | NumError _ _ _ => None
  end.

(** What [handleError] writes to the standard output (line 36):
    [fmt.Printf(err.Error())], with the text of the error in the place
    of the format. *)
Definition handleError_stdout (err : error) : option string :=
  match Error err with
  | Some msg => Some (fmt.Sprintf msg [])
  | None => None
  end.

(** ** Further notions used in the statements *)

(** The byte values that [generateRandomString] turns into the
    character [c]. *)
Definition bytesFor (c : ascii) : list Z :=
  List.filter
    (fun randomByte =>
       String.eqb (generateRandomString 1 (fun _ => randomByte)) (String c EmptyString))
    (seqZ 0 256).


(** The name of the program a command runs. *)
Definition program (argv : list string) : string := hd EmptyString argv.

(** An environment in which every run of the program [name] fails and
    every other external call succeeds. *)
Definition envFailing (name pagecount : string) : Env :=
  {| EnvAuth := None;
     GetReader := fun _ => None;
     os_Create := fun _ => None;
     io_Copy := fun _ => None;
     rand_Read := fun k i => Z.of_nat (k + i);
     cmd_Output := fun _ => Ok pagecount;
     cmd_Run := fun argv =>
       if String.eqb (program argv) name then Some (ExternalError "exit status 1")
       else None;
     PutReader := fun _ _ => None;
     files0 := [] |}.

(** The events of the earlier upload worker for one page when every
    call succeeds, for a local template [localPre%dlocalPost] and a
    remote template [pre%dpost]: small, normal, large. *)
Definition earlierPagePuts (localPre localPost pre post : string) (pageNum : Z)
    : list Event :=
  [Put (pre +:+ strconv.Itoa pageNum +:+ "-small" +:+ post)
       (localPre +:+ strconv.Itoa pageNum +:+ "-small" +:+ localPost) None;
   Put (pre +:+ strconv.Itoa pageNum +:+ post)
       (localPre +:+ strconv.Itoa pageNum +:+ localPost) None;
   Put (pre +:+ strconv.Itoa pageNum +:+ "-large" +:+ post)
       (localPre +:+ strconv.Itoa pageNum +:+ "-large" +:+ localPost) None].

(** An environment in which the store refuses every write and every
    other external call succeeds. *)
Definition envStoreFails (pagecount : string) : Env :=
  {| EnvAuth := None;
     GetReader := fun _ => None;
     os_Create := fun _ => None;
     io_Copy := fun _ => None;
     rand_Read := fun k i => Z.of_nat (k + i);
     cmd_Output := fun _ => Ok pagecount;
     cmd_Run := fun _ => None;
     PutReader := fun _ _ => Some (ExternalError "403 Forbidden");
     files0 := [] |}.

(** ** Notions used in the proofs *)

Fixpoint isDigits (s : string) : bool :=
  match s with
  | EmptyString => true
  | String c s' =>
      match strconv.digitVal c with Some _ => isDigits s' | None => false end
  end.

Fixpoint allIn (s cutset : string) : bool :=
  match s with
  | EmptyString => true
  | String c s' => strings.inCutset c cutset && allIn s' cutset
  end.

Fixpoint noneIn (s cutset : string) : bool :=
  match s with
  | EmptyString => true
  | String c s' => negb (strings.inCutset c cutset) && noneIn s' cutset
  end.

Fixpoint runWorkers {W : Type} (worker : Z -> Z -> option W)
    (ranges : list (Z * Z)) : option (list W) :=
  match ranges with
  | [] => Some []
  | (a, b) :: ranges' =>
      match worker a b, runWorkers worker ranges' with
      | Some w, Some ws => Some (w :: ws)
      | _, _ => None
      end
  end.

Definition pair_range (a b : Z) : option (Z * Z) := Some (a, b).

Definition posFloat := S754_finite false.

(* normalisation of a rounded mantissa *)
Definition renorm (m : Z) (e : Z) : spec_float :=
  if m =? 2 ^ 53 then posFloat (Z.to_pos (2 ^ 52)) (e + 1) else posFloat (Z.to_pos m) e.

Definition is_exact (l : location) : bool :=
  match l with loc_Exact => true | _ => false end.

(** [s] starts with a byte that is not a decimal digit. *)
Definition startsOffDigits (s : string) : Prop :=
  match s with
  | EmptyString => False
  | String c _ => strconv.digitVal c = None
  end.

(** * Properties *)

(** ** Machine integers *)

Lemma wrap_id z : Int.MinInt <= z <= Int.MaxInt -> Int.wrap z = z.
Proof.
  unfold Int.MinInt, Int.MaxInt, Int.wrap. intros H.
  rewrite Z.mod_small by lia. lia.
Qed.

Lemma wrap_range z : Int.MinInt <= Int.wrap z <= Int.MaxInt.
Proof.
  unfold Int.MinInt, Int.MaxInt, Int.wrap.
  pose proof (Z.mod_pos_bound (z + 2 ^ 63) (2 ^ 64) ltac:(lia)). lia.
Qed.

(** ** Strings *)

Lemma append_cons c s t : String c s +:+ t = String c (s +:+ t).
Proof. reflexivity. Qed.

Lemma append_nil_l s : EmptyString +:+ s = s.
Proof. reflexivity. Qed.

Lemma append_nil_r s : s +:+ EmptyString = s.
Proof.
  induction s as [|c s IH]; [reflexivity|].
  now rewrite append_cons, IH.
Qed.

Lemma append_assoc s t u : (s +:+ t) +:+ u = s +:+ (t +:+ u).
Proof.
  induction s as [|c s IH]; [reflexivity|].
  now rewrite !append_cons, IH.
Qed.

Lemma length_append s t :
  String.length (s +:+ t) = (String.length s + String.length t)%nat.
Proof.
  induction s as [|c s IH]; [reflexivity|].
  rewrite append_cons. simpl. now rewrite IH.
Qed.

Lemma append_inv_l s t u : s +:+ t = s +:+ u -> t = u.
Proof.
  induction s as [|c s IH]; [auto|].
  rewrite !append_cons. intros [= H]. auto.
Qed.

Lemma append_inv_r s t u : s +:+ u = t +:+ u -> s = t.
Proof.
  revert t. induction s as [|c s IH]; intros [|d t] H.
  - reflexivity.
  - apply (f_equal String.length) in H. rewrite !length_append in H. simpl in H. lia.
  - apply (f_equal String.length) in H. rewrite !length_append in H. simpl in H. lia.
  - rewrite !append_cons in H. injection H as -> H. f_equal. auto.
Qed.

Lemma HasPrefix_append s t : strings.HasPrefix (s +:+ t) s = true.
Proof.
  induction s as [|c s IH]; [reflexivity|].
  rewrite append_cons. simpl. now rewrite Ascii.eqb_refl.
Qed.

Lemma Contains_append pre s t : strings.Contains (pre +:+ s +:+ t) s = true.
Proof.
  induction pre as [|c pre IH].
  - rewrite append_nil_l. destruct s as [|d s].
    + destruct t; reflexivity.
    + rewrite append_cons. simpl. now rewrite Ascii.eqb_refl, HasPrefix_append.
  - rewrite append_cons. simpl. rewrite IH. apply orb_true_r.
Qed.

(** ** Decimal numbers *)

Lemma digitVal_digit d : 0 <= d < 10 -> strconv.digitVal (strconv.digit d) = Some d.
Proof.
  intros H.
  assert (d = 0 \/ d = 1 \/ d = 2 \/ d = 3 \/ d = 4 \/ d = 5 \/ d = 6 \/ d = 7 \/
          d = 8 \/ d = 9) as Hd by lia.
  repeat (destruct Hd as [-> | Hd]; [reflexivity|]). subst d. reflexivity.
Qed.

Lemma parseDigits_snoc s0 ds c a :
  strconv.parseDigits s0 (ds +:+ String c EmptyString) a =
  match strconv.parseDigits s0 ds a with
  | Ok v => strconv.parseDigits s0 (String c EmptyString) v
  | Err e => Err e
  end.
Proof.
  revert a. induction ds as [|x ds IH]; intros a; [reflexivity|].
  rewrite append_cons. simpl.
  destruct (strconv.digitVal x) as [d|]; [|reflexivity].
  destruct (a * 10 + d >? strconv.maxUint64); [reflexivity|]. apply IH.
Qed.

Lemma isDigits_snoc ds c :
  isDigits (ds +:+ String c EmptyString) =
  isDigits ds && isDigits (String c EmptyString).
Proof.
  induction ds as [|x ds IH]; [simpl; now destruct (strconv.digitVal c)|].
  rewrite append_cons. simpl. destruct (strconv.digitVal x); [apply IH | reflexivity].
Qed.

Lemma formatBits_spec fuel :
  forall u acc, 0 <= u < 10 ^ Z.of_nat (S fuel) -> u <= strconv.maxUint64 ->
  exists c ds, strconv.formatBits (S fuel) 10 u acc = String c ds +:+ acc /\
               isDigits (String c ds) = true /\
               forall s0, strconv.parseDigits s0 (String c ds) 0 = Ok u.
Proof.
  induction fuel as [|fuel IH]; intros u acc Hu Hmax;
    cbn [strconv.formatBits]; destruct (Z.ltb_spec u 10) as [Hlt|Hge].
  1, 3: exists (strconv.digit u), EmptyString; split; [reflexivity|];
    assert (Hd := digitVal_digit u ltac:(lia)); split;
    [ simpl; now rewrite Hd
    | intros s0; simpl; rewrite Hd; change (0 * 10 + u) with u;
      destruct (Z.gtb_spec u strconv.maxUint64); [lia | reflexivity] ].
  - change (10 ^ Z.of_nat 1) with 10 in Hu. lia.
  - assert (Hu' : 0 <= u / 10 < 10 ^ Z.of_nat (S fuel)).
    { split; [apply Z.div_pos; lia|]. apply Z.div_lt_upper_bound; [lia|].
      rewrite (Nat2Z.inj_succ (S fuel)), Z.pow_succ_r in Hu by lia. lia. }
    assert (Hmax' : u / 10 <= strconv.maxUint64).
    { apply Z.le_trans with u; [|assumption]. apply Z.div_le_upper_bound; lia. }
    destruct (IH (u / 10) (String (strconv.digit (u mod 10)) acc) Hu' Hmax')
      as (c & ds & Heq & Hdig & Hparse).
    pose proof (Z.mod_pos_bound u 10 ltac:(lia)) as Hm.
    assert (Hd := digitVal_digit (u mod 10) Hm).
    exists c, (ds +:+ String (strconv.digit (u mod 10)) EmptyString).
    split; [|split].
    + cbn [strconv.formatBits] in Heq. rewrite Heq. rewrite !append_cons. f_equal.
      now rewrite append_assoc.
    + rewrite <- append_cons, isDigits_snoc, Hdig. simpl. now rewrite Hd.
    + intros s0. rewrite <- append_cons, parseDigits_snoc, Hparse. simpl. rewrite Hd.
      pose proof (Z.div_mod u 10 ltac:(lia)).
      replace (u / 10 * 10 + u mod 10) with u by lia.
      destruct (Z.gtb_spec u strconv.maxUint64); [lia | reflexivity].
Qed.

Lemma FormatUint_spec u :
  0 <= u <= strconv.maxUint64 ->
  exists c ds, strconv.FormatUint u 10 = String c ds /\
               isDigits (String c ds) = true /\
               forall s0, strconv.parseDigits s0 (String c ds) 0 = Ok u.
Proof.
  intros Hu. unfold strconv.FormatUint.
  destruct (formatBits_spec (Z.to_nat (Z.log2 u)) u EmptyString) as (c & ds & Heq & H).
  - split; [lia|]. rewrite Nat2Z.inj_succ, Z2Nat.id by apply Z.log2_nonneg.
    destruct (Z.eq_dec u 0) as [->|Hne]; [reflexivity|].
    apply Z.lt_le_trans with (2 ^ Z.succ (Z.log2 u)).
    + apply Z.log2_spec. lia.
    + apply Z.pow_le_mono_l. split; [lia|lia].
  - lia.
  - exists c, ds. rewrite Heq, append_nil_r. auto.
Qed.

Lemma isDigits_head c ds :
  isDigits (String c ds) = true ->
  Ascii.eqb c "-" = false /\ Ascii.eqb c "+" = false /\ Ascii.eqb c "010" = false.
Proof.
  simpl. unfold strconv.digitVal.
  destruct (Ascii.eqb_spec c "-") as [->|]; [discriminate|].
  destruct (Ascii.eqb_spec c "+") as [->|]; [discriminate|].
  destruct (Ascii.eqb_spec c "010") as [->|]; [discriminate|]. auto.
Qed.

(** Parsing the decimal form of a machine integer gives it back. *)
Lemma ParseInt_Itoa n :
  Int.MinInt <= n <= Int.MaxInt -> strconv.ParseInt (strconv.Itoa n) = Ok n.
Proof.
  unfold Int.MinInt, Int.MaxInt. intros Hn.
  unfold strconv.Itoa, strconv.FormatInt.
  destruct (Z.ltb_spec n 0) as [Hneg|Hpos].
  - destruct (FormatUint_spec (- n)) as (c & ds & -> & Hdig & Hparse).
    { unfold strconv.maxUint64. lia. }
    unfold strconv.ParseInt. change (Ascii.eqb "-" "-") with true.
    change (Ascii.eqb "-" "+") with false. cbn [orb].
    unfold strconv.ParseUint. rewrite Hparse. cbn [negb andb].
    destruct (Z.gtb_spec (- n) (2 ^ 63)); [lia|]. f_equal. lia.
  - destruct (FormatUint_spec n) as (c & ds & -> & Hdig & Hparse).
    { unfold strconv.maxUint64. lia. }
    destruct (isDigits_head c ds Hdig) as (Hm & Hp & _).
    unfold strconv.ParseInt. rewrite Hm, Hp. cbn [orb].
    unfold strconv.ParseUint. rewrite Hparse. cbn [negb andb].
    destruct (Z.geb_spec n (2 ^ 63)); [lia|]. reflexivity.
Qed.

Lemma Itoa_inj a b :
  Int.MinInt <= a <= Int.MaxInt -> Int.MinInt <= b <= Int.MaxInt ->
  strconv.Itoa a = strconv.Itoa b -> a = b.
Proof.
  intros Ha Hb H. apply (f_equal strconv.ParseInt) in H.
  rewrite !ParseInt_Itoa in H by assumption. now injection H.
Qed.

(** ** Trimming *)

Lemma TrimRight_allIn s cutset :
  allIn s cutset = true -> strings.TrimRight s cutset = EmptyString.
Proof.
  induction s as [|c s IH]; [reflexivity|]. simpl.
  intros [Hc Hs]%andb_true_iff. now rewrite IH, Hc.
Qed.

Lemma TrimRight_app s t cutset :
  allIn t cutset = true ->
  strings.TrimRight (s +:+ t) cutset = strings.TrimRight s cutset.
Proof.
  intros Ht. induction s as [|c s IH].
  - rewrite append_nil_l. now apply TrimRight_allIn.
  - rewrite append_cons. simpl. now rewrite IH.
Qed.

Lemma TrimRight_noneIn s cutset :
  noneIn s cutset = true -> strings.TrimRight s cutset = s.
Proof.
  induction s as [|c s IH]; [reflexivity|]. simpl.
  intros [Hc Hs]%andb_true_iff. rewrite IH by assumption.
  destruct s; [|reflexivity]. now destruct (strings.inCutset c cutset).
Qed.

Lemma TrimLeft_app t s cutset :
  allIn t cutset = true ->
  strings.TrimLeft (t +:+ s) cutset = strings.TrimLeft s cutset.
Proof.
  induction t as [|c t IH]; [reflexivity|].
  cbn [allIn]. intros [Hc Ht]%andb_true_iff.
  rewrite append_cons. cbn [strings.TrimLeft]. rewrite Hc. auto.
Qed.

Lemma allIn_lineFeeds n : allIn (lineFeeds n) LF = true.
Proof. induction n as [|n IH]; [reflexivity|]. simpl. exact IH. Qed.

Lemma isDigits_noneIn_LF s : isDigits s = true -> noneIn s LF = true.
Proof.
  induction s as [|c s IH]; [reflexivity|]. intros H.
  destruct (isDigits_head c s H) as (_ & _ & Hlf).
  simpl in H |- *. destruct (strconv.digitVal c); [|discriminate].
  rewrite Hlf. simpl. auto.
Qed.

Lemma Itoa_shape n :
  Int.MinInt <= n <= Int.MaxInt ->
  exists c s, strconv.Itoa n = String c s /\ noneIn (String c s) LF = true.
Proof.
  unfold Int.MinInt, Int.MaxInt. intros Hn. unfold strconv.Itoa, strconv.FormatInt.
  destruct (Z.ltb_spec n 0).
  - destruct (FormatUint_spec (- n)) as (c & ds & -> & Hdig & _).
    { unfold strconv.maxUint64. lia. }
    eexists _, _. split; [reflexivity|].
    apply isDigits_noneIn_LF in Hdig. cbn [noneIn] in *. now rewrite Hdig.
  - destruct (FormatUint_spec n) as (c & ds & -> & Hdig & _).
    { unfold strconv.maxUint64. lia. }
    eexists _, _. split; [reflexivity|]. now apply isDigits_noneIn_LF.
Qed.

Lemma Trim_Itoa n a b :
  Int.MinInt <= n <= Int.MaxInt ->
  strings.Trim (lineFeeds a +:+ strconv.Itoa n +:+ lineFeeds b) LF = strconv.Itoa n.
Proof.
  intros Hn. destruct (Itoa_shape n Hn) as (c & s & -> & Hnone).
  unfold strings.Trim. rewrite TrimLeft_app by apply allIn_lineFeeds.
  assert (Hc : strings.inCutset c LF = false).
  { cbn [noneIn] in Hnone. apply andb_true_iff in Hnone as [Hc _].
    now apply negb_true_iff in Hc. }
  rewrite append_cons. cbn [strings.TrimLeft]. rewrite Hc.
  rewrite <- append_cons, TrimRight_app by apply allIn_lineFeeds.
  now apply TrimRight_noneIn.
Qed.

(** ** Formatting *)

Lemma doPrintf_literal pre rest a :
  noPercent pre = true ->
  fmt.doPrintf (pre +:+ rest) a = pre +:+ fmt.doPrintf rest a.
Proof.
  induction pre as [|c pre IH]; [reflexivity|]. simpl.
  intros [Hc Hp]%andb_true_iff. apply negb_true_iff in Hc.
  rewrite !append_cons. cbn [fmt.doPrintf]. rewrite Hc. f_equal. auto.
Qed.

Lemma doPrintf_literal_end post :
  noPercent post = true -> fmt.doPrintf post [] = post.
Proof.
  intros H. rewrite <- (append_nil_r post) at 1.
  rewrite doPrintf_literal by assumption. apply append_nil_r.
Qed.

(** A template whose only directive is the placeholder resolves to the
    text around the decimal page number. *)
Lemma Sprintf_placeholder pre post n :
  noPercent pre = true -> noPercent post = true ->
  fmt.Sprintf (pre +:+ "%d" +:+ post) [fmt.Int n] = pre +:+ strconv.Itoa n +:+ post.
Proof.
  intros Hpre Hpost. unfold fmt.Sprintf. rewrite doPrintf_literal by assumption.
  f_equal. change ("%d" +:+ post) with (String "%" (String "d" post)).
  cbn [fmt.doPrintf]. change (Ascii.eqb "%" "%") with true.
  change (Ascii.eqb "d" "%") with false. cbv iota.
  change (fmt.printArg (fmt.Int n) "d") with (strconv.Itoa n).
  now rewrite doPrintf_literal_end.
Qed.

Lemma noPercent_append s t :
  noPercent (s +:+ t) = noPercent s && noPercent t.
Proof.
  induction s as [|c s IH]; [reflexivity|].
  rewrite append_cons. simpl. rewrite IH. apply andb_assoc.
Qed.

Lemma HasPrefix_cons c s p q :
  strings.HasPrefix (String c s) (String p q) =
  if Ascii.eqb p c then strings.HasPrefix s q else false.
Proof. reflexivity. Qed.

Lemma Replace_1_cons c s old new :
  strings.Replace_1 (String c s) old new =
  if strings.HasPrefix (String c s) old
  then new +:+ strings.drop (String.length old) (String c s)
  else String c (strings.Replace_1 s old new).
Proof. reflexivity. Qed.

Lemma Replace_1_placeholder pre post new :
  noPercent pre = true ->
  strings.Replace_1 (pre +:+ "%d" +:+ post) "%d" new = pre +:+ new +:+ post.
Proof.
  induction pre as [|c pre IH].
  - intros _. rewrite !append_nil_l. reflexivity.
  - cbn [noPercent]. intros [Hc Hp]%andb_true_iff. apply negb_true_iff in Hc.
    rewrite !append_cons, Replace_1_cons.
    change "%d"%string with (String "%" (String "d" EmptyString)) at 1.
    rewrite HasPrefix_cons, Ascii.eqb_sym, Hc. f_equal. auto.
Qed.

Lemma scratchPaths_eq jpegPrefix :
  scratchPaths jpegPrefix =
    ("/tmp/" +:+ jpegPrefix +:+ "%d.jpg",
     "/tmp/" +:+ jpegPrefix +:+ "%d-small.jpg",
     "/tmp/" +:+ jpegPrefix +:+ "%d-large.jpg").
Proof. reflexivity. Qed.

(** ** The per-worker page count *)

Lemma digits2_pos_log2 p : Zpos (digits2_pos p) = Z.log2 (Zpos p) + 1.
Proof.
  induction p as [p IH|p IH|]; simpl digits2_pos.
  - rewrite Pos2Z.inj_succ, IH. 
    change (Zpos p~1) with (2 * Zpos p + 1). rewrite Z.log2_succ_double by lia. lia.
  - rewrite Pos2Z.inj_succ, IH.
    change (Zpos p~0) with (2 * Zpos p). rewrite Z.log2_double by lia. lia.
  - reflexivity.
Qed.

Lemma digits2_pos_bounds p d : 0 < d ->
  Zpos (digits2_pos p) = d <-> 2 ^ (d - 1) <= Zpos p < 2 ^ d.
Proof.
  intros Hd. rewrite digits2_pos_log2.
  pose proof (Z.log2_spec (Zpos p) eq_refl) as H. rewrite <- Z.add_1_r in H.
  pose proof (Z.log2_nonneg (Zpos p)) as Hnn.
  split.
  - intros <-. replace (Z.log2 (Zpos p) + 1 - 1) with (Z.log2 (Zpos p)); [exact H|].
    generalize (Z.log2 (Zpos p)). intros; lia.
  - intros H'.
    assert (Z.log2 (Zpos p) = d - 1) as ->; [|lia].
    apply Z.log2_unique; [lia|]. replace (Z.succ (d - 1)) with d by lia. exact H'.
Qed.

Lemma iter_xO_mul p k : Zpos (Pos.iter xO p k) = Zpos p * 2 ^ Zpos k.
Proof.
  revert p. induction k using Pos.peano_ind; intros p.
  - simpl. lia.
  - rewrite Pos.iter_succ. rewrite Pos2Z.inj_succ, Z.pow_succ_r by lia.
    change (Zpos (Pos.iter xO p k)~0) with (2 * Zpos (Pos.iter xO p k)). rewrite IHk. lia.
Qed.

Lemma shr_fexp_canonical m e l :
  Zpos (digits2_pos m) = 53 -> -1074 <= e ->
  shr_fexp 53 1024 (Zpos m) e l = (shr_record_of_loc (Zpos m) l, e).
Proof.
  intros Hd He. unfold shr_fexp, Zdigits2. rewrite Hd.
  unfold fexp, emin. replace (Z.max (53 + e - 53) (3 - 1024 - 53) - e) with 0 by lia.
  reflexivity.
Qed.

Lemma loc_of_shr_record_of_loc m l : loc_of_shr_record (shr_record_of_loc m l) = l.
Proof. destruct l as [|[]]; reflexivity. Qed.

Lemma shr_m_of_loc m l : shr_m (shr_record_of_loc m l) = m.
Proof. destruct l as [|[]]; reflexivity. Qed.

Lemma shr_fexp_exact_53_54 m e :
  2 ^ 52 <= m <= 2 ^ 53 -> -1074 <= e ->
  exists mrs e', shr_fexp 53 1024 m e loc_Exact = (mrs, e') /\
     posFloat (Z.to_pos (shr_m mrs)) e' = renorm m e /\ 0 < shr_m mrs.
Proof.
  intros Hm He. unfold renorm. destruct (Z.eqb_spec m (2^53)) as [->|Hne].
  - eexists _, _. split; [|split]. 
    + unfold shr_fexp. change (Zdigits2 (2^53)) with 54. unfold fexp, emin.
      replace (Z.max (54 + e - 53) (3 - 1024 - 53) - e) with 1 by lia. reflexivity.
    + reflexivity.
    + simpl. lia.
  - destruct m as [|p|p]; try lia.
    rewrite shr_fexp_canonical; auto.
    + eexists _, _. split; [reflexivity|]. simpl. split; [reflexivity | lia].
    + apply digits2_pos_bounds; [lia|]. change (53 - 1) with 52. lia.
Qed.

Lemma binary_round_aux_53 m e l :
  Zpos (digits2_pos m) = 53 -> -1074 <= e <= 970 ->
  binary_round_aux 53 1024 false (Zpos m) e l = renorm (round_nearest_even (Zpos m) l) e.
Proof.
  intros Hd He. unfold binary_round_aux. rewrite shr_fexp_canonical by (auto; lia).
  rewrite loc_of_shr_record_of_loc, shr_m_of_loc.
  apply digits2_pos_bounds in Hd; [|lia]. change (53 - 1) with 52 in Hd.
  assert (Hr : 2 ^ 52 <= round_nearest_even (Zpos m) l <= 2 ^ 53).
  { destruct l as [|[]]; unfold round_nearest_even; try lia. destruct (Z.even (Zpos m)); lia. }
  destruct (shr_fexp_exact_53_54 _ e Hr ltac:(lia)) as (mrs & e' & -> & Heq & Hpos).
  destruct (shr_m mrs) as [|p|p] eqn:Hm; try lia.
  assert (He' : e' <= 971).
  { revert Heq. unfold renorm. destruct (Z.eqb _ _); intros [= _ ->]; lia. }
  replace (e' <=? 1024 - 53) with true by (symmetry; apply Z.leb_le; lia).
  rewrite <- Heq. reflexivity.
Qed.

Lemma shr_fexp_54 m e l :
  Zpos (digits2_pos m) = 54 -> -1075 <= e ->
  shr_fexp 53 1024 (Zpos m) e l =
    ({| shr_m := Zpos m / 2; shr_r := Z.odd (Zpos m); shr_s := negb (is_exact l) |}, e + 1).
Proof.
  intros Hd He. unfold shr_fexp, Zdigits2. rewrite Hd.
  unfold fexp, emin. replace (Z.max (54 + e - 53) (3 - 1024 - 53) - e) with 1 by lia.
  unfold shr, iter_pos. f_equal.
  destruct m as [p|p|].
  - change (Zpos p~1) with (2 * Zpos p + 1) at 2.
    replace ((2 * Zpos p + 1) / 2) with (Zpos p) by (apply Z.div_unique with 1; lia).
    destruct l as [|[]]; reflexivity.
  - change (Zpos p~0) with (2 * Zpos p) at 2.
    replace ((2 * Zpos p) / 2) with (Zpos p) by (apply Z.div_unique with 0; lia).
    destruct l as [|[]]; reflexivity.
  - discriminate Hd.
Qed.

Lemma binary_round_aux_54 m e l :
  Zpos (digits2_pos m) = 54 -> -1075 <= e <= 969 ->
  binary_round_aux 53 1024 false (Zpos m) e l =
    renorm (round_nearest_even (Zpos m / 2)
              (loc_of_shr_record
                 {| shr_m := Zpos m / 2; shr_r := Z.odd (Zpos m); shr_s := negb (is_exact l) |}))
           (e + 1).
Proof.
  intros Hd He. unfold binary_round_aux. rewrite shr_fexp_54 by (auto; lia).
  cbn [shr_m].
  apply digits2_pos_bounds in Hd; [|lia]. change (54 - 1) with 53 in Hd.
  set (h := Zpos m / 2).
  assert (Hh : 2 ^ 52 <= h < 2 ^ 53).
  { unfold h. split.
    - apply Z.div_le_lower_bound; lia.
    - apply Z.div_lt_upper_bound; lia. }
  set (l' := loc_of_shr_record _).
  assert (Hr : 2 ^ 52 <= round_nearest_even h l' <= 2 ^ 53).
  { destruct l' as [|[]]; unfold round_nearest_even; try lia. destruct (Z.even h); lia. }
  destruct (shr_fexp_exact_53_54 _ (e + 1) Hr ltac:(lia)) as (mrs & e' & -> & Heq & Hpos).
  destruct (shr_m mrs) as [|p|p] eqn:Hm; try lia.
  assert (He' : e' <= 971).
  { revert Heq. unfold renorm. destruct (Z.eqb _ _); intros [= _ ->]; lia. }
  replace (e' <=? 1024 - 53) with true by (symmetry; apply Z.leb_le; lia).
  rewrite <- Heq. reflexivity.
Qed.

Lemma new_location_spec my r :
  0 < my -> 0 <= r < my ->
  new_location my r = if r =? 0 then loc_Exact else loc_Inexact (2 * r ?= my).
Proof.
  intros Hmy Hr. unfold new_location, new_location_even, new_location_odd.
  destruct (Z.even my) eqn:Hev; [reflexivity|].
  destruct (r =? 0); [reflexivity|]. f_equal.
  assert (Hodd : my mod 2 = 1).
  { rewrite Zmod_even, Hev. reflexivity. }
  destruct (Z.compare_spec (2 * r + 1) my), (Z.compare_spec (2 * r) my); try reflexivity; try lia.
  subst my. rewrite Z.mul_comm, Z_mod_mult in Hodd. discriminate.
Qed.

Lemma SFdiv_core_normal mx ex my ey :
  Zpos (digits2_pos mx) = 53 -> Zpos (digits2_pos my) = 53 ->
  -1021 <= ex - ey ->
  SFdiv_core_binary 53 1024 (Zpos mx) ex (Zpos my) ey =
    ((Zpos mx * 2 ^ 53) / Zpos my, ex - ey - 53,
     new_location (Zpos my) ((Zpos mx * 2 ^ 53) mod Zpos my)).
Proof.
  intros Hx Hy He. unfold SFdiv_core_binary, Zdigits2. rewrite Hx, Hy.
  unfold fexp, emin.
  replace (Z.min (Z.max (53 + ex - (53 + ey) - 53) (3 - 1024 - 53)) (ex - ey)) with (ex - ey - 53) by lia.
  replace (ex - ey - (ex - ey - 53)) with 53 by lia.
  rewrite Z.shiftl_mul_pow2 by lia.
  unfold Z.div, Z.modulo. destruct (Z.div_eucl _ _). reflexivity.
Qed.

Lemma pow2_split a b : 0 <= a -> 0 <= b -> 2 ^ (a + b) = 2 ^ a * 2 ^ b.
Proof. intros. apply Z.pow_add_r; lia. Qed.

Lemma of_int_normal n :
  1 <= n <= 2 ^ 53 ->
  exists mx ex, float64.of_int n = posFloat mx ex /\ Zpos (digits2_pos mx) = 53 /\
                -52 <= ex <= 1 /\ Zpos mx * 2 ^ (ex + 52) = n * 2 ^ 52.
Proof.
  intros Hn. destruct n as [|p|p]; try lia.
  unfold float64.of_int, float64.prec, float64.emax, binary_normalize, binary_round.
  remember (Zpos (digits2_pos p)) as d eqn:Hd. symmetry in Hd.
  assert (Hdpos : 0 < d) by (subst d; lia).
  pose proof (proj1 (digits2_pos_bounds p d Hdpos) Hd) as Hb.
  assert (Hd54 : d <= 54).
  { destruct (Z.le_gt_cases d 54) as [|Hgt]; [assumption|exfalso].
    assert (2 ^ 54 <= 2 ^ (d - 1)) by (apply Z.pow_le_mono_r; lia). lia. }
  unfold fexp, emin. replace (Z.max (d + 0 - 53) (3 - 1024 - 53)) with (d - 53) by lia.
  destruct (Z.eq_dec d 54) as [->|Hne54].
  { assert (Zpos p = 2 ^ 53) as Hp by (change (54 - 1) with 53 in Hb; lia).
    injection Hp as ->. eexists _, _. split; [vm_compute; reflexivity|]. vm_compute. intuition discriminate. }
  destruct (Z.eq_dec d 53) as [->|Hne53].
  { unfold shl_align. change (53 - 53 - 0) with 0. cbv beta iota.
    rewrite binary_round_aux_53 by (auto; lia).
    unfold round_nearest_even, renorm. change (53 - 1) with 52 in Hb.
    destruct (Z.eqb_spec (Zpos p) (2 ^ 53)); [lia|].
    exists p, 0. simpl (Z.to_pos (Zpos p)). repeat split; auto; lia. }
  assert (Hk : d - 53 - 0 = Zneg (Z.to_pos (53 - d))).
  { rewrite <- Pos2Z.opp_pos, Z2Pos.id by lia. lia. }
  unfold shl_align. rewrite Hk. cbv beta iota.
  assert (Hm : Zpos (Pos.iter xO p (Z.to_pos (53 - d))) = Zpos p * 2 ^ (53 - d)).
  { rewrite iter_xO_mul, Z2Pos.id by lia. reflexivity. }
  assert (Hpow : 2 ^ (53 - d) * 2 ^ (d - 1) = 2 ^ 52).
  { rewrite <- pow2_split by lia. f_equal. lia. }
  assert (Hpow' : 2 ^ (53 - d) * 2 ^ d = 2 ^ 53).
  { rewrite <- pow2_split by lia. f_equal. lia. }
  assert (0 < 2 ^ (53 - d)) by (apply Z.pow_pos_nonneg; lia).
  assert (Hmb : 2 ^ 52 <= Zpos (Pos.iter xO p (Z.to_pos (53 - d))) < 2 ^ 53).
  { rewrite Hm. nia. }
  assert (Hdm : Zpos (digits2_pos (Pos.iter xO p (Z.to_pos (53 - d)))) = 53).
  { apply digits2_pos_bounds; [lia|]. exact Hmb. }
  rewrite binary_round_aux_53 by (auto; lia).
  unfold round_nearest_even, renorm.
  destruct (Z.eqb_spec (Zpos (Pos.iter xO p (Z.to_pos (53 - d)))) (2 ^ 53)); [lia|].
  eexists _, _. split; [reflexivity|]. rewrite Pos2Z.id. split; [assumption|].
  split; [lia|]. rewrite Hm. replace (d - 53 + 52) with (d - 1) by lia.
  rewrite <- Z.mul_assoc, Hpow. reflexivity.
Qed.

Lemma to_int_of_int c : 0 <= c <= 2 ^ 53 -> float64.to_int (float64.of_int c) = c.
Proof.
  intros Hc. destruct (Z.eq_dec c 0) as [->|Hne]; [reflexivity|].
  destruct (of_int_normal c ltac:(lia)) as (mx & ex & -> & Hd & He & Hv).
  unfold float64.to_int, posFloat.
  assert (Ha : (if 0 <=? ex then Zpos mx * 2 ^ ex else Zpos mx / 2 ^ (- ex)) = c).
  { destruct (Z.leb_spec 0 ex).
    - rewrite pow2_split in Hv by lia. lia.
    - assert (Hp : 2 ^ 52 = 2 ^ (ex + 52) * 2 ^ (- ex)).
      { rewrite <- pow2_split by lia. f_equal. lia. }
      assert (0 < 2 ^ (ex + 52)) by (apply Z.pow_pos_nonneg; lia).
      assert (0 < 2 ^ (- ex)) by (apply Z.pow_pos_nonneg; lia).
      rewrite Hp in Hv.
      assert (Zpos mx = c * 2 ^ (- ex)) as -> by nia.
      apply Z.div_mul. lia. }
  rewrite Ha.
  replace ((Int.MinInt <=? c) && (c <=? Int.MaxInt)) with true; [reflexivity|].
  symmetry. apply andb_true_iff. unfold Int.MinInt, Int.MaxInt. split; [apply Z.leb_le | apply Z.leb_le]; lia.
Qed.

Lemma to_int_Ceil_F m e c :
  Zpos m <= 2 ^ 53 -> -200 <= e <= 0 ->
  (c - 1) * 2 ^ (- e) < Zpos m <= c * 2 ^ (- e) ->
  float64.to_int (float64.Ceil (posFloat m e)) = c.
Proof.
  intros Hm He Hc. unfold float64.Ceil, posFloat.
  assert (HG : 0 < 2 ^ (- e)) by (apply Z.pow_pos_nonneg; lia).
  destruct (Z.leb_spec 0 e).
  - assert (e = 0) as -> by lia. simpl in Hc. unfold float64.to_int. change (0 <=? 0) with true.
    cbv iota. rewrite Z.pow_0_r, Z.mul_1_r.
    replace ((Int.MinInt <=? Zpos m) && (Zpos m <=? Int.MaxInt)) with true; [cbv iota; lia|].
    symmetry. apply andb_true_iff. unfold Int.MinInt, Int.MaxInt. split; apply Z.leb_le; lia.
  - pose proof (Z.div_mod (Zpos m) (2 ^ (- e)) ltac:(lia)) as Hdm.
    pose proof (Z.mod_pos_bound (Zpos m) (2 ^ (- e)) HG) as Hr.
    set (q := Zpos m / 2 ^ (- e)) in *. set (r := Zpos m mod 2 ^ (- e)) in *.
    assert (Hcv : (if r =? 0 then q else q + 1) = c).
    { destruct (Z.eqb_spec r 0); nia. }
    rewrite Hcv. apply to_int_of_int. nia.
Qed.

Lemma to_int_Ceil_renorm m1 E c :
  2 ^ 52 <= m1 <= 2 ^ 53 -> -200 <= E <= 0 ->
  (c - 1) * 2 ^ (- E) < m1 <= c * 2 ^ (- E) ->
  float64.to_int (float64.Ceil (renorm m1 E)) = c.
Proof.
  intros Hm HE Hc. unfold renorm.
  destruct (Z.eqb_spec m1 (2 ^ 53)) as [->|Hne].
  - destruct (Z.eq_dec E 0) as [->|HE0].
    + simpl in Hc. assert (c = 2 ^ 53) as -> by lia. reflexivity.
    + apply to_int_Ceil_F; [simpl; lia | lia |].
      assert (Hp : 2 ^ (- E) = 2 * 2 ^ (- (E + 1))).
      { rewrite <- Z.pow_succ_r by lia. f_equal. lia. }
      rewrite Hp in Hc. change (Zpos (Z.to_pos (2 ^ 52))) with (2 ^ 52).
      change (2 ^ 53) with (2 * 2 ^ 52) in Hc. lia.
  - destruct m1 as [|p|p]; try lia. simpl (Z.to_pos _).
    apply to_int_Ceil_F; auto; lia.
Qed.

Lemma SFdiv_normal mx ex my ey :
  Zpos (digits2_pos mx) = 53 -> Zpos (digits2_pos my) = 53 ->
  -60 <= ex <= 60 -> -60 <= ey <= 60 ->
  let q := Zpos mx * 2 ^ 53 / Zpos my in
  let r := (Zpos mx * 2 ^ 53) mod Zpos my in
  exists m1 E q',
    SFdiv 53 1024 (posFloat mx ex) (posFloat my ey) = renorm m1 E /\
    2 ^ 52 <= q' < 2 ^ 53 /\ (m1 = q' \/ m1 = q' + 1) /\
    ((E = ex - ey - 53 /\ q' = q /\ (r = 0 -> m1 = q') /\ (m1 = q' -> 2 * r <= Zpos my))
     \/ (E = ex - ey - 52 /\ q' = q / 2 /\ (r = 0 -> Z.even q = true -> m1 = q') /\
         (m1 = q' -> Z.even q = true \/ r = 0))).
Proof.
  intros Hx Hy Hex Hey q r.
  pose proof (proj1 (digits2_pos_bounds mx 53 eq_refl) Hx) as Hbx.
  pose proof (proj1 (digits2_pos_bounds my 53 eq_refl) Hy) as Hby.
  change (53 - 1) with 52 in Hbx, Hby.
  assert (Hq : 2 ^ 52 <= q < 2 ^ 54).
  { unfold q. split.
    - apply Z.div_le_lower_bound; lia.
    - apply Z.div_lt_upper_bound; lia. }
  assert (Hr : 0 <= r < Zpos my) by (apply Z.mod_pos_bound; lia).
  unfold SFdiv, posFloat. rewrite SFdiv_core_normal by (auto; lia).
  fold q r. simpl xorb. rewrite (new_location_spec (Zpos my) r) by lia.
  destruct q as [|qp|qp] eqn:Hqp; try lia.
  destruct (Z.lt_ge_cases (Zpos qp) (2 ^ 53)) as [Hlt|Hge].
  - rewrite binary_round_aux_53; [| apply digits2_pos_bounds; change (53 - 1) with 52; lia | lia].
    eexists _, _, (Zpos qp). split; [reflexivity|]. split; [lia|].
    destruct (Z.eqb_spec r 0) as [Hr0|Hr0].
    + unfold round_nearest_even. split; [auto|]. left. repeat split; auto. lia.
    + destruct (Z.compare_spec (2 * r) (Zpos my)) as [Hc|Hc|Hc]; unfold round_nearest_even.
      * split; [destruct (Z.even (Zpos qp)); auto|]. left. repeat split; auto; intros; lia.
      * split; [auto|]. left. repeat split; auto; intros; lia.
      * split; [auto|]. left. repeat split; auto; intros; lia.
  - rewrite binary_round_aux_54; [| apply digits2_pos_bounds; change (54 - 1) with 53; lia | lia].
    assert (Hh : 2 ^ 52 <= Zpos qp / 2 < 2 ^ 53).
    { split; [apply Z.div_le_lower_bound | apply Z.div_lt_upper_bound]; lia. }
    eexists _, _, (Zpos qp / 2). split; [reflexivity|]. split; [exact Hh|].
    rewrite <- Z.negb_even.
    destruct (Z.even (Zpos qp)) eqn:Hev; destruct (Z.eqb_spec r 0) as [Hr0|Hr0];
      cbn [negb is_exact loc_of_shr_record round_nearest_even].
    + split; [auto|]. right. repeat split; auto; intros; try lia; try discriminate.
    + split; [auto|]. right. repeat split; auto; intros; try lia; try discriminate.
    + split; [destruct (Z.even (Zpos qp / 2)); auto|]. right.
      repeat split; auto; intros; try lia; try discriminate.
    + split; [auto|]. right. repeat split; auto; intros; try lia; try discriminate.
Qed.

Lemma ceil_div_cases n w :
  1 <= w -> 0 <= n ->
  let c := (n + w - 1) / w in
  (n mod w = 0 /\ c = n / w) \/ (0 < n mod w /\ c = n / w + 1).
Proof.
  intros Hw Hn c.
  pose proof (Z.div_mod n w ltac:(lia)) as Hdm.
  pose proof (Z.mod_pos_bound n w ltac:(lia)) as Hr.
  destruct (Z.eq_dec (n mod w) 0) as [H0|H0].
  - left. split; [assumption|]. unfold c. symmetry.
    apply Z.div_unique with (w - 1); lia.
  - right. split; [lia|]. unfold c. symmetry.
    apply Z.div_unique with (n mod w - 1); lia.
Qed.

Lemma ceil_rounded n w G q m1 :
  1 <= n <= 2 ^ 53 -> 1 <= w -> 1 <= G ->
  q = n * G / w -> 2 ^ 52 <= q ->
  (m1 = q \/ m1 = q + 1) ->
  ((n * G) mod w = 0 -> m1 = q) ->
  (m1 = q -> 2 * ((n * G) mod w) <= w) ->
  let c := (n + w - 1) / w in
  (c - 1) * G < m1 <= c * G.
Proof.
  intros Hn Hw HG Hq Hq52 Hm Hex Hdown c.
  pose proof (Z.div_mod n w ltac:(lia)) as Hdm.
  pose proof (Z.mod_pos_bound n w ltac:(lia)) as Hr0.
  pose proof (Z.div_mod (n * G) w ltac:(lia)) as HdmG.
  pose proof (Z.mod_pos_bound (n * G) w ltac:(lia)) as Hr.
  rewrite <- Hq in HdmG.
  set (k := n / w) in *. set (r0 := n mod w) in *. set (r := (n * G) mod w) in *.
  assert (Hk : 0 <= k) by (apply Z.div_pos; lia).
  destruct (ceil_div_cases n w Hw ltac:(lia)) as [[H0 Hc]|[H0 Hc]]; fold c k r0 in H0, Hc.
  - (* w divides n: the quotient is exact *)
    assert (HqkG : q = k * G).
    { rewrite Hq. symmetry. apply Z.div_unique with 0; [lia|]. rewrite Hdm, H0. ring. }
    assert (r = 0) by nia.
    rewrite Hc. rewrite (Hex H). nia.
  - rewrite Hc. replace (k + 1 - 1) with k by lia.
    assert (HkG : k * G <= q).
    { rewrite Hq. apply Z.div_le_lower_bound; [lia|]. nia. }
    assert (HqG : q + 1 <= (k + 1) * G).
    { assert (q < (k + 1) * G); [|lia]. rewrite Hq. apply Z.div_lt_upper_bound; [lia|]. nia. }
    split; [|lia].
    destruct Hm as [Hm|Hm]; [|lia].
    destruct (Z.eq_dec q (k * G)) as [Heq|Hne]; [|lia].
    exfalso. specialize (Hdown Hm).
    (* r = r0 * G, so r0 * 2^53 <= k * w < n *)
    assert (Hrr : r = r0 * G) by nia.
    assert (H1 : 2 ^ 52 <= k * G) by lia.
    assert (H2 : 2 * r0 * G <= w) by lia.
    assert (H3 : 1 <= k) by nia.
    assert (H4 : 2 * r0 * (k * G) <= k * w) by nia.
    assert (H5 : 2 * r0 * 2 ^ 52 <= k * w) by nia.
    nia.
Qed.

(* scaled division: the quotient computed on the mantissas is the quotient of n*G by w *)
Lemma scaled_quotient n w X Y a b g q r :
  0 <= a -> 0 <= b -> 0 <= g -> g + a = 53 + b ->
  0 < Y -> 1 <= w ->
  X * 2 ^ a = n * 2 ^ 52 -> Y * 2 ^ b = w * 2 ^ 52 ->
  X * 2 ^ 53 = Y * q + r -> 0 <= r < Y ->
  q = n * 2 ^ g / w /\ ((n * 2 ^ g) mod w) * Y = r * w.
Proof.
  intros Ha Hb Hg Hgab HY Hw HX HYw Hdiv Hr.
  assert (HA : 0 < 2 ^ a) by (apply Z.pow_pos_nonneg; lia).
  assert (HB : 0 < 2 ^ b) by (apply Z.pow_pos_nonneg; lia).
  assert (HG : 0 < 2 ^ g) by (apply Z.pow_pos_nonneg; lia).
  assert (Hpow : 2 ^ g * 2 ^ a = 2 ^ 53 * 2 ^ b).
  { rewrite <- !pow2_split by lia. f_equal. lia. }
  set (A := 2 ^ a) in *. set (B := 2 ^ b) in *. set (G := 2 ^ g) in *.
  set (P := 2 ^ 52) in *. assert (HP : 0 < P) by (unfold P; lia).
  set (T := 2 ^ 53) in *.
  (* (n G - q w) P = r B *)
  assert (Hkey : (n * G - q * w) * P = r * B).
  { apply Z.mul_reg_r with A; [lia|].
    transitivity (n * P * (G * A) - q * (w * P) * A); [ring|].
    rewrite Hpow, <- HX, <- HYw.
    transitivity ((X * T - Y * q) * A * B); [ring|]. rewrite Hdiv. ring. }
  set (r' := n * G - q * w) in *.
  assert (Hr' : 0 <= r' < w) by nia.
  assert (Hq : q = n * G / w).
  { apply Z.div_unique with r'; [lia|]. unfold r'. ring. }
  split; [exact Hq|].
  assert (Hmod : (n * G) mod w = r').
  { symmetry. apply Z.mod_unique with q; [lia|]. unfold r'. ring. }
  rewrite Hmod. apply Z.mul_reg_r with P; [lia|].
  transitivity (r' * P * Y); [ring|]. rewrite Hkey.
  transitivity (r * (Y * B)); [ring|]. rewrite HYw. ring.
Qed.

Theorem numPagesPerWorker_exact n w :
  0 <= n <= 2 ^ 53 -> 1 <= w <= 2 ^ 53 ->
  numPagesPerWorker n w = (n + w - 1) / w.
Proof.
  intros Hn Hw. unfold numPagesPerWorker, float64.div, float64.prec, float64.emax.
  destruct (of_int_normal w Hw) as (my & ey & Hfy & Hdy & Hey & Hvy).
  destruct (Z.eq_dec n 0) as [->|Hn0].
  { rewrite Hfy. change (float64.of_int 0) with (S754_zero false). simpl.
    symmetry. apply Z.div_small. lia. }
  destruct (of_int_normal n ltac:(lia)) as (mx & ex & Hfx & Hdx & Hex & Hvx).
  rewrite Hfx, Hfy.
  destruct (SFdiv_normal mx ex my ey Hdx Hdy ltac:(lia) ltac:(lia))
    as (m1 & E & q' & -> & Hq' & Hm1 & Hcase).
  pose proof (Z.div_mod (Zpos mx * 2 ^ 53) (Zpos my) ltac:(lia)) as Hdm.
  pose proof (Z.mod_pos_bound (Zpos mx * 2 ^ 53) (Zpos my) ltac:(lia)) as Hr.
  set (q := Zpos mx * 2 ^ 53 / Zpos my) in *.
  set (r := (Zpos mx * 2 ^ 53) mod Zpos my) in *.
  destruct Hcase as [(HE & Hqq & Hexact & Hdown)|(HE & Hqq & Hexact & Hdown)].
  - (* 53-bit quotient *)
    destruct (scaled_quotient n w (Zpos mx) (Zpos my) (ex + 52) (ey + 52) (- E) q r)
      as [Hq Hmod]; try lia; auto.
    assert (HG : 0 < 2 ^ (- E)) by (apply Z.pow_pos_nonneg; lia).
    assert (Hx1 : (n * 2 ^ (- E)) mod w = 0 -> m1 = q').
    { intros H0. apply Hexact. rewrite H0 in Hmod. nia. }
    assert (Hd1 : m1 = q' -> 2 * ((n * 2 ^ (- E)) mod w) <= w).
    { intros Hm. specialize (Hdown Hm). nia. }
    apply to_int_Ceil_renorm; [lia | lia |].
    apply ceil_rounded with (q := q'); auto; lia.
  - (* 54-bit quotient: one more bit is shifted out *)
    pose proof (Z.div_mod q 2 ltac:(lia)) as Hq2.
    pose proof (Z.mod_pos_bound q 2 ltac:(lia)) as Hb2.
    rewrite <- Hqq in Hq2.
    assert (Hev : Z.even q = true <-> q mod 2 = 0).
    { rewrite Zmod_even. destruct (Z.even q); split; intros; try discriminate; auto. }
    destruct (Z.eq_dec E 1) as [HE1|HE1].
    + (* only 2^53 / 1 *)
      assert (ex = 1 /\ ey = -52) as [-> ->] by lia.
      simpl in Hvx, Hvy.
      assert (Hmx : 2 ^ 52 <= Zpos mx < 2 ^ 53) by (apply (digits2_pos_bounds mx 53); auto; lia).
      assert (Hmy : 2 ^ 52 <= Zpos my < 2 ^ 53) by (apply (digits2_pos_bounds my 53); auto; lia).
      assert (w = 1) by lia. assert (n = 2 ^ 53) by lia. subst w n.
      assert (Zpos my = 2 ^ 52) by lia. assert (Zpos mx = 2 ^ 52) by lia.
      assert (Hqv : q = 2 ^ 53).
      { unfold q. rewrite H, H0. reflexivity. }
      assert (Hrv : r = 0).
      { unfold r. rewrite H, H0. reflexivity. }
      assert (m1 = q').
      { apply Hexact; auto. rewrite Hqv. reflexivity. }
      subst m1 q'. rewrite Hqv, HE1. reflexivity.
    + assert (Hdiv2 : Zpos mx * 2 ^ 53 = Zpos my * (2 * q') + (q mod 2 * Zpos my + r)) by nia.
      assert (Hpow : 2 ^ (- (E - 1)) = 2 * 2 ^ (- E)).
      { rewrite <- Z.pow_succ_r by lia. f_equal. lia. }
      assert (HG : 0 < 2 ^ (- E)) by (apply Z.pow_pos_nonneg; lia).
      (* the quotient with one bit less *)
      destruct (scaled_quotient n w (Zpos mx) (Zpos my) (ex + 52) (ey + 52) (- (E - 1)) q r)
        as [Hq Hmod]; try lia; auto.
      rewrite Hpow in Hq, Hmod.
      pose proof (Z.div_mod (n * (2 * 2 ^ (- E))) w ltac:(lia)) as HdmG.
      pose proof (Z.mod_pos_bound (n * (2 * 2 ^ (- E))) w ltac:(lia)) as HrG.
      rewrite <- Hq in HdmG.
      set (rG := (n * (2 * 2 ^ (- E))) mod w) in *.
      set (G := 2 ^ (- E)) in *.
      assert (Hq'G : q' = n * G / w).
      { apply Z.div_unique with ((q mod 2 * w + rG) / 2).
        - left. split; [apply Z.div_pos; nia|]. apply Z.div_lt_upper_bound; nia.
        - pose proof (Z.div_mod (q mod 2 * w + rG) 2 ltac:(lia)).
          pose proof (Z.mod_pos_bound (q mod 2 * w + rG) 2 ltac:(lia)).
          assert (Hpar : (q mod 2 * w + rG) mod 2 = 0).
          { assert (q mod 2 * w + rG = 2 * (n * G - w * q')) as -> by nia.
            rewrite Z.mul_comm. apply Z_mod_mult. }
          nia. }
      assert (HmodG : 2 * ((n * G) mod w) = q mod 2 * w + rG).
      { pose proof (Z.div_mod (n * G) w ltac:(lia)) as Hd. rewrite <- Hq'G in Hd. nia. }
      assert (Hx1 : (n * G) mod w = 0 -> m1 = q').
      { intros H0. apply Hexact.
        - assert (rG = 0) by nia. rewrite H in Hmod. nia.
        - apply Hev. nia. }
      assert (Hd1 : m1 = q' -> 2 * ((n * G) mod w) <= w).
      { intros Hm. destruct (Hdown Hm) as [He|Hr0].
        - apply Hev in He. nia.
        - rewrite Hr0 in Hmod. assert (rG = 0) by nia. nia. }
      apply to_int_Ceil_renorm; [lia | lia |].
      apply ceil_rounded with (q := q'); auto; lia.
Qed.

Lemma spawnWorkers_ranges {W : Type} fuel (worker : Z -> Z -> option W) n p f :
  spawnWorkers fuel worker n p f =
  match spawnWorkers fuel pair_range n p f with
  | Some ranges => runWorkers worker ranges
  | None => None
  end.
Proof.
  revert f. induction fuel as [|fuel IH]; intros f; [reflexivity|].
  cbn [spawnWorkers]. destruct (f <=? n); [|reflexivity].
  rewrite IH.
  destruct (spawnWorkers fuel pair_range n p (Int.add f p)) as [rs|].
  - reflexivity.
  - now destruct (worker _ _).
Qed.

Section Loop.
Variables total p : Z.
Hypothesis Htotal : 0 <= total.
Hypothesis Hp : 1 <= p.
Hypothesis Hmax : total + p <= Int.MaxInt.

Lemma spawn_exit fuel f :
  total < f -> spawnWorkers (S fuel) pair_range total p f = Some [].
Proof.
  intros H. cbn [spawnWorkers]. destruct (Z.leb_spec f total); [lia | reflexivity].
Qed.

Lemma spawn_step fuel f :
  1 <= f <= total ->
  spawnWorkers (S fuel) pair_range total p f =
  match spawnWorkers fuel pair_range total p (f + p) with
  | Some rs => Some ((f, Z.min total (f + p - 1)) :: rs)
  | None => None
  end.
Proof.
  intros H. cbn [spawnWorkers]. destruct (Z.leb_spec f total); [|lia].
  unfold Int.sub, Int.add. unfold Int.MaxInt in Hmax.
  rewrite (wrap_id (f + p)) by (unfold Int.MinInt, Int.MaxInt; lia).
  rewrite (wrap_id (f + p - 1)) by (unfold Int.MinInt, Int.MaxInt; lia).
  unfold pair_range at 1.
  replace (if f + p - 1 >? total then total else f + p - 1)
    with (Z.min total (f + p - 1)).
  - reflexivity.
  - destruct (Z.gtb_spec (f + p - 1) total); lia.
Qed.

Lemma spawn_chain (n : nat) :
  forall f, 1 <= f <= total + 1 -> total + 1 - f <= Z.of_nat n * p ->
  exists rs,
    chain f rs total /\ (length rs <= n)%nat /\
    (forall i a b, rs !! i = Some (a, b) -> (S i < length rs)%nat -> b - a + 1 = p) /\
    (forall a b, last rs = Some (a, b) ->
       b - a + 1 = if (total + 1 - f) mod p =? 0 then p else (total + 1 - f) mod p) /\
    (forall fuel, (length rs < fuel)%nat ->
       spawnWorkers fuel pair_range total p f = Some rs).
Proof using Htotal Hp Hmax.
  induction n as [|n IH]; intros f Hf Hn.
  - exists []. assert (f = total + 1) by lia. subst f.
    repeat split; simpl; try lia; try discriminate.
    intros [|fuel] Hfuel; [lia|]. apply spawn_exit. lia.
  - destruct (Z.eq_dec f (total + 1)) as [->|Hne].
    { exists []. repeat split; simpl; try lia; try discriminate.
      intros [|fuel] Hfuel; [lia|]. apply spawn_exit. lia. }
    destruct (Z.lt_ge_cases total (f + p - 1)) as [Hclamp|Hfit].
    + (* the last range, clamped to [total] *)
      exists [(f, total)]. repeat split; simpl; try lia.
      * intros a b [= <- <-]. rewrite Z.mod_small by lia.
        destruct (Z.eqb_spec (total + 1 - f) 0); lia.
      * intros [|[|fuel]] Hfuel; try lia.
        rewrite spawn_step by lia. rewrite spawn_exit by lia.
        rewrite Z.min_l by lia. reflexivity.
    + (* a full range *)
      destruct (IH (f + p)) as (rs & Hchain & Hlen & Hfull & Hlast & Hrun);
        [lia | lia |].
      exists ((f, f + p - 1) :: rs). repeat split.
      * lia.
      * replace (f + p - 1 + 1) with (f + p) by lia. exact Hchain.
      * simpl. lia.
      * intros [|i] a b H Hi.
        -- injection H as <- <-. lia.
        -- simpl in H, Hi. apply (Hfull i); [exact H | lia].
      * intros a b H.
        assert (Hmod : (total + 1 - (f + p)) mod p = (total + 1 - f) mod p).
        { replace (total + 1 - (f + p)) with (total + 1 - f + (-1) * p) by lia.
          apply Z.mod_add. lia. }
        destruct rs as [|r rs].
        -- injection H as <- <-. simpl in Hchain.
           replace (total + 1 - f) with (1 * p) by lia.
           rewrite Z.mod_mul by lia. simpl. lia.
        -- rewrite last_cons_cons in H. rewrite <- Hmod. now apply Hlast.
      * intros [|fuel] Hfuel; [simpl in Hfuel; lia|].
        rewrite spawn_step by lia. rewrite Hrun by (simpl in Hfuel; lia).
        rewrite Z.min_r by lia. reflexivity.
Qed.
End Loop.

(** ** Chains of ranges *)

Lemma chain_end rs : forall f l, chain f rs l -> f - 1 <= l.
Proof.
  induction rs as [|[x y] rs IH]; intros f l Hc; simpl in Hc; [lia|].
  destruct Hc as (-> & ? & Hc). apply IH in Hc. lia.
Qed.

Lemma chain_bounds rs : forall f l a b,
  chain f rs l -> (a, b) ∈ rs -> f <= a /\ a <= b /\ b <= l.
Proof.
  induction rs as [|[x y] rs IH]; intros f l a b Hc Hin.
  - inversion Hin.
  - simpl in Hc. destruct Hc as (-> & Hxy & Hc).
    apply elem_of_cons in Hin as [[= -> ->]|Hin].
    + apply chain_end in Hc. lia.
    + destruct (IH _ _ _ _ Hc Hin). lia.
Qed.

Lemma chain_sorted rs : forall f l i j a b c d,
  chain f rs l -> (i < j)%nat ->
  rs !! i = Some (a, b) -> rs !! j = Some (c, d) -> a < c /\ b < c.
Proof.
  induction rs as [|[x y] rs IH]; intros f l i j a b c d Hc Hij Hi Hj.
  - rewrite lookup_nil in Hi. discriminate.
  - simpl in Hc. destruct Hc as (<- & Hxy & Hc).
    destruct j as [|j]; [lia|]. simpl in Hj.
    destruct i as [|i].
    + injection Hi as <- <-.
      apply list_elem_of_lookup_2 in Hj.
      destruct (chain_bounds _ _ _ _ _ Hc Hj). lia.
    + simpl in Hi. apply (IH _ _ i j a b c d Hc); [lia | assumption | assumption].
Qed.

Lemma chain_cover rs : forall f l q,
  chain f rs l -> (exists a b, (a, b) ∈ rs /\ a <= q <= b) <-> f <= q <= l.
Proof.
  induction rs as [|[x y] rs IH]; intros f l q Hc; simpl in Hc.
  - split; [|lia]. intros (a & b & Hin & _). inversion Hin.
  - destruct Hc as (<- & Hxy & Hc). specialize (IH _ _ q Hc). split.
    + intros (a & b & Hin & Hq). apply elem_of_cons in Hin as [[= -> ->]|Hin].
      * assert ((x, y) ∈ (x, y) :: rs) as Hin by apply list_elem_of_here.
        pose proof (chain_bounds ((x, y) :: rs) x l x y) as Hb.
        simpl in Hb. specialize (Hb (conj eq_refl (conj Hxy Hc)) Hin). lia.
      * assert (y + 1 <= q <= l) by (apply IH; eauto). lia.
    + intros Hq. destruct (Z.le_gt_cases q y).
      * exists x, y. split; [apply list_elem_of_here | lia].
      * destruct (proj2 IH ltac:(lia)) as (a & b & Hin & Hab).
        exists a, b. split; [now apply list_elem_of_further | assumption].
Qed.

Lemma seqZ_app_contiguous a len1 len2 :
  0 <= len1 -> 0 <= len2 ->
  seqZ a len1 ++ seqZ (a + len1) len2 = seqZ a (len1 + len2).
Proof. intros. symmetry. now apply seqZ_app. Qed.

Lemma chain_pages rs : forall f l,
  chain f rs l -> concat (map pagesOf rs) = seqZ f (l - f + 1).
Proof.
  induction rs as [|[x y] rs IH]; intros f l Hc; simpl in Hc.
  - subst l. replace (f - 1 - f + 1) with 0 by lia. reflexivity.
  - destruct Hc as (<- & Hxy & Hc). simpl. rewrite (IH _ _ Hc).
    unfold pagesOf. simpl.
    assert (Hl : y <= l).
    { pose proof (chain_bounds ((x, y) :: rs) x l x y) as Hb. simpl in Hb.
      specialize (Hb (conj eq_refl (conj Hxy Hc)) (list_elem_of_here _ _)). lia. }
    replace (y + 1) with (x + (y - x + 1)) by lia.
    rewrite seqZ_app_contiguous by lia. f_equal. lia.
Qed.

(** ** The request form *)

Lemma lookupForm_Some request key values :
  Form request !! key = Some values -> lookupForm request key = (values, true).
Proof. unfold lookupForm. now intros ->. Qed.

Lemma lookupForm_None request key :
  Form request !! key = None -> lookupForm request key = ([], false).
Proof. unfold lookupForm. now intros ->. Qed.

Lemma length_one {A} (l : list A) :
  (length l =? 1)%nat = true -> exists x, l = [x].
Proof.
  destruct l as [|x [|y l]]; simpl; try discriminate. eauto.
Qed.

(** ** The page ranges *)

Lemma ceilDiv_bounds total w :
  1 <= total -> 1 <= w ->
  1 <= ceilDiv total w <= total /\ total <= w * ceilDiv total w.
Proof.
  intros Ht Hw. unfold ceilDiv.
  pose proof (Z.div_mod (total + w - 1) w ltac:(lia)) as Hdm.
  pose proof (Z.mod_pos_bound (total + w - 1) w ltac:(lia)) as Hr.
  set (c := (total + w - 1) / w) in *.
  assert (1 <= c) by nia. split; [|nia]. split; [assumption|].
  destruct (Z.le_gt_cases c total); [assumption|]. nia.
Qed.

(** The ranges of the spawning loop when the per-worker count is the
    exact ceiling. *)
Lemma pageRanges_spec total w :
  0 <= total <= 2 ^ 53 -> 1 <= w <= 2 ^ 53 ->
  exists rs,
    chain 1 rs total /\ Z.of_nat (length rs) <= w /\
    (forall i a b, rs !! i = Some (a, b) -> (S i < length rs)%nat ->
       b - a + 1 = ceilDiv total w) /\
    (forall a b, last rs = Some (a, b) ->
       b - a + 1 = if total mod ceilDiv total w =? 0 then ceilDiv total w
                   else total mod ceilDiv total w) /\
    (forall fuel, (length rs < fuel)%nat -> pageRanges fuel total w = Some rs).
Proof.
  intros Ht Hw. unfold pageRanges. fold pair_range.
  rewrite numPagesPerWorker_exact by assumption. fold (ceilDiv total w).
  destruct (Z.eq_dec total 0) as [->|Hne].
  - exists []. repeat split; simpl; try lia; try discriminate.
    intros [|fuel] Hfuel; [lia|]. reflexivity.
  - destruct (ceilDiv_bounds total w ltac:(lia) ltac:(lia)) as [Hp Hcover].
    destruct (spawn_chain total (ceilDiv total w) ltac:(lia) ltac:(lia)
                ltac:(unfold Int.MaxInt; lia) (Z.to_nat w) 1)
      as (rs & Hchain & Hlen & Hfull & Hlast & Hrun); [lia | nia |].
    exists rs. repeat split; auto; try lia.
    replace (total + 1 - 1) with total in Hlast by lia. exact Hlast.
Qed.

(** The ranges of the spawning loop whenever it stays within the
    machine integers. *)
Lemma pageRanges_chain total w :
  1 <= total -> loopInRange total w ->
  exists rs,
    chain 1 rs total /\
    (forall fuel, (length rs < fuel)%nat -> pageRanges fuel total w = Some rs).
Proof.
  intros Ht [Hp Hmax]. unfold pageRanges. fold pair_range.
  destruct (spawn_chain total (numPagesPerWorker total w) ltac:(lia) Hp Hmax
              (Z.to_nat total) 1)
    as (rs & Hchain & _ & _ & _ & Hrun); [lia | nia |].
  exists rs. auto.
Qed.

(** Up to 2^53 pages the loop stays within the machine integers. *)
Lemma loopInRange_small total w :
  1 <= total <= 2 ^ 53 -> 1 <= w <= 2 ^ 53 -> loopInRange total w.
Proof.
  intros Ht Hw. unfold loopInRange.
  rewrite numPagesPerWorker_exact by lia. fold (ceilDiv total w).
  destruct (ceilDiv_bounds total w ltac:(lia) ltac:(lia)) as [Hp _].
  unfold Int.MaxInt. lia.
Qed.

(** C9 (amended): for every page count from 0 to 2^53 and for the two
    worker counts of the program, 2 and 10, the per-worker page count
    computed through float64 division, math.Ceil and the conversion back
    to int is the exact integer ceiling of total / workerCount. *)
Theorem C9_per_worker_count_exact (total : Z) :
  0 <= total <= 2 ^ 53 ->
  numPagesPerWorker total NUM_WORKERS_CONVERT = ceilDiv total NUM_WORKERS_CONVERT /\
  numPagesPerWorker total NUM_WORKERS_UPLOAD = ceilDiv total NUM_WORKERS_UPLOAD.
Proof.
  intros H. unfold ceilDiv, NUM_WORKERS_CONVERT, NUM_WORKERS_UPLOAD.
  split; apply numPagesPerWorker_exact; lia.
Qed.

Lemma C9_per_worker_count_exact_witness :
  numPagesPerWorker 25 NUM_WORKERS_CONVERT = 13 /\
  numPagesPerWorker 25 NUM_WORKERS_UPLOAD = 3.
Proof. apply (C9_per_worker_count_exact 25). lia. Defined.

(** C9 fails as stated: 2^53 + 1 and 2^53 + 9 are machine integers,
    yet the float64 computation misses the exact ceiling for them. *)
Lemma C9_counterexample :
  Int.in_range (2 ^ 53 + 1) /\ Int.in_range (2 ^ 53 + 9) /\
  numPagesPerWorker (2 ^ 53 + 1) NUM_WORKERS_CONVERT = 2 ^ 52 /\
  ceilDiv (2 ^ 53 + 1) NUM_WORKERS_CONVERT = 2 ^ 52 + 1 /\
  numPagesPerWorker (2 ^ 53 + 9) NUM_WORKERS_UPLOAD = 900719925474100 /\
  ceilDiv (2 ^ 53 + 9) NUM_WORKERS_UPLOAD = 900719925474101.
Proof.
  unfold Int.in_range. repeat split; try (vm_compute; congruence); vm_compute; reflexivity.
Qed.

(** C2 (amended): for every total from 0 to 2^53 and every worker count
    from 1 to 2^53 the spawning loop terminates and its page ranges are
    sorted by start, pairwise non-overlapping and non-empty, cover
    exactly the pages 1..total, number at most workerCount, and there
    is none when total = 0. *)
Theorem C2_partition_ranges (total workerCount : Z) :
  0 <= total <= 2 ^ 53 -> 1 <= workerCount <= 2 ^ 53 ->
  exists ranges,
    (forall fuel, (length ranges < fuel)%nat ->
       pageRanges fuel total workerCount = Some ranges) /\
    (forall i j a b c d, (i < j)%nat ->
       ranges !! i = Some (a, b) -> ranges !! j = Some (c, d) -> a < c /\ b < c) /\
    (forall a b, In (a, b) ranges -> a <= b) /\
    (forall page, (exists a b, In (a, b) ranges /\ a <= page <= b) <-> 1 <= page <= total) /\
    Z.of_nat (length ranges) <= workerCount /\
    (total = 0 -> ranges = []).
Proof.
  intros Ht Hw.
  destruct (pageRanges_spec total workerCount Ht Hw) as (rs & Hchain & Hlen & _ & _ & Hrun).
  exists rs. split; [exact Hrun|]. split; [|split; [|split; [|split]]].
  - intros i j a b c d. now apply (chain_sorted rs 1 total).
  - intros a b Hin%list_elem_of_In. now destruct (chain_bounds rs 1 total a b Hchain Hin).
  - intros page. rewrite <- (chain_cover rs 1 total page Hchain).
    split; intros (a & b & Hin & Hab); exists a, b; (split; [|exact Hab]);
      now apply list_elem_of_In.
  - exact Hlen.
  - intros ->. destruct rs as [|[a b] rs]; [reflexivity|].
    simpl in Hchain. destruct Hchain as (-> & Hab & Hc). apply chain_end in Hc. lia.
Qed.

Lemma C2_partition_ranges_witness :
  exists ranges,
    (forall fuel, (length ranges < fuel)%nat -> pageRanges fuel 6 2 = Some ranges) /\
    (forall i j a b c d, (i < j)%nat ->
       ranges !! i = Some (a, b) -> ranges !! j = Some (c, d) -> a < c /\ b < c) /\
    (forall a b, In (a, b) ranges -> a <= b) /\
    (forall page, (exists a b, In (a, b) ranges /\ a <= page <= b) <-> 1 <= page <= 6) /\
    Z.of_nat (length ranges) <= 2 /\
    (6 = 0 -> ranges = []).
Proof. apply (C2_partition_ranges 6 2); lia. Defined.

(** C2 fails as stated: for total = 2^53 + 1 pages and two workers the
    loop hands out three ranges. *)
Lemma C2_counterexample :
  0 <= 2 ^ 53 + 1 /\ 1 <= 2 /\
  pageRanges 4 (2 ^ 53 + 1) 2 =
    Some [(1, 2 ^ 52); (2 ^ 52 + 1, 2 ^ 53); (2 ^ 53 + 1, 2 ^ 53 + 1)] /\
  ~ (Z.of_nat (length [(1, 2 ^ 52); (2 ^ 52 + 1, 2 ^ 53); (2 ^ 53 + 1, 2 ^ 53 + 1)]) <= 2).
Proof.
  split; [lia|]. split; [lia|]. split; [vm_compute; reflexivity | simpl; lia].
Qed.

(** C3 (amended): for every total from 0 to 2^53 and every worker count
    from 1 to 2^53, every range but the last has length
    ceil(total / workerCount); the last has length total mod that
    ceiling, or the full ceiling when the remainder is zero. *)
Theorem C3_range_lengths (total workerCount : Z) :
  0 <= total <= 2 ^ 53 -> 1 <= workerCount <= 2 ^ 53 ->
  exists ranges,
    (forall fuel, (length ranges < fuel)%nat ->
       pageRanges fuel total workerCount = Some ranges) /\
    (forall i a b, ranges !! i = Some (a, b) -> (S i < length ranges)%nat ->
       b - a + 1 = ceilDiv total workerCount) /\
    (forall a b, last ranges = Some (a, b) ->
       b - a + 1 = if total mod ceilDiv total workerCount =? 0
                   then ceilDiv total workerCount
                   else total mod ceilDiv total workerCount).
Proof.
  intros Ht Hw.
  destruct (pageRanges_spec total workerCount Ht Hw) as (rs & _ & _ & Hfull & Hlast & Hrun).
  exists rs. auto.
Qed.

Lemma C3_range_lengths_witness :
  exists ranges,
    (forall fuel, (length ranges < fuel)%nat -> pageRanges fuel 25 10 = Some ranges) /\
    (forall i a b, ranges !! i = Some (a, b) -> (S i < length ranges)%nat ->
       b - a + 1 = ceilDiv 25 10) /\
    (forall a b, last ranges = Some (a, b) ->
       b - a + 1 = if 25 mod ceilDiv 25 10 =? 0 then ceilDiv 25 10
                   else 25 mod ceilDiv 25 10).
Proof. apply (C3_range_lengths 25 10); lia. Defined.

(** C3 fails as stated: for total = 2^53 + 1 and two workers the first
    range has 2^52 pages, one less than ceil(total / 2). *)
Lemma C3_counterexample :
  pageRanges 4 (2 ^ 53 + 1) 2 =
    Some [(1, 2 ^ 52); (2 ^ 52 + 1, 2 ^ 53); (2 ^ 53 + 1, 2 ^ 53 + 1)] /\
  2 ^ 52 - 1 + 1 <> ceilDiv (2 ^ 53 + 1) 2.
Proof. split; [vm_compute; reflexivity | vm_compute; congruence]. Qed.

Example pageRanges_6_pages :
  pageRanges 3 6 NUM_WORKERS_CONVERT = Some [(1, 3); (4, 6)] /\
  pageRanges 7 6 NUM_WORKERS_UPLOAD = Some [(1, 1); (2, 2); (3, 3); (4, 4); (5, 5); (6, 6)].
Proof. split; vm_compute; reflexivity. Qed.

Example loopInRange_beyond_2_53 :
  loopInRange (2 ^ 53 + 1) NUM_WORKERS_CONVERT /\
  loopInRange (2 ^ 53 + 1) NUM_WORKERS_UPLOAD /\
  ~ loopInRange (2 ^ 63 - 1) NUM_WORKERS_CONVERT.
Proof.
  split; [|split].
  - vm_compute. split; discriminate.
  - vm_compute. split; discriminate.
  - intros [_ H]. vm_compute in H. now apply H.
Qed.

(** ** Template validation *)

(** C5: whenever one of the three remote-template fields is absent, has
    a number of values other than one, or lacks the placeholder, the
    upload phase returns an error, spawns no worker and writes nothing
    to the store, whatever the other fields hold. *)
Theorem C5_validation_rejects
    (fuel : nat) (env : Env) (files : list string) (request : Request)
    (jpegPath smallJPEGPath largeJPEGPath : string) (numPages : Z) :
  malformed request "s3JPEGPath" \/ malformed request "s3SmallJPEGPath" \/
  malformed request "s3LargeJPEGPath" ->
  exists msg,
    uploadAllJPEGsToS3 fuel env files request jpegPath smallJPEGPath largeJPEGPath
      numPages = Some ([], Some (errorString msg)).
Proof.
  unfold malformed, uploadAllJPEGsToS3, lookupForm. intros H.
  destruct (Form request !! "s3JPEGPath") as [v1|],
    (Form request !! "s3SmallJPEGPath") as [v2|],
    (Form request !! "s3LargeJPEGPath") as [v3|]; try (cbn; eauto; fail).
  cbn [negb].
  destruct (length v1 =? 1)%nat eqn:H1; [|cbn; eauto].
  destruct (length v2 =? 1)%nat eqn:H2; [|cbn; eauto].
  destruct (length v3 =? 1)%nat eqn:H3; [|cbn; eauto].
  cbn [negb].
  destruct (length_one _ H1) as [t1 ->], (length_one _ H2) as [t2 ->],
    (length_one _ H3) as [t3 ->].
  cbn [hd].
  destruct (strings.Contains t1 "%d") eqn:C1; [|cbn; eauto].
  destruct (strings.Contains t2 "%d") eqn:C2; [|cbn; eauto].
  destruct (strings.Contains t3 "%d") eqn:C3; [|cbn; eauto].
  exfalso.
  destruct H as [[H|(x & [= <-] & H)]|[[H|(x & [= <-] & H)]|[H|(x & [= <-] & H)]]];
    simpl in H; congruence.
Qed.

(** A missing small template, a large template given twice and a normal
    template without placeholder are each rejected. *)
Lemma C5_validation_rejects_witness :
  (exists msg,
     uploadAllJPEGsToS3 0 (sampleEnv "2") sampleFiles
       (requestWith (Some ["a%d.jpg"]) None (Some ["c%d.jpg"]))
       "/tmp/x%d.jpg" "/tmp/x%d-small.jpg" "/tmp/x%d-large.jpg" 2
     = Some ([], Some (errorString msg))) /\
  (exists msg,
     uploadAllJPEGsToS3 0 (sampleEnv "2") sampleFiles
       (requestWith (Some ["a%d.jpg"]) (Some ["b%d.jpg"]) (Some ["c%d.jpg"; "d%d.jpg"]))
       "/tmp/x%d.jpg" "/tmp/x%d-small.jpg" "/tmp/x%d-large.jpg" 2
     = Some ([], Some (errorString msg))) /\
  (exists msg,
     uploadAllJPEGsToS3 0 (sampleEnv "2") sampleFiles
       (requestWith (Some ["a.jpg"]) (Some ["b%d.jpg"]) (Some ["c%d.jpg"]))
       "/tmp/x%d.jpg" "/tmp/x%d-small.jpg" "/tmp/x%d-large.jpg" 2
     = Some ([], Some (errorString msg))).
Proof.
  split; [|split]; apply C5_validation_rejects.
  - right; left. vm_compute. exact I.
  - right; right. vm_compute. left. discriminate.
  - left. vm_compute. right. exists "a.jpg"%string. split; reflexivity.
Defined.

(** ** Page counting *)

(** C7 (amended): getNumPages returns the error of a failed rasterizer
    invocation; otherwise it strips the line feeds (and nothing else)
    around the output and parses the rest as a decimal machine integer:
    the decimal form of any machine integer, surrounded by any number
    of line feeds, is read back as that integer, and an output that
    does not parse yields the parser's error.  An error of getNumPages
    ends the request with that error, before any conversion or upload
    worker is started. *)
Theorem C7_page_counting (env : Env) (pdfPath : string) :
  (forall err, cmd_Output env (pageCountCommand pdfPath) = Err err ->
     getNumPages env pdfPath = Err err) /\
  (forall out, cmd_Output env (pageCountCommand pdfPath) = Ok out ->
     getNumPages env pdfPath = strconv.ParseInt (strings.Trim out LF)) /\
  (forall n before after, Int.in_range n ->
     cmd_Output env (pageCountCommand pdfPath)
       = Ok (lineFeeds before +:+ strconv.Itoa n +:+ lineFeeds after) ->
     getNumPages env pdfPath = Ok n) /\
  (forall fuel request bucketName err,
     Method request = "POST" -> EnvAuth env = None ->
     fetchPDF env request = Ok pdfPath ->
     getNumPages env pdfPath = Err err ->
     convert fuel env request bucketName = Some (handleError err [] [])).
Proof.
  repeat split.
  - unfold getNumPages. fold (pageCountCommand pdfPath). now intros err ->.
  - unfold getNumPages. fold (pageCountCommand pdfPath).
    intros out ->. now destruct (strconv.ParseInt _).
  - unfold getNumPages. fold (pageCountCommand pdfPath).
    intros n a b Hn ->. rewrite Trim_Itoa by exact Hn.
    now rewrite ParseInt_Itoa by exact Hn.
  - intros fuel request bucketName err HM HA HF HN.
    unfold convert, connectToS3, convertPDFToJPEGs.
    rewrite HM, HA, HF, String.eqb_refl. cbn [negb].
    destruct (scratchPaths _) as [[jp sp] lp]. now rewrite HN.
Qed.

Lemma C7_page_counting_witness :
  getNumPages (sampleEnv (LF +:+ "-17" +:+ LF +:+ LF)) "/tmp/doc.pdf" = Ok (-17) /\
  convert 0 (sampleEnv "six") sampleRequest "scoryst" =
    Some (handleError (NumError "ParseInt" "six" strconv.ErrSyntax) [] []).
Proof.
  split.
  - destruct (C7_page_counting (sampleEnv (LF +:+ "-17" +:+ LF +:+ LF)) "/tmp/doc.pdf")
      as (_ & _ & H & _).
    apply (H (-17) 1%nat 2%nat); [vm_compute; split; discriminate | reflexivity].
  - destruct (C7_page_counting (sampleEnv "six")
                "/tmp/abcdefghijklmnopqrstuvwxyz0123456789abcdefghijklmn.pdf")
      as (_ & _ & _ & H).
    apply H; reflexivity.
Defined.

(** C7 fails as stated: carriage return is white space, yet an output
    "6" + CR + LF is not read as 6 (the specified behaviour, white
    space trimmed, would give 6). *)
Lemma C7_counterexample :
  cmd_Output envCRLF (pageCountCommand "/tmp/doc.pdf") = Ok ("6" +:+ CR +:+ LF) /\
  countPages_spec envCRLF "/tmp/doc.pdf" = Ok 6 /\
  getNumPages envCRLF "/tmp/doc.pdf" =
    Err (NumError "ParseInt" ("6" +:+ CR) strconv.ErrSyntax).
Proof. repeat split. Qed.

(** ** Scratch paths *)

Lemma alphaNumeric_noPercent i c :
  String.get i ALPHA_NUMERIC = Some c -> Ascii.eqb c "%" = false.
Proof.
  unfold ALPHA_NUMERIC.
  do 36 (destruct i as [|i]; [intros [= <-]; reflexivity|]).
  discriminate.
Qed.

Lemma noPercent_generateRandomString length random :
  noPercent (generateRandomString length random) = true.
Proof.
  unfold generateRandomString. generalize (seq 0 length) as l.
  induction l as [|i l IH]; [reflexivity|].
  cbn [map string_of_list_ascii noPercent]. rewrite IH, andb_true_r.
  apply negb_true_iff.
  destruct (String.get _ ALPHA_NUMERIC) as [c|] eqn:Hget; [|reflexivity].
  exact (alphaNumeric_noPercent _ _ Hget).
Qed.

(** ** Path templates *)

(** C8 (amended): for a template whose only [%] is that of one
    placeholder [%d], two distinct page numbers (machine integers)
    resolve to two distinct paths, and the template passes validation. *)
Theorem C8_substitution_injective (pre post : string) (page1 page2 : Z) :
  noPercent pre = true -> noPercent post = true ->
  Int.in_range page1 -> Int.in_range page2 -> page1 <> page2 ->
  strings.Contains (pre +:+ "%d" +:+ post) "%d" = true /\
  fmt.Sprintf (pre +:+ "%d" +:+ post) [fmt.Int page1] <>
  fmt.Sprintf (pre +:+ "%d" +:+ post) [fmt.Int page2].
Proof.
  intros Hpre Hpost H1 H2 Hne. split; [apply Contains_append|].
  rewrite !Sprintf_placeholder by assumption.
  intros Heq. apply append_inv_l, append_inv_r in Heq.
  apply Hne. now apply Itoa_inj.
Qed.

Lemma C8_substitution_injective_witness :
  strings.Contains ("split-pages/page" +:+ "%d" +:+ ".jpg") "%d" = true /\
  fmt.Sprintf ("split-pages/page" +:+ "%d" +:+ ".jpg") [fmt.Int 1] <>
  fmt.Sprintf ("split-pages/page" +:+ "%d" +:+ ".jpg") [fmt.Int 12].
Proof.
  apply (C8_substitution_injective "split-pages/page" ".jpg" 1 12);
    try reflexivity; try (vm_compute; split; discriminate); lia.
Defined.

(** C8 fails as stated: the template "%T%d" contains "%d" and passes
    validation, but [%T] consumes the page number and prints its type,
    so that every page resolves to the same path. *)
Lemma C8_counterexample :
  strings.Contains "%T%d" "%d" = true /\
  remoteTemplates (requestWith (Some ["%T%d"]) (Some ["s%d"]) (Some ["l%d"]))
    "%T%d" "s%d" "l%d" /\
  1 <> 2 /\
  fmt.Sprintf "%T%d" [fmt.Int 1] = "int%!d(MISSING)" /\
  fmt.Sprintf "%T%d" [fmt.Int 2] = "int%!d(MISSING)".
Proof. repeat split; try reflexivity. lia. Qed.

(** C6 (amended): for a normal template whose only [%] is that of its
    single placeholder [%d], the earlier revision derives both the
    local and the remote variant templates by inserting "-small" or
    "-large" right after the placeholder, and the page number is
    substituted afterwards; server.go builds its local templates in the
    same shape.  (The remote variant templates of server.go are the
    caller's own form fields.) *)
Theorem C6_variant_templates (pre post : string) (page : Z) :
  noPercent pre = true -> noPercent post = true ->
  let template := pre +:+ "%d" +:+ post in
  Earlier.smallOf template = pre +:+ "%d-small" +:+ post /\
  Earlier.largeOf template = pre +:+ "%d-large" +:+ post /\
  fmt.Sprintf (Earlier.smallOf template) [fmt.Int page]
    = pre +:+ strconv.Itoa page +:+ "-small" +:+ post /\
  fmt.Sprintf (Earlier.largeOf template) [fmt.Int page]
    = pre +:+ strconv.Itoa page +:+ "-large" +:+ post /\
  (forall length random,
     let jpegPrefix := generateRandomString length random in
     let jpegPath := "/tmp/" +:+ jpegPrefix +:+ "%d.jpg" in
     scratchPaths jpegPrefix
       = (jpegPath, Earlier.smallOf jpegPath, Earlier.largeOf jpegPath)).
Proof.
  intros Hpre Hpost template. unfold Earlier.smallOf, Earlier.largeOf, template.
  rewrite !Replace_1_placeholder by assumption.
  split; [reflexivity|]. split; [reflexivity|].
  assert (Hs : forall suffix, noPercent suffix = true ->
            fmt.Sprintf (pre +:+ ("%d" +:+ suffix) +:+ post) [fmt.Int page]
            = pre +:+ strconv.Itoa page +:+ suffix +:+ post).
  { intros suffix Hsuf. rewrite (append_assoc "%d" suffix post).
    apply Sprintf_placeholder; [assumption|].
    rewrite noPercent_append, Hsuf, Hpost. reflexivity. }
  split; [apply (Hs "-small"%string eq_refl)|].
  split; [apply (Hs "-large"%string eq_refl)|].
  intros length random. rewrite scratchPaths_eq.
  set (jpegPrefix := generateRandomString length random).
  change ("/tmp/" +:+ jpegPrefix +:+ "%d.jpg")
    with ("/tmp/" +:+ jpegPrefix +:+ "%d" +:+ ".jpg").
  rewrite <- (append_assoc "/tmp/" jpegPrefix).
  rewrite !Replace_1_placeholder
    by (rewrite noPercent_append; apply noPercent_generateRandomString).
  rewrite !append_assoc. reflexivity.
Qed.

Lemma C6_variant_templates_witness :
  Earlier.smallOf "page%d.jpg" = "page%d-small.jpg" /\
  Earlier.largeOf "page%d.jpg" = "page%d-large.jpg" /\
  fmt.Sprintf (Earlier.smallOf "page%d.jpg") [fmt.Int 3] = "page3-small.jpg" /\
  fmt.Sprintf (Earlier.largeOf "page%d.jpg") [fmt.Int 3] = "page3-large.jpg".
Proof.
  destruct (C6_variant_templates "page" ".jpg" 3 eq_refl eq_refl)
    as (H1 & H2 & H3 & H4 & _).
  repeat split; assumption.
Defined.

(** C6 fails as stated for the remote targets of server.go: a request
    whose small and large templates are unrelated to the normal one is
    accepted and its pages are stored under them. *)
Lemma C6_counterexample :
  uploadAllJPEGsToS3 3 (sampleEnv "1") sampleFiles
    (requestWith (Some ["page%d.jpg"]) (Some ["thumb%d.png"]) (Some ["raw/%d"]))
    "/tmp/x%d.jpg" "/tmp/x%d-small.jpg" "/tmp/x%d-large.jpg" 1
  = Some ([[Put "page1.jpg" "/tmp/x1.jpg" None;
            Put "thumb1.png" "/tmp/x1-small.jpg" None;
            Put "raw/1" "/tmp/x1-large.jpg" None]], None) /\
  "thumb1.png"%string <> fmt.Sprintf (Earlier.smallOf "page%d.jpg") [fmt.Int 1] /\
  "raw/1"%string <> fmt.Sprintf (Earlier.largeOf "page%d.jpg") [fmt.Int 1].
Proof. repeat split; try (vm_compute; reflexivity); vm_compute; discriminate. Qed.

(** Without the condition on [%] the derivation of the earlier revision
    can miss the placeholder: in "a%%d%d.jpg", which contains "%d" and
    is accepted, the first "%d" of the text belongs to the escaped
    percent sign, and the suffix lands there instead of after the page
    number. *)
Example Earlier_escaped_percent :
  strings.Contains "a%%d%d.jpg" "%d" = true /\
  Earlier.smallOf "a%%d%d.jpg" = "a%%d-small%d.jpg"%string /\
  fmt.Sprintf "a%%d%d.jpg" [fmt.Int 3] = "a%d3.jpg"%string /\
  fmt.Sprintf (Earlier.smallOf "a%%d%d.jpg") [fmt.Int 3] = "a%d-small3.jpg"%string.
Proof. repeat split. Qed.

(** ** The workers *)

Lemma uploadJPEGToS3_ok env files jpegPath s3JPEGPath pageNum :
  fileExists (fmt.Sprintf jpegPath [fmt.Int pageNum]) files = true ->
  (forall remote local, PutReader env remote local = None) ->
  uploadJPEGToS3 env files jpegPath s3JPEGPath pageNum =
    ([Put (fmt.Sprintf s3JPEGPath [fmt.Int pageNum])
          (fmt.Sprintf jpegPath [fmt.Int pageNum]) None], None).
Proof.
  intros Hfile Hput. unfold uploadJPEGToS3, os_Open. now rewrite Hfile, Hput.
Qed.

Lemma upload_worker_ok env files jp sp lp tn ts tl :
  (forall remote local, PutReader env remote local = None) ->
  forall (len : nat) (a : Z),
    Int.MinInt <= a -> a + Z.of_nat len <= Int.MaxInt ->
    (forall p, a <= p < a + Z.of_nat len ->
       fileExists (fmt.Sprintf jp [fmt.Int p]) files = true /\
       fileExists (fmt.Sprintf sp [fmt.Int p]) files = true /\
       fileExists (fmt.Sprintf lp [fmt.Int p]) files = true) ->
    forall fuel, (len < fuel)%nat ->
      uploadJPEGRangeToS3 fuel env files jp sp lp tn ts tl a (a + Z.of_nat len - 1) =
        Some (flat_map (pagePuts jp sp lp tn ts tl) (seqZ a (Z.of_nat len)), None).
Proof.
  intros Hput. unfold uploadJPEGRangeToS3.
  induction len as [|len IH]; intros a Hmin Hmax Hfiles [|fuel] Hfuel; try lia.
  - cbn [uploadJPEGRangeToS3_from]. destruct (Z.leb_spec a (a + Z.of_nat 0 - 1)); [lia|].
    reflexivity.
  - cbn [uploadJPEGRangeToS3_from].
    destruct (Z.leb_spec a (a + Z.of_nat (S len) - 1)); [|lia].
    destruct (Hfiles a ltac:(lia)) as (F1 & F2 & F3).
    rewrite !uploadJPEGToS3_ok by assumption.
    unfold Int.add. rewrite wrap_id by (unfold Int.MaxInt in *; lia).
    replace (a + Z.of_nat (S len) - 1) with (a + 1 + Z.of_nat len - 1) by lia.
    rewrite IH; [| lia | lia | intros p Hp; apply Hfiles; lia | lia].
    rewrite (seqZ_cons a (Z.of_nat (S len))) by lia.
    replace (Z.pred (Z.of_nat (S len))) with (Z.of_nat len) by lia.
    replace (Z.succ a) with (a + 1) by lia. reflexivity.
Qed.

Lemma resizeAndSaveImage_ok env src dst w h :
  (forall argv, cmd_Run env argv = None) ->
  resizeAndSaveImage env src dst w h = (Exec (resizeCommand src dst w h) None, None).
Proof. intros Hrun. unfold resizeAndSaveImage. fold (resizeCommand src dst w h). now rewrite Hrun. Qed.

Lemma convert_worker_ok env pdf jp sp lp :
  (forall argv, cmd_Run env argv = None) ->
  forall (len : nat) (a : Z),
    Int.MinInt <= a -> a + Z.of_nat len <= Int.MaxInt ->
    forall fuel, (len < fuel)%nat ->
      convertPagesToJPEGs fuel env pdf jp sp lp a (a + Z.of_nat len - 1) =
        Some (flat_map (pageExecs pdf jp sp lp) (seqZ a (Z.of_nat len)),
              flat_map (pageFiles jp sp lp) (seqZ a (Z.of_nat len))).
Proof.
  intros Hrun. unfold convertPagesToJPEGs.
  induction len as [|len IH]; intros a Hmin Hmax [|fuel] Hfuel; try lia.
  - cbn [convertPagesToJPEGs_from]. destruct (Z.leb_spec a (a + Z.of_nat 0 - 1)); [lia|].
    reflexivity.
  - cbn [convertPagesToJPEGs_from].
    destruct (Z.leb_spec a (a + Z.of_nat (S len) - 1)); [|lia].
    fold (gsCommand pdf lp a). rewrite Hrun.
    rewrite !resizeAndSaveImage_ok by assumption.
    unfold Int.add. rewrite wrap_id by (unfold Int.MaxInt in *; lia).
    replace (a + Z.of_nat (S len) - 1) with (a + 1 + Z.of_nat len - 1) by lia.
    rewrite IH; [| lia | lia | lia].
    rewrite (seqZ_cons a (Z.of_nat (S len))) by lia.
    replace (Z.pred (Z.of_nat (S len))) with (Z.of_nat len) by lia.
    replace (Z.succ a) with (a + 1) by lia. reflexivity.
Qed.

(** A failing rasterizer run is logged and ends the worker at once. *)
Lemma rasterizer_failure_stops_worker fuel env pdf jp sp lp a b err :
  a <= b -> cmd_Run env (gsCommand pdf lp a) = Some err ->
  convertPagesToJPEGs (S fuel) env pdf jp sp lp a b =
    Some ([Exec (gsCommand pdf lp a) (Some err);
           Printf ("gs command failed: %s" +:+ LF) (Some err)], []).
Proof.
  intros Hab Herr. unfold convertPagesToJPEGs. cbn [convertPagesToJPEGs_from].
  destruct (Z.leb_spec a b); [|lia]. fold (gsCommand pdf lp a). now rewrite Herr.
Qed.

(** Whatever the resizer runs return, a worker whose rasterizer runs
    succeed prints nothing and rasterizes every page of its range. *)
Lemma resizer_outcome_ignored env pdf jp sp lp :
  (forall p, cmd_Run env (gsCommand pdf lp p) = None) ->
  forall (len : nat) (a : Z),
    Int.MinInt <= a -> a + Z.of_nat len <= Int.MaxInt ->
    forall fuel, (len < fuel)%nat ->
    exists evs files,
      convertPagesToJPEGs fuel env pdf jp sp lp a (a + Z.of_nat len - 1)
        = Some (evs, files) /\
      existsb isPrintf evs = false /\
      forall p, a <= p < a + Z.of_nat len -> In (Exec (gsCommand pdf lp p) None) evs.
Proof.
  intros Hgs. unfold convertPagesToJPEGs.
  induction len as [|len IH]; intros a Hmin Hmax [|fuel] Hfuel; try lia.
  - exists [], []. cbn [convertPagesToJPEGs_from].
    destruct (Z.leb_spec a (a + Z.of_nat 0 - 1)); [lia|].
    repeat split; auto. intros p Hp. lia.
  - cbn [convertPagesToJPEGs_from].
    destruct (Z.leb_spec a (a + Z.of_nat (S len) - 1)); [|lia].
    fold (gsCommand pdf lp a). rewrite Hgs.
    unfold resizeAndSaveImage. cbv zeta.
    unfold Int.add. rewrite wrap_id by (unfold Int.MaxInt in *; lia).
    replace (a + Z.of_nat (S len) - 1) with (a + 1 + Z.of_nat len - 1) by lia.
    destruct (IH (a + 1) ltac:(lia) ltac:(lia) fuel ltac:(lia))
      as (evs & files & -> & Hlog & Hall).
    eexists _, _. split; [reflexivity|]. split.
    + cbn [existsb isPrintf orb]. exact Hlog.
    + intros p Hp. destruct (Z.eq_dec p a) as [->|Hne].
      * left. reflexivity.
      * right. right. right. apply Hall. lia.
Qed.

(** Once the workers have joined, the conversion coordinator returns
    the page count, whatever the workers did. *)
Lemma coordinator_returns_page_count fuel env pdf jp sp lp n workers r :
  getNumPages env pdf = Ok n ->
  convertPDFToJPEGs fuel env pdf jp sp lp = Some (workers, r) -> r = Ok n.
Proof.
  unfold convertPDFToJPEGs. intros ->.
  destruct (spawnWorkers _ _ _ _ _); [|discriminate]. now intros [= _ <-].
Qed.

Lemma runWorkers_map {W : Type} (worker : Z -> Z -> option W) (g : Z * Z -> W) rs :
  (forall a b, (a, b) ∈ rs -> worker a b = Some (g (a, b))) ->
  runWorkers worker rs = Some (map g rs).
Proof.
  induction rs as [|[a b] rs IH]; intros H; [reflexivity|].
  cbn [runWorkers map]. rewrite H by apply list_elem_of_here.
  rewrite IH; [reflexivity|]. intros x y Hin. apply H. now apply list_elem_of_further.
Qed.

Lemma concat_flat_map_pages {A : Type} (F : Z -> list A) rs :
  concat (map (fun r => flat_map F (pagesOf r)) rs) = flat_map F (concat (map pagesOf rs)).
Proof.
  induction rs as [|r rs IH]; [reflexivity|].
  cbn [map concat]. now rewrite flat_map_app, IH.
Qed.

Lemma fileExists_In path files : In path files -> fileExists path files = true.
Proof.
  intros H. unfold fileExists. apply existsb_exists. exists path.
  split; [assumption | apply String.eqb_refl].
Qed.

Lemma storeWrites_pagePuts jp sp lp tn ts tl pages :
  storeWrites (flat_map (pagePuts jp sp lp tn ts tl) pages) =
  flat_map (pageWrites tn ts tl) pages.
Proof.
  induction pages as [|p pages IH]; [reflexivity|].
  cbn [flat_map]. unfold storeWrites in *. rewrite omap_app, IH. reflexivity.
Qed.

Lemma Forall_pagePuts jp sp lp tn ts tl pages :
  Forall (fun ev => exists remote local, ev = Put remote local None)
         (flat_map (pagePuts jp sp lp tn ts tl) pages).
Proof.
  induction pages as [|p pages IH]; [constructor|].
  cbn [flat_map]. apply Forall_app. split; [|exact IH].
  unfold pagePuts. repeat constructor; eauto.
Qed.

Lemma length_flat_map_3 {A B : Type} (F : A -> list B) l :
  (forall x, length (F x) = 3%nat) -> length (flat_map F l) = (3 * length l)%nat.
Proof.
  intros H. induction l as [|x l IH]; [reflexivity|].
  cbn [flat_map]. rewrite length_app, H, IH. simpl. lia.
Qed.

Lemma uploadAll_valid fuel env files request jp sp lp numPages tn ts tl :
  remoteTemplates request tn ts tl ->
  uploadAllJPEGsToS3 fuel env files request jp sp lp numPages =
    match spawnWorkers fuel (uploadJPEGRangeToS3 fuel env files jp sp lp tn ts tl)
            numPages (numPagesPerWorker numPages NUM_WORKERS_UPLOAD) 1 with
    | None => None
    | Some workers => Some (map fst workers, None)
    end.
Proof.
  intros (H1 & H2 & H3 & C1 & C2 & C3).
  unfold uploadAllJPEGsToS3, lookupForm. rewrite H1, H2, H3.
  cbn [length Nat.eqb negb hd]. rewrite C1, C2, C3. reflexivity.
Qed.

Lemma pageRanges_run {W : Type} fuel (worker : Z -> Z -> option W) total w rs :
  pageRanges fuel total w = Some rs ->
  spawnWorkers fuel worker total (numPagesPerWorker total w) 1 = runWorkers worker rs.
Proof.
  unfold pageRanges. fold pair_range. intros H.
  now rewrite spawnWorkers_ranges, H.
Qed.

Lemma convert_worker_range env pdf jp sp lp fuel a b :
  (forall argv, cmd_Run env argv = None) ->
  Int.MinInt <= a -> a <= b -> b < Int.MaxInt ->
  (Z.to_nat (b - a + 1) < fuel)%nat ->
  convertPagesToJPEGs fuel env pdf jp sp lp a b =
    Some (flat_map (pageExecs pdf jp sp lp) (pagesOf (a, b)),
          flat_map (pageFiles jp sp lp) (pagesOf (a, b))).
Proof.
  intros Hrun Hmin Hab Hmax Hfuel.
  assert (exists len : nat, b = a + Z.of_nat len - 1) as [len ->].
  { exists (Z.to_nat (b - a + 1)). lia. }
  unfold pagesOf. cbn [fst snd].
  replace (a + Z.of_nat len - 1 - a + 1) with (Z.of_nat len) in * by lia.
  apply convert_worker_ok; [assumption | lia | lia | lia].
Qed.

Lemma upload_worker_range env files jp sp lp tn ts tl fuel a b :
  (forall remote local, PutReader env remote local = None) ->
  Int.MinInt <= a -> a <= b -> b < Int.MaxInt ->
  (forall p, a <= p <= b ->
     fileExists (fmt.Sprintf jp [fmt.Int p]) files = true /\
     fileExists (fmt.Sprintf sp [fmt.Int p]) files = true /\
     fileExists (fmt.Sprintf lp [fmt.Int p]) files = true) ->
  (Z.to_nat (b - a + 1) < fuel)%nat ->
  uploadJPEGRangeToS3 fuel env files jp sp lp tn ts tl a b =
    Some (flat_map (pagePuts jp sp lp tn ts tl) (pagesOf (a, b)), None).
Proof.
  intros Hput Hmin Hab Hmax Hfiles Hfuel.
  assert (exists len : nat, b = a + Z.of_nat len - 1) as [len ->].
  { exists (Z.to_nat (b - a + 1)). lia. }
  unfold pagesOf. cbn [fst snd].
  replace (a + Z.of_nat len - 1 - a + 1) with (Z.of_nat len) in * by lia.
  apply upload_worker_ok; [assumption | lia | lia | | lia].
  intros p Hp. apply Hfiles. lia.
Qed.

Lemma chain_length rs : forall f l, chain f rs l -> Z.of_nat (length rs) <= l - f + 1.
Proof.
  induction rs as [|[x y] rs IH]; intros f l Hc; simpl in Hc.
  - subst l. simpl. lia.
  - destruct Hc as (<- & Hxy & Hc). apply IH in Hc. cbn [length]. lia.
Qed.

(** ** Whole requests *)

(** C1 (amended): for a document of N >= 1 pages whose page count
    keeps both spawning loops within the machine integers (as every
    N <= 2^53 does, see [loopInRange_small]), a POST request whose PDF
    is fetched, whose three remote templates pass validation, and for
    which page counting, every rasterizer and resizer run and every
    store write succeed, is answered "Done" after exactly 3N store
    writes: for each page 1..N, in turn, the normal, the small and the
    large template with that page number. *)
Theorem C1_successful_run
    (env : Env) (request : Request) (bucketName pdfPath : string) (N : Z)
    (normal small large : string) :
  1 <= N ->
  loopInRange N NUM_WORKERS_CONVERT -> loopInRange N NUM_WORKERS_UPLOAD ->
  Method request = "POST" -> EnvAuth env = None ->
  fetchPDF env request = Ok pdfPath ->
  remoteTemplates request normal small large ->
  getNumPages env pdfPath = Ok N ->
  (forall argv, cmd_Run env argv = None) ->
  (forall remote local, PutReader env remote local = None) ->
  exists out,
    (forall fuel, (Z.to_nat N + 1 < fuel)%nat ->
       convert fuel env request bucketName = Some out) /\
    response out = Fprintf ("Done" +:+ LF) /\
    storeWrites (concat (uploaded out)) =
      flat_map (pageWrites normal small large) (seqZ 1 N) /\
    Forall (fun ev => exists remote local, ev = Put remote local None)
           (concat (uploaded out)) /\
    Z.of_nat (length (storeWrites (concat (uploaded out)))) = 3 * N.
Proof.
  intros HN HL2 HL10 HM HA HF HT HP Hrun Hput.
  destruct (scratchPaths (generateRandomString 50 (rand_Read env 1)))
    as [[jp sp] lp] eqn:Hpaths.
  destruct (pageRanges_chain N NUM_WORKERS_CONVERT HN HL2) as (rs2 & Hchain2 & Hrun2).
  destruct (pageRanges_chain N NUM_WORKERS_UPLOAD HN HL10) as (rs10 & Hchain10 & Hrun10).
  assert (HNmax : N < Int.MaxInt) by (destruct HL2; lia).
  pose proof (chain_length rs2 1 N Hchain2) as Hn2.
  pose proof (chain_length rs10 1 N Hchain10) as Hn10.
  set (convertedW := map (fun r => (flat_map (pageExecs pdfPath jp sp lp) (pagesOf r),
                                   flat_map (pageFiles jp sp lp) (pagesOf r))) rs2).
  set (files := files0 env ++ pdfPath :: concat (map snd convertedW)).
  set (uploadedW := map (fun r => flat_map (pagePuts jp sp lp normal small large)
                                   (pagesOf r)) rs10).
  assert (Hfiles : concat (map snd convertedW) = flat_map (pageFiles jp sp lp) (seqZ 1 N)).
  { unfold convertedW. rewrite map_map. cbn [snd].
    rewrite concat_flat_map_pages, (chain_pages rs2 1 N Hchain2). do 2 f_equal. lia. }
  assert (Hexists : forall p, 1 <= p <= N ->
            fileExists (fmt.Sprintf jp [fmt.Int p]) files = true /\
            fileExists (fmt.Sprintf sp [fmt.Int p]) files = true /\
            fileExists (fmt.Sprintf lp [fmt.Int p]) files = true).
  { intros p Hp.
    assert (Hin : forall path, In path (pageFiles jp sp lp p) -> In path files).
    { intros path Hpath. unfold files. apply in_or_app. right. right.
      rewrite Hfiles. apply in_flat_map. exists p. split; [|exact Hpath].
      apply list_elem_of_In, elem_of_seqZ. lia. }
    repeat split; apply fileExists_In, Hin; unfold pageFiles; simpl; auto. }
  assert (Hupl : concat uploadedW = flat_map (pagePuts jp sp lp normal small large) (seqZ 1 N)).
  { unfold uploadedW. rewrite concat_flat_map_pages, (chain_pages rs10 1 N Hchain10).
    do 2 f_equal. lia. }
  exists {| response := Fprintf ("Done" +:+ LF);
            printed := [Printf ("Conversion finished" +:+ LF) None];
            converted := convertedW; uploaded := uploadedW |}.
  split; [|split; [reflexivity|split; [|split]]].
  - intros fuel Hfuel. unfold convert, connectToS3.
    rewrite HM, HA, HF, String.eqb_refl, Hpaths. cbn [negb].
    unfold convertPDFToJPEGs. rewrite HP.
    rewrite (pageRanges_run fuel _ N NUM_WORKERS_CONVERT rs2) by (apply Hrun2; lia).
    rewrite (runWorkers_map _
               (fun r => (flat_map (pageExecs pdfPath jp sp lp) (pagesOf r),
                          flat_map (pageFiles jp sp lp) (pagesOf r)))).
    2:{ intros a b Hin.
        destruct (chain_bounds rs2 1 N a b Hchain2 Hin) as (Ha & Hab & Hb).
        apply convert_worker_range; try assumption;
          unfold Int.MinInt; lia. }
    fold convertedW. fold files.
    rewrite (uploadAll_valid fuel env files request jp sp lp N normal small large HT).
    rewrite (pageRanges_run fuel _ N NUM_WORKERS_UPLOAD rs10) by (apply Hrun10; lia).
    rewrite (runWorkers_map _
               (fun r => (flat_map (pagePuts jp sp lp normal small large) (pagesOf r),
                          @None error))).
    2:{ intros a b Hin.
        destruct (chain_bounds rs10 1 N a b Hchain10 Hin) as (Ha & Hab & Hb).
        apply upload_worker_range; try assumption;
          try (unfold Int.MinInt; lia).
        intros p Hp. apply Hexists. lia. }
    rewrite map_map. cbn [fst]. reflexivity.
  - cbn [uploaded]. rewrite Hupl. apply storeWrites_pagePuts.
  - cbn [uploaded]. rewrite Hupl. apply Forall_pagePuts.
  - cbn [uploaded]. rewrite Hupl, storeWrites_pagePuts.
    rewrite (length_flat_map_3 (pageWrites normal small large) _ (fun _ => eq_refl)).
    rewrite length_seqZ. lia.
Qed.

Lemma C1_successful_run_witness :
  exists out,
    (forall fuel, (Z.to_nat 2 + 1 < fuel)%nat ->
       convert fuel (sampleEnv ("2" +:+ LF)) sampleRequest "scoryst" = Some out) /\
    response out = Fprintf ("Done" +:+ LF) /\
    storeWrites (concat (uploaded out)) =
      flat_map (pageWrites "split-pages/page%d.jpg" "split-pages/page%d-small.jpg"
                  "split-pages/page%d-large.jpg") (seqZ 1 2) /\
    Forall (fun ev => exists remote local, ev = Put remote local None)
           (concat (uploaded out)) /\
    Z.of_nat (length (storeWrites (concat (uploaded out)))) = 3 * 2.
Proof.
  apply (C1_successful_run (sampleEnv ("2" +:+ LF)) sampleRequest "scoryst"
           "/tmp/abcdefghijklmnopqrstuvwxyz0123456789abcdefghijklmn.pdf" 2);
    try reflexivity; try lia; try (vm_compute; split; [discriminate | discriminate]).
  repeat split; reflexivity.
Defined.

Lemma spawnWorkers_MaxInt {W : Type} fuel (worker : Z -> Z -> option W) p f :
  spawnWorkers fuel worker Int.MaxInt p (Int.wrap f) = None.
Proof.
  revert f. induction fuel as [|fuel IH]; intros f; [reflexivity|].
  cbn [spawnWorkers]. pose proof (wrap_range f) as Hr.
  destruct (Z.leb_spec (Int.wrap f) Int.MaxInt); [|lia].
  unfold Int.add. rewrite IH. now destruct (worker _ _).
Qed.

(** C1 fails as stated: for a document reported to have 2^63 - 1 pages
    the spawning loop of the conversion coordinator never ends (the
    start page wraps around and never exceeds the page count), so that
    the request is never answered and nothing is uploaded. *)
Lemma C1_counterexample :
  getNumPages (sampleEnv "9223372036854775807")
    "/tmp/abcdefghijklmnopqrstuvwxyz0123456789abcdefghijklmn.pdf" = Ok (2 ^ 63 - 1) /\
  forall fuel,
    convert fuel (sampleEnv "9223372036854775807") sampleRequest "scoryst" = None.
Proof.
  split; [reflexivity|]. intros fuel.
  unfold convert.
  change (negb (Method sampleRequest =? "POST")%string) with false. cbv iota.
  change (connectToS3 (sampleEnv "9223372036854775807") "scoryst") with (@Ok string "scoryst").
  cbv iota.
  change (fetchPDF (sampleEnv "9223372036854775807") sampleRequest)
    with (@Ok string "/tmp/abcdefghijklmnopqrstuvwxyz0123456789abcdefghijklmn.pdf").
  cbv iota.
  destruct (scratchPaths _) as [[jp sp] lp].
  unfold convertPDFToJPEGs.
  change (getNumPages (sampleEnv "9223372036854775807")
            "/tmp/abcdefghijklmnopqrstuvwxyz0123456789abcdefghijklmn.pdf")
    with (@Ok Z Int.MaxInt).
  cbv iota. change 1 with (Int.wrap 1) at 1. now rewrite spawnWorkers_MaxInt.
Qed.

(** C10: when page counting returns numPages <= 0, for a request
    that reaches the two coordinators with its three remote templates
    in order, both coordinators start no worker, so that nothing is
    converted and nothing is written to the store, both return without
    error, and the request is answered "Done". *)
Theorem C10_nonpositive_page_count
    (fuel : nat) (env : Env) (request : Request) (bucketName pdfPath : string)
    (numPages : Z) (normal small large : string) :
  numPages <= 0 ->
  Method request = "POST" -> EnvAuth env = None ->
  fetchPDF env request = Ok pdfPath ->
  getNumPages env pdfPath = Ok numPages ->
  remoteTemplates request normal small large ->
  (forall jp sp lp,
     convertPDFToJPEGs (S fuel) env pdfPath jp sp lp = Some ([], Ok numPages)) /\
  (forall files jp sp lp,
     uploadAllJPEGsToS3 (S fuel) env files request jp sp lp numPages = Some ([], None)) /\
  convert (S fuel) env request bucketName =
    Some {| response := Fprintf ("Done" +:+ LF);
            printed := [Printf ("Conversion finished" +:+ LF) None];
            converted := []; uploaded := [] |}.
Proof.
  intros Hn HM HA HF HP HT.
  assert (Hloop : forall (W : Type) (worker : Z -> Z -> option W) p,
            spawnWorkers (S fuel) worker numPages p 1 = Some []).
  { intros W worker p. cbn [spawnWorkers].
    destruct (Z.leb_spec 1 numPages); [lia | reflexivity]. }
  assert (Hconv : forall jp sp lp,
            convertPDFToJPEGs (S fuel) env pdfPath jp sp lp = Some ([], Ok numPages)).
  { intros jp sp lp. unfold convertPDFToJPEGs. now rewrite HP, Hloop. }
  assert (Hupl : forall files jp sp lp,
            uploadAllJPEGsToS3 (S fuel) env files request jp sp lp numPages
            = Some ([], None)).
  { intros files jp sp lp.
    rewrite (uploadAll_valid _ _ _ _ _ _ _ _ normal small large HT).
    now rewrite Hloop. }
  split; [exact Hconv|]. split; [exact Hupl|].
  unfold convert, connectToS3. rewrite HM, HA, HF, String.eqb_refl. cbn [negb].
  destruct (scratchPaths _) as [[jp sp] lp]. now rewrite Hconv, Hupl.
Qed.

Lemma C10_nonpositive_page_count_witness :
  getNumPages (sampleEnv ("-3" +:+ LF))
    "/tmp/abcdefghijklmnopqrstuvwxyz0123456789abcdefghijklmn.pdf" = Ok (-3) /\
  convert 1 (sampleEnv ("-3" +:+ LF)) sampleRequest "scoryst" =
    Some {| response := Fprintf ("Done" +:+ LF);
            printed := [Printf ("Conversion finished" +:+ LF) None];
            converted := []; uploaded := [] |}.
Proof.
  split; [reflexivity|].
  apply (C10_nonpositive_page_count 0 (sampleEnv ("-3" +:+ LF)) sampleRequest "scoryst"
           "/tmp/abcdefghijklmnopqrstuvwxyz0123456789abcdefghijklmn.pdf" (-3)
           "split-pages/page%d.jpg" "split-pages/page%d-small.jpg"
           "split-pages/page%d-large.jpg");
    try reflexivity; try lia.
  repeat split; reflexivity.
Defined.

(** C4, the code at the failing input: every run of the resizer fails,
    yet the worker for the pages 1..2 prints nothing and goes on to
    rasterize page 2; the coordinator returns the page count, and the
    request is answered "Done" although no page could be uploaded. *)
Theorem C4_resizer_failure_undetected :
  convertPagesToJPEGs 3 (envResizerFails "2") "/tmp/doc.pdf"
    "/tmp/x%d.jpg" "/tmp/x%d-small.jpg" "/tmp/x%d-large.jpg" 1 2
  = Some ([Exec (gsCommand "/tmp/doc.pdf" "/tmp/x%d-large.jpg" 1) None;
           Exec (resizeCommand "/tmp/x1-large.jpg" "/tmp/x1.jpg" 800 800)
                (Some (ExternalError "exit status 1"));
           Exec (resizeCommand "/tmp/x1.jpg" "/tmp/x1-small.jpg" 300 300)
                (Some (ExternalError "exit status 1"));
           Exec (gsCommand "/tmp/doc.pdf" "/tmp/x%d-large.jpg" 2) None;
           Exec (resizeCommand "/tmp/x2-large.jpg" "/tmp/x2.jpg" 800 800)
                (Some (ExternalError "exit status 1"));
           Exec (resizeCommand "/tmp/x2.jpg" "/tmp/x2-small.jpg" 300 300)
                (Some (ExternalError "exit status 1"))],
          ["/tmp/x1-large.jpg"; "/tmp/x2-large.jpg"]) /\
  (exists workers,
     convertPDFToJPEGs 3 (envResizerFails "2") "/tmp/doc.pdf"
       "/tmp/x%d.jpg" "/tmp/x%d-small.jpg" "/tmp/x%d-large.jpg" = Some (workers, Ok 2) /\
     existsb isPrintf (concat (map fst workers)) = false) /\
  (exists out,
     convert 3 (envResizerFails "2") sampleRequest "scoryst" = Some out /\
     response out = Fprintf ("Done" +:+ LF) /\
     storeWrites (concat (uploaded out)) = []).
Proof.
  split; [vm_compute; reflexivity|]. split.
  - eexists. split; [vm_compute; reflexivity|]. vm_compute. reflexivity.
  - eexists. split; [vm_compute; reflexivity|]. split; vm_compute; reflexivity.
Qed.

(** * Further properties of the code *)

(** ** Random names *)

Lemma get_inCutset s : forall i c, String.get i s = Some c -> strings.inCutset c s = true.
Proof.
  induction s as [|d s IH]; intros i c; [discriminate|].
  destruct i as [|i]; cbn [String.get strings.inCutset].
  - intros [= ->]. now rewrite Ascii.eqb_refl.
  - intros H. rewrite (IH _ _ H). apply orb_true_r.
Qed.

Lemma length_string_of_list_ascii l :
  String.length (string_of_list_ascii l) = length l.
Proof. induction l as [|c l IH]; [reflexivity|]. cbn. now rewrite IH. Qed.

Lemma length_generateRandomString (length : nat) (random : nat -> Z) :
  String.length (generateRandomString length random) = length.
Proof.
  unfold generateRandomString.
  now rewrite length_string_of_list_ascii, length_map, length_seq.
Qed.

Lemma allIn_generateRandomString (length : nat) (random : nat -> Z) :
  allIn (generateRandomString length random) ALPHA_NUMERIC = true.
Proof.
  unfold generateRandomString. generalize (seq 0 length) as l.
  induction l as [|i l IH]; [reflexivity|].
  cbn [map string_of_list_ascii allIn]. rewrite IH, andb_true_r.
  destruct (String.get _ ALPHA_NUMERIC) as [c|] eqn:Hget; [|reflexivity].
  exact (get_inCutset _ _ _ Hget).
Qed.

(** X1: whatever the random source delivers, [generateRandomString]
    returns a string of exactly the requested length, made only of the
    characters of [ALPHA_NUMERIC]. *)
Theorem X1_random_string_shape (length : nat) (random : nat -> Z) :
  String.length (generateRandomString length random) = length /\
  allIn (generateRandomString length random) ALPHA_NUMERIC = true.
Proof.
  split; [apply length_generateRandomString | apply allIn_generateRandomString].
Qed.

(** X2: the 256 byte values are not spread evenly over the 36
    characters: each of the first four characters of [ALPHA_NUMERIC]
    is produced by 8 byte values, each of the other 32 by 7. *)
Theorem X2_random_string_bias (i : nat) (c : ascii) :
  String.get i ALPHA_NUMERIC = Some c ->
  length (bytesFor c) = if (i <? 4)%nat then 8%nat else 7%nat.
Proof.
  unfold ALPHA_NUMERIC.
  do 36 (destruct i as [|i]; [intros [= <-]; vm_compute; reflexivity|]).
  discriminate.
Qed.

Lemma X2_random_string_bias_witness :
  length (bytesFor "a") = 8%nat /\ length (bytesFor "e") = 7%nat.
Proof.
  split.
  - apply (X2_random_string_bias 0 "a"). reflexivity.
  - apply (X2_random_string_bias 4 "e"). reflexivity.
Defined.

(** ** Fetching the PDF *)

(** X3: [fetchPDF] rejects a request before it touches the store or the
    file system: a form that cannot be parsed yields the parser's
    error, a form without [s3PDFPath] and a form with no value or
    several values for it yield the two messages of the code. *)
Theorem X3_fetchPDF_rejects (env : Env) (request : Request) :
  (forall err, ParseMultipartForm request = Some err ->
     fetchPDF env request = Err err) /\
  (ParseMultipartForm request = None ->
   Form request !! "s3PDFPath" = None ->
   fetchPDF env request =
     Err (errorString ("Must specify a PDF to convert in the 's3PDFPath' key." +:+ LF))) /\
  (forall values,
     ParseMultipartForm request = None ->
     Form request !! "s3PDFPath" = Some values -> length values <> 1%nat ->
     fetchPDF env request =
       Err (errorString
              ("Must specify exactly one S3 PDF path in 's3PDFPath' key." +:+ LF))).
Proof.
  unfold fetchPDF. repeat split.
  - now intros err ->.
  - intros -> H. now rewrite (lookupForm_None _ _ H).
  - intros values -> H Hlen. rewrite (lookupForm_Some _ _ _ H). cbn [negb].
    destruct (Nat.eqb_spec (length values) 1); [contradiction | reflexivity].
Qed.

Lemma X3_fetchPDF_rejects_witness :
  fetchPDF (sampleEnv "2")
    {| Method := "POST"; ParseMultipartForm := None; Form := ∅ |} =
    Err (errorString ("Must specify a PDF to convert in the 's3PDFPath' key." +:+ LF)) /\
  fetchPDF (sampleEnv "2")
    {| Method := "POST"; ParseMultipartForm := None;
       Form := {["s3PDFPath" := []]} |} =
    Err (errorString ("Must specify exactly one S3 PDF path in 's3PDFPath' key." +:+ LF)) /\
  fetchPDF (sampleEnv "2")
    {| Method := "POST"; ParseMultipartForm := None;
       Form := {["s3PDFPath" := ["a.pdf"; "b.pdf"]]} |} =
    Err (errorString ("Must specify exactly one S3 PDF path in 's3PDFPath' key." +:+ LF)).
Proof.
  split; [|split].
  - apply (X3_fetchPDF_rejects (sampleEnv "2")
             {| Method := "POST"; ParseMultipartForm := None; Form := ∅ |});
      reflexivity.
  - destruct (X3_fetchPDF_rejects (sampleEnv "2")
             {| Method := "POST"; ParseMultipartForm := None;
                Form := {["s3PDFPath" := []]} |}) as (_ & _ & H).
    apply (H []); [reflexivity | reflexivity | simpl; lia].
  - destruct (X3_fetchPDF_rejects (sampleEnv "2")
             {| Method := "POST"; ParseMultipartForm := None;
                Form := {["s3PDFPath" := ["a.pdf"; "b.pdf"]]} |}) as (_ & _ & H).
    apply (H ["a.pdf"; "b.pdf"]%string); [reflexivity | reflexivity | simpl; lia].
Defined.

(** X4: [fetchPDF] succeeds only for a form with exactly one
    [s3PDFPath] whose object the store delivers, and the path it
    returns is "/tmp/", 50 characters of [ALPHA_NUMERIC] and ".pdf". *)
Theorem X4_fetchPDF_success (env : Env) (request : Request) (pdfPath : string) :
  fetchPDF env request = Ok pdfPath ->
  (exists s3PDFPath,
     Form request !! "s3PDFPath" = Some [s3PDFPath] /\
     GetReader env s3PDFPath = None) /\
  (exists name,
     pdfPath = "/tmp/" +:+ name +:+ ".pdf" /\
     String.length name = 50%nat /\ allIn name ALPHA_NUMERIC = true) /\
  os_Create env pdfPath = None /\ io_Copy env pdfPath = None.
Proof.
  unfold fetchPDF, lookupForm.
  destruct (ParseMultipartForm request); [discriminate|].
  destruct (Form request !! "s3PDFPath") as [values|]; [|discriminate].
  cbn [negb].
  destruct (length values =? 1)%nat eqn:Hlen; [|discriminate].
  destruct (length_one _ Hlen) as [v ->]. cbn [negb hd].
  destruct (GetReader env v) eqn:Hget; [discriminate|].
  destruct (os_Create env _) eqn:Hcreate; [discriminate|].
  destruct (io_Copy env _) eqn:Hcopy; [discriminate|].
  intros [= <-]. split; [|split; [|split]]; try assumption.
  - exists v. split; [reflexivity | assumption].
  - exists (generateRandomString 50 (rand_Read env 0)).
    split; [reflexivity|].
    split; [apply length_generateRandomString | apply allIn_generateRandomString].
Qed.

Lemma X4_fetchPDF_success_witness :
  (exists s3PDFPath,
     Form sampleRequest !! "s3PDFPath" = Some [s3PDFPath] /\
     GetReader (sampleEnv "2") s3PDFPath = None) /\
  (exists name,
     "/tmp/abcdefghijklmnopqrstuvwxyz0123456789abcdefghijklmn.pdf"%string
       = "/tmp/" +:+ name +:+ ".pdf" /\
     String.length name = 50%nat /\ allIn name ALPHA_NUMERIC = true) /\
  os_Create (sampleEnv "2")
    "/tmp/abcdefghijklmnopqrstuvwxyz0123456789abcdefghijklmn.pdf" = None /\
  io_Copy (sampleEnv "2")
    "/tmp/abcdefghijklmnopqrstuvwxyz0123456789abcdefghijklmn.pdf" = None.
Proof.
  apply (X4_fetchPDF_success (sampleEnv "2") sampleRequest). reflexivity.
Defined.

(** ** More on page counting *)

Lemma parseDigits_nonneg s0 s : forall n v,
  0 <= n -> strconv.parseDigits s0 s n = Ok v -> 0 <= v.
Proof.
  induction s as [|c s IH]; intros n v Hn; cbn [strconv.parseDigits].
  - now intros [= <-].
  - unfold strconv.digitVal.
    destruct (_ && _) eqn:Hd; [|discriminate].
    apply andb_true_iff in Hd. destruct Hd as [Hlo Hhi].
    destruct (Z.gtb _ _); [discriminate|].
    apply IH. lia.
Qed.

Lemma ParseInt_in_range s n : strconv.ParseInt s = Ok n -> Int.in_range n.
Proof.
  unfold strconv.ParseInt. destruct s as [|c s]; [discriminate|].
  set (body := if (Ascii.eqb c "+" || Ascii.eqb c "-")%bool then s else String c s).
  destruct (strconv.ParseUint body) as [un|e] eqn:Hu.
  2:{ destruct e; discriminate. }
  assert (0 <= un).
  { unfold strconv.ParseUint in Hu. destruct body; [discriminate|].
    eapply parseDigits_nonneg; [|exact Hu]. lia. }
  unfold Int.in_range, Int.MinInt, Int.MaxInt.
  destruct (Ascii.eqb c "-"); cbn [negb andb].
  - destruct (Z.gtb_spec un (2 ^ 63)); [discriminate|]. intros [= <-]. lia.
  - destruct (Z.geb_spec un (2 ^ 63)); [discriminate|]. intros [= <-]. lia.
Qed.

(** X5: a page count returned by [getNumPages] is a machine integer:
    a decimal number outside the range of [int] is rejected, so that the
    conversion [int(numPagesInt64)] loses nothing. *)
Theorem X5_page_count_in_range (env : Env) (pdfPath : string) (numPages : Z) :
  getNumPages env pdfPath = Ok numPages -> Int.in_range numPages.
Proof.
  unfold getNumPages. destruct (cmd_Output env _) as [out|]; [|discriminate].
  destruct (strconv.ParseInt _) as [n|] eqn:Hp; [|discriminate].
  intros [= <-]. exact (ParseInt_in_range _ _ Hp).
Qed.

Lemma X5_page_count_in_range_witness :
  Int.in_range 9223372036854775807 /\
  getNumPages (sampleEnv "9223372036854775808") "/tmp/doc.pdf" =
    Err (NumError "ParseInt" "9223372036854775808" strconv.ErrRange).
Proof.
  split; [|reflexivity].
  apply (X5_page_count_in_range (sampleEnv "9223372036854775807") "/tmp/doc.pdf").
  reflexivity.
Defined.

(** X6: when the rasterizer prints nothing, or nothing but line
    feeds, [getNumPages] fails with the syntax error of [ParseInt] on
    the empty string. *)
Theorem X6_blank_output (env : Env) (pdfPath : string) (n : nat) :
  cmd_Output env (pageCountCommand pdfPath) = Ok (lineFeeds n) ->
  getNumPages env pdfPath = Err (NumError "ParseInt" "" strconv.ErrSyntax).
Proof.
  unfold getNumPages. fold (pageCountCommand pdfPath). intros ->.
  unfold strings.Trim.
  rewrite <- (append_nil_r (lineFeeds n)).
  rewrite TrimLeft_app by apply allIn_lineFeeds. reflexivity.
Qed.

Lemma X6_blank_output_witness :
  getNumPages (sampleEnv "") "/tmp/doc.pdf" =
    Err (NumError "ParseInt" "" strconv.ErrSyntax) /\
  getNumPages (sampleEnv (LF +:+ LF)) "/tmp/doc.pdf" =
    Err (NumError "ParseInt" "" strconv.ErrSyntax).
Proof.
  split.
  - apply (X6_blank_output (sampleEnv "") "/tmp/doc.pdf" 0). reflexivity.
  - apply (X6_blank_output (sampleEnv (LF +:+ LF)) "/tmp/doc.pdf" 2). reflexivity.
Defined.

(** ** The log of a rejected request *)

(** X7: [handleError] passes the text of the error to [fmt.Printf] as
    the format.  For an error of [uploadAllJPEGsToS3] the log therefore
    shows the message with its "%d" rendered as "%!d(MISSING)": the
    three messages about a missing placeholder are garbled, the six
    others are printed as they are. *)
Theorem X7_validation_error_log
    (fuel : nat) (env : Env) (files : list string) (request : Request)
    (jpegPath smallJPEGPath largeJPEGPath : string) (numPages : Z)
    (workers : list (list Event)) (err : error) :
  uploadAllJPEGsToS3 fuel env files request jpegPath smallJPEGPath largeJPEGPath
    numPages = Some (workers, Some err) ->
  exists msg,
    err = errorString msg /\
    handleError_stdout err = Some (strings.Replace_1 msg "%d" "%!d(MISSING)") /\
    (handleError_stdout err = Some msg <-> strings.Contains msg "%d" = false).
Proof.
  unfold uploadAllJPEGsToS3.
  destruct (lookupForm request "s3JPEGPath") as [v1 [|]],
    (lookupForm request "s3SmallJPEGPath") as [v2 [|]],
    (lookupForm request "s3LargeJPEGPath") as [v3 [|]]; cbn [negb];
    try (intros [= _ <-]; eexists; split; [reflexivity|];
         split; [reflexivity | split; [reflexivity | vm_compute; reflexivity]]; fail).
  repeat
    match goal with
    | |- context [if ?c then _ else _] =>
        destruct c;
        try (intros [= _ <-]; eexists; split; [reflexivity|];
             split; [vm_compute; reflexivity|];
             split; vm_compute; congruence)
    end.
  destruct (spawnWorkers _ _ _ _ _); discriminate.
Qed.

Lemma X7_validation_error_log_witness :
  handleError_stdout
    (errorString ("Must specify a JPEG path with %d in the 's3JPEGPath' key." +:+ LF)) =
  Some ("Must specify a JPEG path with %!d(MISSING) in the 's3JPEGPath' key." +:+ LF).
Proof.
  destruct (X7_validation_error_log 0 (sampleEnv "2") sampleFiles
              (requestWith (Some ["a.jpg"]) (Some ["b%d.jpg"]) (Some ["c%d.jpg"]))
              "/tmp/x%d.jpg" "/tmp/x%d-small.jpg" "/tmp/x%d-large.jpg" 2 []
              (errorString
                 ("Must specify a JPEG path with %d in the 's3JPEGPath' key." +:+ LF))
              eq_refl) as (msg & [= <-] & Hlog & _).
  exact Hlog.
Defined.

(** ** Failing commands *)

(** X8: the only line a conversion worker of server.go ever prints is
    "gs command failed"; it follows a failed rasterizer run, wherever in
    the range that happens, and is the last thing the worker does. *)
Theorem X8_conversion_worker_log
    (fuel : nat) (env : Env) (pdfPath jpegPath smallJPEGPath largeJPEGPath : string)
    (firstPage lastPage : Z) (evs : list Event) (files : list string) :
  convertPagesToJPEGs fuel env pdfPath jpegPath smallJPEGPath largeJPEGPath
    firstPage lastPage = Some (evs, files) ->
  (forall format err, In (Printf format err) evs ->
     format = "gs command failed: %s" +:+ LF) /\
  (forall i argv e,
     evs !! i = Some (Exec argv (Some e)) -> program argv = "gs" ->
     evs !! S i = Some (Printf ("gs command failed: %s" +:+ LF) (Some e)) /\
     length evs = S (S i)).
Proof.
  unfold convertPagesToJPEGs.
  revert firstPage evs files.
  induction fuel as [|fuel IH]; intros a evs files; [discriminate|].
  cbn [convertPagesToJPEGs_from].
  destruct (a <=? lastPage).
  2:{ intros [= <- <-]. split; [intros ? ? []|]. intros i argv e H. now destruct i. }
  fold (gsCommand pdfPath largeJPEGPath a).
  destruct (cmd_Run env (gsCommand pdfPath largeJPEGPath a)) as [e0|].
  - intros [= <- <-]. split.
    + intros format err [H|[H|[]]]; [discriminate|]. now injection H as <- _.
    + intros [|[|i]] argv e H Hp; try discriminate.
      injection H as <- <-. split; reflexivity.
  - unfold resizeAndSaveImage. cbv zeta.
    destruct (convertPagesToJPEGs_from fuel _ _ _ _ _ _ _) as [[evs' fs']|] eqn:Hrec;
      [|discriminate].
    intros [= <- <-]. destruct (IH _ _ _ Hrec) as [IH1 IH2]. split.
    + intros format err [H|[H|[H|H]]]; try discriminate. exact (IH1 _ _ H).
    + intros [|[|[|i]]] argv e H Hp.
      * discriminate.
      * cbn in H. injection H as <- _. discriminate.
      * cbn in H. injection H as <- _. discriminate.
      * destruct (IH2 i argv e H Hp) as [Hn Hl]. split; [exact Hn|].
        cbn [length]. now rewrite Hl.
Qed.

(** The rasterizer fails on the first page of the range 1..2. *)
Lemma X8_conversion_worker_log_witness :
  convertPagesToJPEGs 1 (envFailing "gs" "2") "/tmp/doc.pdf"
    "/tmp/x%d.jpg" "/tmp/x%d-small.jpg" "/tmp/x%d-large.jpg" 1 2 =
  Some ([Exec (gsCommand "/tmp/doc.pdf" "/tmp/x%d-large.jpg" 1)
              (Some (ExternalError "exit status 1"));
         Printf ("gs command failed: %s" +:+ LF) (Some (ExternalError "exit status 1"))],
        []) /\
  [Exec (gsCommand "/tmp/doc.pdf" "/tmp/x%d-large.jpg" 1)
        (Some (ExternalError "exit status 1"));
   Printf ("gs command failed: %s" +:+ LF) (Some (ExternalError "exit status 1"))]
    !! 1%nat =
  Some (Printf ("gs command failed: %s" +:+ LF) (Some (ExternalError "exit status 1"))).
Proof.
  split; [reflexivity|].
  destruct (X8_conversion_worker_log 1 (envFailing "gs" "2")
              "/tmp/doc.pdf" "/tmp/x%d.jpg" "/tmp/x%d-small.jpg" "/tmp/x%d-large.jpg"
              1 2 _ [] eq_refl) as [_ H].
  apply (H 0%nat (gsCommand "/tmp/doc.pdf" "/tmp/x%d-large.jpg" 1)
           (ExternalError "exit status 1")); reflexivity.
Defined.





(** ** Upload workers in any environment *)

Lemma uploadJPEGToS3_cases env files jpegPath s3JPEGPath pageNum :
  (exists e, uploadJPEGToS3 env files jpegPath s3JPEGPath pageNum = ([], Some e)) \/
  (exists r,
     uploadJPEGToS3 env files jpegPath s3JPEGPath pageNum =
       ([Put (fmt.Sprintf s3JPEGPath [fmt.Int pageNum])
             (fmt.Sprintf jpegPath [fmt.Int pageNum]) r], r) /\
     fileExists (fmt.Sprintf jpegPath [fmt.Int pageNum]) files = true).
Proof.
  unfold uploadJPEGToS3, os_Open.
  destruct (fileExists _ files); [right | left]; eauto.
Qed.

Lemma Int_add_1 a b : Int.MinInt <= a -> a <= b -> b < Int.MaxInt -> Int.add a 1 = a + 1.
Proof. intros. unfold Int.add. apply wrap_id. unfold Int.MinInt, Int.MaxInt in *. lia. Qed.

Lemma storeWrites_Put remote local r evs :
  storeWrites (Put remote local r :: evs) = remote :: storeWrites evs.
Proof. reflexivity. Qed.

Ltac put_index H i :=
  repeat first
    [ discriminate H
    | destruct i as [|i];
      [ first [discriminate H | injection H as <- <- <-; split; reflexivity] | ] ].

Ltac upload_stops :=
  intros [= <- <-]; rewrite ?storeWrites_Put;
  split; [|split; [|split]];
  [ first [apply prefix_nil | eexists; reflexivity]
  | discriminate
  | let i := fresh "i" in let H := fresh "H" in
    intros i ? ? ? H; put_index H i
  | repeat constructor; eauto ].

(** X10: in any environment an upload worker whose range ends below
    [MaxInt] attempts the store writes of its own pages only, in page
    order and, within a page, in the order normal, small, large; it
    stops at the first write that fails, returns [nil] only after the
    writes of all its pages, and only ever uploads a file that
    exists. *)
Theorem X10_upload_worker
    (fuel : nat) (env : Env) (files : list string)
    (jpegPath smallJPEGPath largeJPEGPath : string)
    (s3JPEGPath s3SmallJPEGPath s3LargeJPEGPath : string)
    (firstPage lastPage : Z) (evs : list Event) (err : option error) :
  Int.MinInt <= firstPage -> lastPage < Int.MaxInt ->
  uploadJPEGRangeToS3 fuel env files jpegPath smallJPEGPath largeJPEGPath
    s3JPEGPath s3SmallJPEGPath s3LargeJPEGPath firstPage lastPage = Some (evs, err) ->
  storeWrites evs `prefix_of`
    flat_map (pageWrites s3JPEGPath s3SmallJPEGPath s3LargeJPEGPath)
      (seqZ firstPage (lastPage - firstPage + 1)) /\
  (err = None ->
   storeWrites evs =
     flat_map (pageWrites s3JPEGPath s3SmallJPEGPath s3LargeJPEGPath)
       (seqZ firstPage (lastPage - firstPage + 1))) /\
  (forall i remote local e,
     evs !! i = Some (Put remote local (Some e)) ->
     length evs = S i /\ err = Some e) /\
  Forall (fun ev => exists remote local r,
            ev = Put remote local r /\ fileExists local files = true) evs.
Proof.
  intros Hmin Hmax. unfold uploadJPEGRangeToS3.
  revert firstPage Hmin evs err.
  induction fuel as [|fuel IH]; intros a Hmin evs err; [discriminate|].
  cbn [uploadJPEGRangeToS3_from].
  destruct (Z.leb_spec a lastPage) as [Hle|Hgt].
  2:{ intros [= <- <-]. rewrite seqZ_nil by lia.
      split; [apply prefix_nil|]. split; [reflexivity|].
      split; [|constructor]. intros i r l e H. discriminate H. }
  rewrite (seqZ_cons a) by lia. cbn [flat_map].
  replace (Z.succ a) with (a + 1) by lia.
  replace (Z.pred (lastPage - a + 1)) with (lastPage - (a + 1) + 1) by lia.
  rewrite (Int_add_1 a lastPage) by assumption.
  set (rest := flat_map _ (seqZ (a + 1) _)).
  unfold pageWrites at 1. cbn [app].
  destruct (uploadJPEGToS3_cases env files jpegPath s3JPEGPath a)
    as [[e1 ->]|[r1 [-> F1]]]; [upload_stops|].
  destruct r1 as [e1|]; [upload_stops|].
  destruct (uploadJPEGToS3_cases env files smallJPEGPath s3SmallJPEGPath a)
    as [[e2 ->]|[r2 [-> F2]]]; [upload_stops|].
  destruct r2 as [e2|]; [upload_stops|].
  destruct (uploadJPEGToS3_cases env files largeJPEGPath s3LargeJPEGPath a)
    as [[e3 ->]|[r3 [-> F3]]]; [upload_stops|].
  destruct r3 as [e3|]; [upload_stops|].
  destruct (uploadJPEGRangeToS3_from fuel _ _ _ _ _ _ _ _ _ _) as [[evs' err']|] eqn:Hrec;
    [|discriminate].
  intros [= <- <-].
  destruct (IH (a + 1) ltac:(lia) _ _ Hrec) as (P1 & P2 & P3 & P4).
  fold rest in P1, P2. cbn [app]. rewrite !storeWrites_Put.
  split; [|split; [|split]].
  - destruct P1 as [k ->]. exists k. reflexivity.
  - intros ->. now rewrite (P2 eq_refl).
  - intros [|[|[|i]]] r l e H; try discriminate H.
    destruct (P3 _ _ _ _ H) as [Hl ->]. cbn [length]. now rewrite Hl.
  - repeat constructor; eauto.
Qed.

(** The small JPEG of page 2 is missing: the worker for the pages 1..2
    stops after four writes. *)
Lemma X10_upload_worker_witness :
  uploadJPEGRangeToS3 3 (sampleEnv "2")
    ["/tmp/x1.jpg"; "/tmp/x1-small.jpg"; "/tmp/x1-large.jpg"; "/tmp/x2.jpg"]
    "/tmp/x%d.jpg" "/tmp/x%d-small.jpg" "/tmp/x%d-large.jpg"
    "a%d.jpg" "b%d.jpg" "c%d.jpg" 1 2
  = Some ([Put "a1.jpg" "/tmp/x1.jpg" None; Put "b1.jpg" "/tmp/x1-small.jpg" None;
           Put "c1.jpg" "/tmp/x1-large.jpg" None; Put "a2.jpg" "/tmp/x2.jpg" None],
          Some (ExternalError "open /tmp/x2-small.jpg: no such file or directory")) /\
  storeWrites [Put "a1.jpg" "/tmp/x1.jpg" None; Put "b1.jpg" "/tmp/x1-small.jpg" None;
               Put "c1.jpg" "/tmp/x1-large.jpg" None; Put "a2.jpg" "/tmp/x2.jpg" None]
    `prefix_of` flat_map (pageWrites "a%d.jpg" "b%d.jpg" "c%d.jpg") (seqZ 1 (2 - 1 + 1)).
Proof.
  split; [reflexivity|].
  apply (X10_upload_worker 3 (sampleEnv "2")
           ["/tmp/x1.jpg"; "/tmp/x1-small.jpg"; "/tmp/x1-large.jpg"; "/tmp/x2.jpg"]
           "/tmp/x%d.jpg" "/tmp/x%d-small.jpg" "/tmp/x%d-large.jpg"
           "a%d.jpg" "b%d.jpg" "c%d.jpg" 1 2 _
           (Some (ExternalError "open /tmp/x2-small.jpg: no such file or directory")));
    [vm_compute; discriminate | vm_compute; reflexivity | reflexivity].
Defined.

(** ** Workers always return *)

Lemma upload_worker_total env files jp sp lp tn ts tl :
  forall (len : nat) (a : Z),
    Int.MinInt <= a -> a + Z.of_nat len <= Int.MaxInt ->
    exists w, forall fuel, (len < fuel)%nat ->
      uploadJPEGRangeToS3 fuel env files jp sp lp tn ts tl a (a + Z.of_nat len - 1) = Some w.
Proof.
  unfold uploadJPEGRangeToS3.
  induction len as [|len IH]; intros a Hmin Hmax.
  - exists ([], None). intros [|fuel] Hf; [lia|]. cbn [uploadJPEGRangeToS3_from].
    destruct (Z.leb_spec a (a + Z.of_nat 0 - 1)); [lia | reflexivity].
  - destruct (IH (a + 1) ltac:(lia) ltac:(lia)) as [[evs' err'] Hrec].
    destruct (uploadJPEGToS3 env files jp tn a) as [ev1 [e1|]] eqn:U1.
    { eexists. intros [|fuel] Hf; [lia|]. cbn [uploadJPEGRangeToS3_from].
      destruct (Z.leb_spec a (a + Z.of_nat (S len) - 1)); [|lia].
      rewrite U1. reflexivity. }
    destruct (uploadJPEGToS3 env files sp ts a) as [ev2 [e2|]] eqn:U2.
    { eexists. intros [|fuel] Hf; [lia|]. cbn [uploadJPEGRangeToS3_from].
      destruct (Z.leb_spec a (a + Z.of_nat (S len) - 1)); [|lia].
      rewrite U1, U2. reflexivity. }
    destruct (uploadJPEGToS3 env files lp tl a) as [ev3 [e3|]] eqn:U3.
    { eexists. intros [|fuel] Hf; [lia|]. cbn [uploadJPEGRangeToS3_from].
      destruct (Z.leb_spec a (a + Z.of_nat (S len) - 1)); [|lia].
      rewrite U1, U2, U3. reflexivity. }
    eexists. intros [|fuel] Hf; [lia|]. cbn [uploadJPEGRangeToS3_from].
    destruct (Z.leb_spec a (a + Z.of_nat (S len) - 1)); [|lia].
    rewrite U1, U2, U3.
    rewrite (Int_add_1 a (a + Z.of_nat (S len) - 1)) by lia.
    replace (a + Z.of_nat (S len) - 1) with (a + 1 + Z.of_nat len - 1) by lia.
    rewrite Hrec by lia. reflexivity.
Qed.

Lemma convert_worker_total env pdf jp sp lp :
  forall (len : nat) (a : Z),
    Int.MinInt <= a -> a + Z.of_nat len <= Int.MaxInt ->
    exists w, forall fuel, (len < fuel)%nat ->
      convertPagesToJPEGs fuel env pdf jp sp lp a (a + Z.of_nat len - 1) = Some w.
Proof.
  unfold convertPagesToJPEGs.
  induction len as [|len IH]; intros a Hmin Hmax.
  - exists ([], []). intros [|fuel] Hf; [lia|]. cbn [convertPagesToJPEGs_from].
    destruct (Z.leb_spec a (a + Z.of_nat 0 - 1)); [lia | reflexivity].
  - destruct (IH (a + 1) ltac:(lia) ltac:(lia)) as [[evs' fs'] Hrec].
    destruct (cmd_Run env (gsCommand pdf lp a)) as [e|] eqn:G.
    { eexists. intros [|fuel] Hf; [lia|]. cbn [convertPagesToJPEGs_from].
      destruct (Z.leb_spec a (a + Z.of_nat (S len) - 1)); [|lia].
      fold (gsCommand pdf lp a). rewrite G. reflexivity. }
    eexists. intros [|fuel] Hf; [lia|]. cbn [convertPagesToJPEGs_from].
    destruct (Z.leb_spec a (a + Z.of_nat (S len) - 1)); [|lia].
    fold (gsCommand pdf lp a). rewrite G.
    unfold resizeAndSaveImage. cbv zeta.
    rewrite (Int_add_1 a (a + Z.of_nat (S len) - 1)) by lia.
    replace (a + Z.of_nat (S len) - 1) with (a + 1 + Z.of_nat len - 1) by lia.
    rewrite Hrec by lia. reflexivity.
Qed.

Lemma runWorkers_total {W : Type} (worker : nat -> Z -> Z -> option W) (bound : nat) rs :
  (forall a b, (a, b) ∈ rs ->
     exists w, forall fuel, (bound < fuel)%nat -> worker fuel a b = Some w) ->
  exists ws, forall fuel, (bound < fuel)%nat -> runWorkers (worker fuel) rs = Some ws.
Proof.
  induction rs as [|[a b] rs IH]; intros H.
  - exists []. reflexivity.
  - destruct (H a b ltac:(apply list_elem_of_here)) as [w Hw].
    destruct IH as [ws Hws].
    { intros x y Hin. apply H. now apply list_elem_of_further. }
    exists (w :: ws). intros fuel Hf. cbn [runWorkers]. now rewrite Hw, Hws.
Qed.

Lemma range_worker_total {W : Type} (worker : nat -> Z -> Z -> option W) rs N :
  1 <= N -> N < Int.MaxInt -> chain 1 rs N ->
  (forall (len : nat) (a : Z),
     Int.MinInt <= a -> a + Z.of_nat len <= Int.MaxInt ->
     exists w, forall fuel, (len < fuel)%nat ->
       worker fuel a (a + Z.of_nat len - 1) = Some w) ->
  exists ws, forall fuel, (Z.to_nat N < fuel)%nat ->
    runWorkers (worker fuel) rs = Some ws.
Proof.
  intros HN Hmax Hchain Hw. apply runWorkers_total.
  intros a b Hin. destruct (chain_bounds rs 1 N a b Hchain Hin) as (Ha & Hab & Hb).
  destruct (Hw (Z.to_nat (b - a + 1)) a) as [w Hfuel];
    [unfold Int.MinInt; lia | lia |].
  exists w. intros fuel Hf.
  replace b with (a + Z.of_nat (Z.to_nat (b - a + 1)) - 1) at 1 by lia.
  apply Hfuel. lia.
Qed.

Lemma spawnWorkers_total {W : Type} (worker : nat -> Z -> Z -> option W) N w :
  N <= 2 ^ 53 -> 1 <= w <= 2 ^ 53 ->
  (forall (len : nat) (a : Z),
     Int.MinInt <= a -> a + Z.of_nat len <= Int.MaxInt ->
     exists r, forall fuel, (len < fuel)%nat ->
       worker fuel a (a + Z.of_nat len - 1) = Some r) ->
  exists ws, forall fuel, (Z.to_nat N + 1 < fuel)%nat ->
    spawnWorkers fuel (worker fuel) N (numPagesPerWorker N w) 1 = Some ws.
Proof.
  intros HN Hw Hworker.
  destruct (Z.le_gt_cases N 0) as [Hneg|Hpos].
  - exists []. intros [|fuel] Hf; [lia|]. cbn [spawnWorkers].
    destruct (Z.leb_spec 1 N); [lia | reflexivity].
  - destruct (pageRanges_chain N w ltac:(lia) (loopInRange_small N w ltac:(lia) Hw))
      as (rs & Hchain & Hrun).
    pose proof (chain_length rs 1 N Hchain) as Hlen.
    destruct (range_worker_total worker rs N ltac:(lia)
                ltac:(unfold Int.MaxInt; lia) Hchain Hworker) as [ws Hws].
    exists ws. intros fuel Hf.
    rewrite (pageRanges_run fuel _ N w rs) by (apply Hrun; lia).
    apply Hws. lia.
Qed.

(** ** What a response tells *)

Lemma uploadAll_cases fuel env files request jp sp lp numPages workers r :
  uploadAllJPEGsToS3 fuel env files request jp sp lp numPages = Some (workers, r) ->
  (exists msg, r = Some (errorString msg) /\ workers = []) \/
  (r = None /\ exists normal small large, remoteTemplates request normal small large).
Proof.
  unfold uploadAllJPEGsToS3, lookupForm, remoteTemplates.
  destruct (Form request !! "s3JPEGPath") as [v1|],
    (Form request !! "s3SmallJPEGPath") as [v2|],
    (Form request !! "s3LargeJPEGPath") as [v3|]; cbn [negb];
    try (intros [= <- <-]; left; eauto; fail).
  destruct (length v1 =? 1)%nat eqn:H1; [|intros [= <- <-]; left; eauto].
  destruct (length v2 =? 1)%nat eqn:H2; [|intros [= <- <-]; left; eauto].
  destruct (length v3 =? 1)%nat eqn:H3; [|intros [= <- <-]; left; eauto].
  cbn [negb].
  destruct (length_one _ H1) as [t1 ->], (length_one _ H2) as [t2 ->],
    (length_one _ H3) as [t3 ->].
  cbn [hd].
  destruct (strings.Contains t1 "%d") eqn:C1; [|intros [= <- <-]; left; eauto].
  destruct (strings.Contains t2 "%d") eqn:C2; [|intros [= <- <-]; left; eauto].
  destruct (strings.Contains t3 "%d") eqn:C3; [|intros [= <- <-]; left; eauto].
  cbn [negb].
  destruct (spawnWorkers _ _ _ _ _); [|discriminate].
  intros [= <- <-]. right. split; [reflexivity|].
  exists t1, t2, t3. repeat split; assumption.
Qed.

Lemma uploadAll_malformed request :
  malformed request "s3JPEGPath" \/ malformed request "s3SmallJPEGPath" \/
  malformed request "s3LargeJPEGPath" ->
  exists msg, forall fuel env files jp sp lp numPages,
    uploadAllJPEGsToS3 fuel env files request jp sp lp numPages
      = Some ([], Some (errorString msg)).
Proof.
  unfold malformed, uploadAllJPEGsToS3, lookupForm. intros H.
  destruct (Form request !! "s3JPEGPath") as [v1|],
    (Form request !! "s3SmallJPEGPath") as [v2|],
    (Form request !! "s3LargeJPEGPath") as [v3|]; try (cbn; eauto; fail).
  cbn [negb].
  destruct (length v1 =? 1)%nat eqn:H1; [|cbn; eauto].
  destruct (length v2 =? 1)%nat eqn:H2; [|cbn; eauto].
  destruct (length v3 =? 1)%nat eqn:H3; [|cbn; eauto].
  cbn [negb].
  destruct (length_one _ H1) as [t1 ->], (length_one _ H2) as [t2 ->],
    (length_one _ H3) as [t3 ->].
  cbn [hd].
  destruct (strings.Contains t1 "%d") eqn:C1; [|cbn; eauto].
  destruct (strings.Contains t2 "%d") eqn:C2; [|cbn; eauto].
  destruct (strings.Contains t3 "%d") eqn:C3; [|cbn; eauto].
  exfalso.
  destruct H as [[H|(x & [= <-] & H)]|[[H|(x & [= <-] & H)]|[H|(x & [= <-] & H)]]];
    simpl in H; congruence.
Qed.

(** X11: a request that is answered with an error has written nothing
    to the store: the status is 500, the error sent is the error logged,
    and no upload worker was started. *)
Theorem X11_error_response
    (fuel : nat) (env : Env) (request : Request) (bucketName : string)
    (out : Outcome) (err : error) (code : Z) :
  convert fuel env request bucketName = Some out ->
  response out = http_Error err code ->
  code = StatusInternalServerError /\
  printed out = [PrintError err] /\
  uploaded out = [].
Proof.
  unfold convert.
  destruct (negb _); [intros [= <-]; discriminate|].
  destruct (connectToS3 env bucketName) as [bucket|e].
  2:{ intros [= <-] [= <- <-]. repeat split. }
  destruct (fetchPDF env request) as [pdfPath|e].
  2:{ intros [= <-] [= <- <-]. repeat split. }
  destruct (scratchPaths _) as [[jp sp] lp].
  destruct (convertPDFToJPEGs _ _ _ _ _ _) as [[convertedW [numPages|e]]|];
    [| |discriminate].
  2:{ intros [= <-] [= <- <-]. repeat split. }
  destruct (uploadAllJPEGsToS3 _ _ _ _ _ _ _ _) as [[uploadedW [e|]]|] eqn:Hup;
    [| |discriminate].
  - intros [= <-] [= <- <-].
    destruct (uploadAll_cases _ _ _ _ _ _ _ _ _ _ Hup) as [(msg & _ & ->)|[[=] _]].
    repeat split.
  - intros [= <-]. discriminate.
Qed.

Lemma X11_error_response_witness :
  500 = StatusInternalServerError /\
  printed (handleError
             (errorString ("Must specify a JPEG path in the 's3JPEGPath' key." +:+ LF))
             [] []) =
    [PrintError
       (errorString ("Must specify a JPEG path in the 's3JPEGPath' key." +:+ LF))] /\
  uploaded (handleError
              (errorString ("Must specify a JPEG path in the 's3JPEGPath' key." +:+ LF))
              [] []) = [].
Proof.
  apply (X11_error_response 1 (sampleEnv "0") (requestWith None None None) "scoryst"
           (handleError
              (errorString ("Must specify a JPEG path in the 's3JPEGPath' key." +:+ LF))
              [] [])
           (errorString ("Must specify a JPEG path in the 's3JPEGPath' key." +:+ LF))
           500); reflexivity.
Defined.

(** X12: "Done" is only ever answered to a POST request, with
    credentials at hand, whose PDF was fetched and counted and whose
    three remote templates pass validation. *)
Theorem X12_done_only_if
    (fuel : nat) (env : Env) (request : Request) (bucketName : string)
    (out : Outcome) :
  convert fuel env request bucketName = Some out ->
  response out = Fprintf ("Done" +:+ LF) ->
  Method request = "POST" /\ EnvAuth env = None /\
  exists pdfPath numPages normal small large,
    fetchPDF env request = Ok pdfPath /\
    getNumPages env pdfPath = Ok numPages /\
    remoteTemplates request normal small large.
Proof.
  unfold convert.
  destruct (String.eqb_spec (Method request) "POST") as [HM|HM]; cbn [negb].
  2:{ intros [= <-]. discriminate. }
  unfold connectToS3. destruct (EnvAuth env) as [e|].
  { intros [= <-]. discriminate. }
  destruct (fetchPDF env request) as [pdfPath|e].
  2:{ intros [= <-]. discriminate. }
  destruct (scratchPaths _) as [[jp sp] lp].
  destruct (convertPDFToJPEGs _ _ _ _ _ _) as [[convertedW [numPages|e]]|] eqn:Hconv;
    [| |discriminate].
  2:{ intros [= <-]. discriminate. }
  destruct (uploadAllJPEGsToS3 _ _ _ _ _ _ _ _) as [[uploadedW [e|]]|] eqn:Hup;
    [| |discriminate].
  { intros [= <-]. discriminate. }
  intros _ _. split; [assumption|]. split; [reflexivity|].
  destruct (uploadAll_cases _ _ _ _ _ _ _ _ _ _ Hup)
    as [(msg & [=] & _)|(_ & normal & small & large & HT)].
  exists pdfPath, numPages, normal, small, large.
  split; [reflexivity|]. split; [|exact HT].
  unfold convertPDFToJPEGs in Hconv.
  destruct (getNumPages env pdfPath) as [n|]; [|discriminate].
  destruct (spawnWorkers _ _ _ _ _); [|discriminate]. now injection Hconv as _ <-.
Qed.

Lemma X12_done_only_if_witness :
  Method sampleRequest = "POST" /\ EnvAuth (sampleEnv "2") = None /\
  exists pdfPath numPages normal small large,
    fetchPDF (sampleEnv "2") sampleRequest = Ok pdfPath /\
    getNumPages (sampleEnv "2") pdfPath = Ok numPages /\
    remoteTemplates sampleRequest normal small large.
Proof.
  eapply (X12_done_only_if 4 (sampleEnv "2") sampleRequest "scoryst");
    [vm_compute; reflexivity | reflexivity].
Defined.

(** ** What a response does not tell *)

(** X13: errors of the workers never reach the client.  For a POST
    request whose PDF is fetched and counted (up to 2^53 pages) and
    whose templates pass validation, the request is answered "Done"
    whatever the rasterizer, the resizer and the store do. *)
Theorem X13_done_whatever_the_workers_meet
    (env : Env) (request : Request) (bucketName pdfPath : string) (N : Z)
    (normal small large : string) :
  N <= 2 ^ 53 ->
  Method request = "POST" -> EnvAuth env = None ->
  fetchPDF env request = Ok pdfPath ->
  getNumPages env pdfPath = Ok N ->
  remoteTemplates request normal small large ->
  exists out,
    (forall fuel, (Z.to_nat N + 1 < fuel)%nat ->
       convert fuel env request bucketName = Some out) /\
    response out = Fprintf ("Done" +:+ LF) /\
    printed out = [Printf ("Conversion finished" +:+ LF) None].
Proof.
  intros HN HM HA HF HP HT.
  destruct (scratchPaths (generateRandomString 50 (rand_Read env 1)))
    as [[jp sp] lp] eqn:Hpaths.
  destruct (spawnWorkers_total
              (fun fuel => convertPagesToJPEGs fuel env pdfPath jp sp lp)
              N NUM_WORKERS_CONVERT HN ltac:(unfold NUM_WORKERS_CONVERT; lia)
              (convert_worker_total env pdfPath jp sp lp)) as [convertedW Hconv].
  set (files := files0 env ++ pdfPath :: concat (map snd convertedW)).
  destruct (spawnWorkers_total
              (fun fuel => uploadJPEGRangeToS3 fuel env files jp sp lp normal small large)
              N NUM_WORKERS_UPLOAD HN ltac:(unfold NUM_WORKERS_UPLOAD; lia)
              (upload_worker_total env files jp sp lp normal small large))
    as [uploadedW Hupl].
  exists {| response := Fprintf ("Done" +:+ LF);
            printed := [Printf ("Conversion finished" +:+ LF) None];
            converted := convertedW; uploaded := map fst uploadedW |}.
  split; [|split; reflexivity].
  intros fuel Hfuel. unfold convert, connectToS3.
  rewrite HM, HA, HF, String.eqb_refl, Hpaths. cbn [negb].
  unfold convertPDFToJPEGs. rewrite HP, (Hconv fuel Hfuel).
  fold files.
  rewrite (uploadAll_valid fuel env files request jp sp lp N normal small large HT).
  now rewrite (Hupl fuel Hfuel).
Qed.

(** Every run of the resizer fails, and the request is answered "Done". *)
Lemma X13_done_whatever_the_workers_meet_witness :
  exists out,
    (forall fuel, (Z.to_nat 2 + 1 < fuel)%nat ->
       convert fuel (envResizerFails "2") sampleRequest "scoryst" = Some out) /\
    response out = Fprintf ("Done" +:+ LF) /\
    printed out = [Printf ("Conversion finished" +:+ LF) None].
Proof.
  apply (X13_done_whatever_the_workers_meet (envResizerFails "2") sampleRequest "scoryst"
           "/tmp/abcdefghijklmnopqrstuvwxyz0123456789abcdefghijklmn.pdf" 2
           "split-pages/page%d.jpg" "split-pages/page%d-small.jpg"
           "split-pages/page%d-large.jpg");
    try reflexivity; try (vm_compute; discriminate).
  repeat split; reflexivity.
Defined.

(** X14: the remote templates are only validated once the whole document
    has been converted: a request with a malformed template, for a
    document of N pages whose rasterizer and resizer runs succeed, is
    rejected after the 3N commands of its N pages have been run. *)
Theorem X14_validation_after_conversion
    (env : Env) (request : Request) (bucketName pdfPath : string) (N : Z) :
  1 <= N <= 2 ^ 53 ->
  Method request = "POST" -> EnvAuth env = None ->
  fetchPDF env request = Ok pdfPath ->
  getNumPages env pdfPath = Ok N ->
  (forall argv, cmd_Run env argv = None) ->
  malformed request "s3JPEGPath" \/ malformed request "s3SmallJPEGPath" \/
  malformed request "s3LargeJPEGPath" ->
  exists msg workers,
    (forall fuel, (Z.to_nat N + 1 < fuel)%nat ->
       convert fuel env request bucketName =
         Some (handleError (errorString msg) workers [])) /\
    (let '(jpegPath, smallJPEGPath, largeJPEGPath) :=
       scratchPaths (generateRandomString 50 (rand_Read env 1)) in
     concat (map fst workers) =
       flat_map (pageExecs pdfPath jpegPath smallJPEGPath largeJPEGPath) (seqZ 1 N)).
Proof.
  intros HN HM HA HF HP Hrun Hbad.
  destruct (scratchPaths (generateRandomString 50 (rand_Read env 1)))
    as [[jp sp] lp] eqn:Hpaths.
  destruct (pageRanges_chain N NUM_WORKERS_CONVERT ltac:(lia)
              (loopInRange_small N NUM_WORKERS_CONVERT HN
                 ltac:(unfold NUM_WORKERS_CONVERT; lia)))
    as (rs & Hchain & Hranges).
  pose proof (chain_length rs 1 N Hchain) as Hlen.
  set (workers := map (fun r => (flat_map (pageExecs pdfPath jp sp lp) (pagesOf r),
                                 flat_map (pageFiles jp sp lp) (pagesOf r))) rs).
  set (files := files0 env ++ pdfPath :: concat (map snd workers)).
  destruct (uploadAll_malformed request Hbad) as [msg Hmsg].
  exists msg, workers. split.
  - intros fuel Hfuel. unfold convert, connectToS3.
    rewrite HM, HA, HF, String.eqb_refl, Hpaths. cbn [negb].
    unfold convertPDFToJPEGs. rewrite HP.
    rewrite (pageRanges_run fuel _ N NUM_WORKERS_CONVERT rs) by (apply Hranges; lia).
    rewrite (runWorkers_map _
               (fun r => (flat_map (pageExecs pdfPath jp sp lp) (pagesOf r),
                          flat_map (pageFiles jp sp lp) (pagesOf r)))).
    2:{ intros a b Hin.
        destruct (chain_bounds rs 1 N a b Hchain Hin) as (Ha & Hab & Hb).
        apply convert_worker_range; try assumption;
          unfold Int.MinInt, Int.MaxInt; lia. }
    fold workers. fold files.
    now rewrite Hmsg.
  - unfold workers. rewrite map_map. cbn [fst].
    rewrite concat_flat_map_pages, (chain_pages rs 1 N Hchain). do 2 f_equal. lia.
Qed.

Lemma X14_validation_after_conversion_witness :
  exists msg workers,
    (forall fuel, (Z.to_nat 2 + 1 < fuel)%nat ->
       convert fuel (sampleEnv "2")
         (requestWith (Some ["a.jpg"]) (Some ["b%d.jpg"]) (Some ["c%d.jpg"])) "scoryst" =
         Some (handleError (errorString msg) workers [])) /\
    (let '(jpegPath, smallJPEGPath, largeJPEGPath) :=
       scratchPaths (generateRandomString 50 (rand_Read (sampleEnv "2") 1)) in
     concat (map fst workers) =
       flat_map (pageExecs "/tmp/abcdefghijklmnopqrstuvwxyz0123456789abcdefghijklmn.pdf"
                   jpegPath smallJPEGPath largeJPEGPath) (seqZ 1 2)).
Proof.
  apply (X14_validation_after_conversion (sampleEnv "2")
           (requestWith (Some ["a.jpg"]) (Some ["b%d.jpg"]) (Some ["c%d.jpg"])) "scoryst"
           "/tmp/abcdefghijklmnopqrstuvwxyz0123456789abcdefghijklmn.pdf" 2);
    try reflexivity; try (vm_compute; split; discriminate).
  left. vm_compute. right. exists "a.jpg"%string. split; reflexivity.
Defined.

(** ** The number of workers *)

Lemma ceilDiv_one x p : 1 <= x <= p -> ceilDiv x p = 1.
Proof.
  intros H. unfold ceilDiv. symmetry. apply (Z.div_unique _ _ 1 (x - 1)); lia.
Qed.

Lemma ceilDiv_add x p : 1 <= p -> ceilDiv (x + p) p = ceilDiv x p + 1.
Proof.
  intros H. unfold ceilDiv.
  replace (x + p + p - 1) with (x + p - 1 + 1 * p) by lia.
  apply Z.div_add. lia.
Qed.

Lemma chain_count p rs :
  1 <= p ->
  forall f l,
    chain f rs l ->
    (forall i a b, rs !! i = Some (a, b) -> (S i < length rs)%nat -> b - a + 1 = p) ->
    (forall a b, last rs = Some (a, b) -> b - a + 1 <= p) ->
    Z.of_nat (length rs) = ceilDiv (l - f + 1) p.
Proof.
  intros Hp. induction rs as [|[a b] rs IH]; intros f l Hc Hfull Hlast.
  - simpl in Hc. subst l. replace (f - 1 - f + 1) with 0 by lia.
    unfold ceilDiv. cbn [length]. rewrite Z.div_small; lia.
  - cbn [chain] in Hc. destruct Hc as (-> & Hab & Hc).
    destruct rs as [|r rs].
    + simpl in Hc. subst l. cbn [length].
      specialize (Hlast f b eq_refl). rewrite ceilDiv_one; lia.
    + pose proof (Hfull 0%nat f b eq_refl ltac:(cbn [length]; lia)) as Hfirst.
      replace (l - f + 1) with (l - (b + 1) + 1 + p) by lia.
      rewrite ceilDiv_add by lia.
      rewrite <- (IH (b + 1) l Hc).
      * cbn [length]. lia.
      * intros i x y Hi Hlt. apply (Hfull (S i) x y Hi). cbn [length] in *. lia.
      * intros x y Hl. apply Hlast. exact Hl.
Qed.

(** X15: the two coordinators start exactly
    ceil(total / ceil(total / workerCount)) workers, which can be fewer
    than workerCount even for a document of more than workerCount
    pages. *)
Theorem X15_number_of_workers (total workerCount : Z) :
  1 <= total <= 2 ^ 53 -> 1 <= workerCount <= 2 ^ 53 ->
  exists ranges,
    (forall fuel, (length ranges < fuel)%nat ->
       pageRanges fuel total workerCount = Some ranges) /\
    Z.of_nat (length ranges) = ceilDiv total (ceilDiv total workerCount).
Proof.
  intros Ht Hw.
  destruct (pageRanges_spec total workerCount ltac:(lia) Hw)
    as (rs & Hchain & _ & Hfull & Hlast & Hrun).
  exists rs. split; [exact Hrun|].
  pose proof (ceilDiv_bounds total workerCount ltac:(lia) ltac:(lia)) as [Hc _].
  rewrite (chain_count (ceilDiv total workerCount) rs ltac:(lia) 1 total Hchain Hfull).
  - f_equal. lia.
  - intros a b Hl. rewrite (Hlast a b Hl).
    pose proof (Z.mod_pos_bound total (ceilDiv total workerCount) ltac:(lia)).
    destruct (_ =? 0); lia.
Qed.

Lemma X15_number_of_workers_witness :
  exists ranges,
    (forall fuel, (length ranges < fuel)%nat ->
       pageRanges fuel 11 NUM_WORKERS_UPLOAD = Some ranges) /\
    Z.of_nat (length ranges) = 6.
Proof.
  apply (X15_number_of_workers 11 NUM_WORKERS_UPLOAD); vm_compute; split; discriminate.
Defined.



(** ** Names of the scratch files *)

Lemma digits_split a : forall b x y,
  isDigits a = true -> isDigits b = true ->
  startsOffDigits x -> startsOffDigits y ->
  a +:+ x = b +:+ y -> a = b /\ x = y.
Proof.
  induction a as [|c a IH]; intros [|d b] x y Ha Hb Hx Hy.
  - rewrite !append_nil_l. auto.
  - rewrite append_nil_l, append_cons. intros ->. cbn in Hx, Hb.
    rewrite Hx in Hb. discriminate.
  - rewrite append_nil_l, append_cons. intros <-. cbn in Hy, Ha.
    rewrite Hy in Ha. discriminate.
  - rewrite !append_cons. intros [= -> Heq].
    cbn [isDigits] in Ha, Hb. destruct (strconv.digitVal d); [|discriminate].
    destruct (IH b x y Ha Hb Hx Hy Heq) as [-> ->]. auto.
Qed.

Lemma Itoa_digits p :
  0 <= p <= Int.MaxInt -> isDigits (strconv.Itoa p) = true.
Proof.
  intros Hp. unfold strconv.Itoa, strconv.FormatInt.
  destruct (Z.ltb_spec p 0); [lia|].
  destruct (FormatUint_spec p) as (c & ds & -> & Hd & _); [|exact Hd].
  unfold strconv.maxUint64, Int.MaxInt in *. lia.
Qed.

Lemma page_file_inj pre p q x y :
  0 <= p <= Int.MaxInt -> 0 <= q <= Int.MaxInt ->
  startsOffDigits x -> startsOffDigits y ->
  pre +:+ strconv.Itoa p +:+ x = pre +:+ strconv.Itoa q +:+ y -> p = q /\ x = y.
Proof.
  intros Hp Hq Hx Hy Heq. apply append_inv_l in Heq.
  destruct (digits_split _ _ _ _ (Itoa_digits p Hp) (Itoa_digits q Hq) Hx Hy Heq)
    as [Hi ->].
  split; [|reflexivity]. apply Itoa_inj; unfold Int.MinInt, Int.MaxInt in *; auto; lia.
Qed.

Lemma scratch_pageFiles jpegPrefix p :
  noPercent jpegPrefix = true ->
  (let '(jp, sp, lp) := scratchPaths jpegPrefix in pageFiles jp sp lp p) =
  [("/tmp/" +:+ jpegPrefix) +:+ strconv.Itoa p +:+ "-large.jpg";
   ("/tmp/" +:+ jpegPrefix) +:+ strconv.Itoa p +:+ ".jpg";
   ("/tmp/" +:+ jpegPrefix) +:+ strconv.Itoa p +:+ "-small.jpg"].
Proof.
  intros Hpre. rewrite scratchPaths_eq. unfold pageFiles.
  assert (Hs : forall suffix, noPercent suffix = true ->
            fmt.Sprintf ("/tmp/" +:+ jpegPrefix +:+ "%d" +:+ suffix) [fmt.Int p]
            = ("/tmp/" +:+ jpegPrefix) +:+ strconv.Itoa p +:+ suffix).
  { intros suffix Hsuf. rewrite <- (append_assoc "/tmp/" jpegPrefix).
    apply Sprintf_placeholder; [|assumption].
    rewrite noPercent_append, Hpre. reflexivity. }
  rewrite <- (Hs "-large.jpg"%string eq_refl), <- (Hs ".jpg"%string eq_refl),
    <- (Hs "-small.jpg"%string eq_refl).
  reflexivity.
Qed.

Lemma NoDup_flat_map {A B : Type} (F : A -> list B) l :
  NoDup l -> (forall x, x ∈ l -> NoDup (F x)) ->
  (forall x y z, x ∈ l -> y ∈ l -> z ∈ F x -> z ∈ F y -> x = y) ->
  NoDup (flat_map F l).
Proof.
  induction l as [|x l IH]; intros Hl HF Hinj; [constructor|].
  cbn [flat_map]. apply NoDup_app. inversion_clear Hl as [|? ? Hx Hl'].
  split; [apply HF, list_elem_of_here|]. split.
  - intros z Hz Hin. apply list_elem_of_In, in_flat_map in Hin.
    destruct Hin as (y & Hy & Hzy). apply list_elem_of_In in Hy, Hzy.
    assert (x = y) as <-.
    { apply (Hinj x y z); [apply list_elem_of_here | now apply list_elem_of_further
                          | assumption | assumption]. }
    contradiction.
  - apply IH; [assumption | |].
    + intros y Hy. apply HF. now apply list_elem_of_further.
    + intros a b z Ha Hb. apply Hinj; now apply list_elem_of_further.
Qed.

Lemma scratch_files_NoDup (jpegPrefix : string) (N : Z) :
  noPercent jpegPrefix = true -> N <= Int.MaxInt ->
  NoDup (let '(jpegPath, smallJPEGPath, largeJPEGPath) := scratchPaths jpegPrefix in
         flat_map (pageFiles jpegPath smallJPEGPath largeJPEGPath) (seqZ 1 N)).
Proof.
  intros Hpre HN.
  assert (HF : forall p,
            (let '(jp, sp, lp) := scratchPaths jpegPrefix in pageFiles jp sp lp p) =
            [("/tmp/" +:+ jpegPrefix) +:+ strconv.Itoa p +:+ "-large.jpg";
             ("/tmp/" +:+ jpegPrefix) +:+ strconv.Itoa p +:+ ".jpg";
             ("/tmp/" +:+ jpegPrefix) +:+ strconv.Itoa p +:+ "-small.jpg"])
    by (intros p; now apply scratch_pageFiles).
  destruct (scratchPaths jpegPrefix) as [[jp sp] lp].
  apply NoDup_flat_map.
  - apply NoDup_seqZ.
  - intros p Hp. apply elem_of_seqZ in Hp. rewrite HF.
    rewrite !NoDup_cons, !not_elem_of_cons.
    repeat split; try apply not_elem_of_nil; try apply NoDup_nil_2;
      intros H; apply append_inv_l, append_inv_l in H; discriminate H.
  - intros p q z Hp Hq. apply elem_of_seqZ in Hp, Hq. rewrite !HF.
    rewrite !elem_of_cons, !elem_of_nil.
    intros [->|[->|[->|[]]]] [H|[H|[H|[]]]];
      apply page_file_inj in H; try (cbn; reflexivity); try lia; tauto.
Qed.

(** X17: the scratch files of one request never collide: for a document
    of N pages the 3N local paths (three variants of each page) that the
    workers write and read are pairwise distinct. *)
Theorem X17_scratch_files_distinct (length : nat) (random : nat -> Z) (N : Z) :
  N <= Int.MaxInt ->
  NoDup (let '(jpegPath, smallJPEGPath, largeJPEGPath) :=
           scratchPaths (generateRandomString length random) in
         flat_map (pageFiles jpegPath smallJPEGPath largeJPEGPath) (seqZ 1 N)).
Proof.
  apply scratch_files_NoDup, noPercent_generateRandomString.
Qed.

Lemma X17_scratch_files_distinct_witness :
  NoDup (let '(jpegPath, smallJPEGPath, largeJPEGPath) :=
           scratchPaths (generateRandomString 50 (fun i => Z.of_nat i)) in
         flat_map (pageFiles jpegPath smallJPEGPath largeJPEGPath) (seqZ 1 2)).
Proof.
  apply (X17_scratch_files_distinct 50 (fun i => Z.of_nat i) 2).
  vm_compute. discriminate.
Defined.

(** ** The upload worker of the earlier revision *)

Lemma Sprintf_variant pre suffix post n :
  noPercent pre = true -> noPercent suffix = true -> noPercent post = true ->
  fmt.Sprintf (pre +:+ ("%d" +:+ suffix) +:+ post) [fmt.Int n]
  = pre +:+ strconv.Itoa n +:+ suffix +:+ post.
Proof.
  intros Hpre Hsuf Hpost. rewrite (append_assoc "%d" suffix post).
  apply Sprintf_placeholder; [assumption|].
  rewrite noPercent_append, Hsuf, Hpost. reflexivity.
Qed.

(** X18: the upload worker of the earlier revision, given one local and
    one remote template, writes for each page of its range the small,
    the normal and the large JPEG, in this order, under the names
    derived from the templates: the page number followed by "-small",
    by nothing and by "-large". *)
Theorem X18_earlier_upload_worker
    (env : Env) (files : list string) (localPre localPost pre post : string)
    (len : nat) (firstPage : Z) (fuel : nat) :
  noPercent localPre = true -> noPercent localPost = true ->
  noPercent pre = true -> noPercent post = true ->
  (forall remote local, PutReader env remote local = None) ->
  Int.MinInt <= firstPage -> firstPage + Z.of_nat len <= Int.MaxInt ->
  (forall p, firstPage <= p < firstPage + Z.of_nat len ->
     Forall (fun ev => exists remote local r,
               ev = Put remote local r /\ fileExists local files = true)
            (earlierPagePuts localPre localPost pre post p)) ->
  (len < fuel)%nat ->
  Earlier.uploadJPEGRangeToS3 fuel env files
    (localPre +:+ "%d" +:+ localPost) (pre +:+ "%d" +:+ post)
    firstPage (firstPage + Z.of_nat len - 1) =
  Some (flat_map (earlierPagePuts localPre localPost pre post)
          (seqZ firstPage (Z.of_nat len)), None).
Proof.
  intros Hlpre Hlpost Hpre Hpost Hput.
  unfold Earlier.uploadJPEGRangeToS3, Earlier.smallOf, Earlier.largeOf.
  rewrite !Replace_1_placeholder by assumption.
  revert firstPage fuel.
  induction len as [|len IH]; intros a [|fuel] Hmin Hmax Hfiles Hfuel; try lia.
  - cbn [Earlier.uploadJPEGRangeToS3_from].
    destruct (Z.leb_spec a (a + Z.of_nat 0 - 1)); [lia | reflexivity].
  - cbn [Earlier.uploadJPEGRangeToS3_from].
    destruct (Z.leb_spec a (a + Z.of_nat (S len) - 1)); [|lia].
    pose proof (Hfiles a ltac:(lia)) as Hf. unfold earlierPagePuts in Hf.
    apply Forall_cons in Hf. destruct Hf as [(r1 & l1 & ? & [= <- <- <-] & F1) Hf].
    apply Forall_cons in Hf. destruct Hf as [(r2 & l2 & ? & [= <- <- <-] & F2) Hf].
    apply Forall_cons in Hf. destruct Hf as [(r3 & l3 & ? & [= <- <- <-] & F3) _].
    unfold uploadJPEGToS3, os_Open.
    change "%d-small"%string with ("%d" +:+ "-small").
    change "%d-large"%string with ("%d" +:+ "-large").
    rewrite !Sprintf_variant, !Sprintf_placeholder by (assumption || reflexivity).
    rewrite F1, F2, F3, !Hput. cbv iota beta.
    rewrite (Int_add_1 a (a + Z.of_nat (S len) - 1)) by lia.
    replace (a + Z.of_nat (S len) - 1) with (a + 1 + Z.of_nat len - 1) by lia.
    rewrite IH; [| lia | lia | intros p Hp; apply Hfiles; lia | lia].
    rewrite (seqZ_cons a (Z.of_nat (S len))) by lia.
    replace (Z.pred (Z.of_nat (S len))) with (Z.of_nat len) by lia.
    replace (Z.succ a) with (a + 1) by lia. reflexivity.
Qed.

Lemma X18_earlier_upload_worker_witness :
  Earlier.uploadJPEGRangeToS3 3 (sampleEnv "2") sampleFiles
    ("/tmp/x" +:+ "%d" +:+ ".jpg") ("split-pages/page" +:+ "%d" +:+ ".jpg")
    1 (1 + Z.of_nat 2 - 1) =
  Some (flat_map (earlierPagePuts "/tmp/x" ".jpg" "split-pages/page" ".jpg")
          (seqZ 1 (Z.of_nat 2)), None).
Proof.
  apply (X18_earlier_upload_worker (sampleEnv "2") sampleFiles
           "/tmp/x" ".jpg" "split-pages/page" ".jpg" 2 1 3);
    try reflexivity; try (vm_compute; discriminate); try lia.
  intros p Hp. assert (p = 1 \/ p = 2) as [-> | ->] by lia;
    repeat constructor; eexists _, _, _; split; reflexivity.
Defined.

(** ** The coordinators in any environment *)

Lemma convert_worker_files env pdf jp sp lp lastPage :
  lastPage < Int.MaxInt ->
  forall fuel a evs fs,
    Int.MinInt <= a ->
    convertPagesToJPEGs fuel env pdf jp sp lp a lastPage = Some (evs, fs) ->
    fs `sublist_of` flat_map (pageFiles jp sp lp) (seqZ a (lastPage - a + 1)).
Proof.
  intros Hmax. unfold convertPagesToJPEGs.
  induction fuel as [|fuel IH]; intros a evs fs Hmin; [discriminate|].
  cbn [convertPagesToJPEGs_from].
  destruct (Z.leb_spec a lastPage) as [Hle|Hgt].
  2:{ intros [= <- <-]. apply sublist_nil_l. }
  destruct (cmd_Run env _) as [e|].
  { intros [= <- <-]. apply sublist_nil_l. }
  unfold resizeAndSaveImage. cbv zeta.
  rewrite (Int_add_1 a lastPage) by assumption.
  destruct (convertPagesToJPEGs_from fuel _ _ _ _ _ _ _) as [[evs' fs']|] eqn:Hrec;
    [|discriminate].
  intros [= <- <-].
  rewrite (seqZ_cons a) by lia. cbn [flat_map].
  replace (Z.succ a) with (a + 1) by lia.
  replace (Z.pred (lastPage - a + 1)) with (lastPage - (a + 1) + 1) by lia.
  pose proof (IH (a + 1) evs' fs' ltac:(lia) Hrec) as Hfs.
  unfold pageFiles at 1, produced. cbn [app]. apply sublist_skip.
  destruct (cmd_Run env _), (cmd_Run env _); cbn [app].
  - now do 2 apply sublist_cons.
  - now apply sublist_cons, sublist_skip.
  - now apply sublist_skip, sublist_cons.
  - now do 2 apply sublist_skip.
Qed.

Lemma upload_worker_writes env files jp sp lp tn ts tl fuel a b evs err :
  Int.MinInt <= a -> b < Int.MaxInt ->
  uploadJPEGRangeToS3 fuel env files jp sp lp tn ts tl a b = Some (evs, err) ->
  storeWrites evs `prefix_of` flat_map (pageWrites tn ts tl) (seqZ a (b - a + 1)).
Proof.
  intros Hmin Hmax. unfold uploadJPEGRangeToS3.
  revert a Hmin evs err.
  induction fuel as [|fuel IH]; intros a Hmin evs err; [discriminate|].
  cbn [uploadJPEGRangeToS3_from].
  destruct (Z.leb_spec a b) as [Hle|Hgt].
  2:{ intros [= <- <-]. apply prefix_nil. }
  rewrite (seqZ_cons a) by lia. cbn [flat_map].
  replace (Z.succ a) with (a + 1) by lia.
  replace (Z.pred (b - a + 1)) with (b - (a + 1) + 1) by lia.
  rewrite (Int_add_1 a b) by assumption.
  unfold pageWrites at 1. cbn [app].
  destruct (uploadJPEGToS3_cases env files jp tn a) as [[e1 ->]|[r1 [-> F1]]].
  { intros [= <- <-]. apply prefix_nil. }
  destruct r1 as [e1|].
  { intros [= <- <-]. rewrite storeWrites_Put. eexists. reflexivity. }
  destruct (uploadJPEGToS3_cases env files sp ts a) as [[e2 ->]|[r2 [-> F2]]].
  { intros [= <- <-]. cbn [app]. rewrite storeWrites_Put. eexists. reflexivity. }
  destruct r2 as [e2|].
  { intros [= <- <-]. cbn [app]. rewrite !storeWrites_Put. eexists. reflexivity. }
  destruct (uploadJPEGToS3_cases env files lp tl a) as [[e3 ->]|[r3 [-> F3]]].
  { intros [= <- <-]. cbn [app]. rewrite !storeWrites_Put. eexists. reflexivity. }
  destruct r3 as [e3|].
  { intros [= <- <-]. cbn [app]. rewrite !storeWrites_Put. eexists. reflexivity. }
  destruct (uploadJPEGRangeToS3_from fuel _ _ _ _ _ _ _ _ _ _) as [[evs' err']|] eqn:Hrec;
    [|discriminate].
  intros [= <- <-]. cbn [app]. rewrite !storeWrites_Put.
  destruct (IH (a + 1) ltac:(lia) _ _ Hrec) as [k ->]. exists k. reflexivity.
Qed.

Lemma workers_sublist {W B : Type} (proj : W -> list B) (F : Z -> list B)
    (worker : Z -> Z -> option W) rs :
  (forall a b w, (a, b) ∈ rs -> worker a b = Some w ->
     proj w `sublist_of` flat_map F (pagesOf (a, b))) ->
  forall ws, runWorkers worker rs = Some ws ->
    concat (map proj ws) `sublist_of` flat_map F (concat (map pagesOf rs)).
Proof.
  induction rs as [|[a b] rs IH]; intros H ws.
  - intros [= <-]. apply sublist_nil.
  - cbn [runWorkers].
    destruct (worker a b) as [w|] eqn:Hw; [|discriminate].
    destruct (runWorkers worker rs) as [ws'|] eqn:Hws; [|discriminate].
    intros [= <-]. cbn [map concat]. rewrite flat_map_app.
    apply sublist_app.
    + apply H; [apply list_elem_of_here | exact Hw].
    + apply IH; [|reflexivity]. intros x y v Hin. apply H.
      now apply list_elem_of_further.
Qed.

Lemma spawnWorkers_sublist {W B : Type} (proj : W -> list B) (F : Z -> list B)
    (worker : nat -> Z -> Z -> option W) N w :
  N <= 2 ^ 53 -> 1 <= w <= 2 ^ 53 ->
  (forall (len : nat) (a : Z),
     Int.MinInt <= a -> a + Z.of_nat len <= Int.MaxInt ->
     exists r, forall fuel, (len < fuel)%nat ->
       worker fuel a (a + Z.of_nat len - 1) = Some r) ->
  (forall fuel a b r, Int.MinInt <= a -> b < Int.MaxInt ->
     worker fuel a b = Some r -> proj r `sublist_of` flat_map F (seqZ a (b - a + 1))) ->
  exists ws,
    (forall fuel, (Z.to_nat N + 1 < fuel)%nat ->
       spawnWorkers fuel (worker fuel) N (numPagesPerWorker N w) 1 = Some ws) /\
    concat (map proj ws) `sublist_of` flat_map F (seqZ 1 N).
Proof.
  intros HN Hw Htotal Hsub.
  destruct (spawnWorkers_total worker N w HN Hw Htotal) as [ws Hws].
  exists ws. split; [exact Hws|].
  destruct (Z.le_gt_cases N 0) as [Hneg|Hpos].
  - specialize (Hws (S (Z.to_nat N + 1)) ltac:(lia)). cbn [spawnWorkers] in Hws.
    destruct (Z.leb_spec 1 N); [lia|]. injection Hws as <-. apply sublist_nil_l.
  - destruct (pageRanges_chain N w ltac:(lia) (loopInRange_small N w ltac:(lia) Hw))
      as (rs & Hchain & Hrun).
    pose proof (chain_length rs 1 N Hchain) as Hlen.
    set (fuel := S (Z.to_nat N + 1)).
    specialize (Hws fuel ltac:(unfold fuel; lia)).
    rewrite (pageRanges_run fuel _ N w rs) in Hws by (apply Hrun; unfold fuel; lia).
    replace (seqZ 1 N) with (concat (map pagesOf rs)).
    2:{ rewrite (chain_pages rs 1 N Hchain). f_equal. lia. }
    apply (workers_sublist proj F (worker fuel) rs); [|exact Hws].
    intros a b r Hin Hr.
    destruct (chain_bounds rs 1 N a b Hchain Hin) as (Ha & Hab & Hb).
    apply (Hsub fuel a b r); [unfold Int.MinInt; lia | unfold Int.MaxInt; lia | exact Hr].
Qed.

(** X19: in any environment the conversion coordinator returns the page
    count (up to 2^53) once its workers have joined, and no scratch file
    is produced twice: what the workers leave behind is, in order, part
    of the 3N files of the pages 1..N. *)
Theorem X19_conversion_coordinator
    (env : Env) (pdfPath : string) (N : Z) (length : nat) (random : nat -> Z) :
  N <= 2 ^ 53 ->
  getNumPages env pdfPath = Ok N ->
  let '(jpegPath, smallJPEGPath, largeJPEGPath) :=
    scratchPaths (generateRandomString length random) in
  exists workers,
    (forall fuel, (Z.to_nat N + 1 < fuel)%nat ->
       convertPDFToJPEGs fuel env pdfPath jpegPath smallJPEGPath largeJPEGPath =
         Some (workers, Ok N)) /\
    concat (map snd workers) `sublist_of`
      flat_map (pageFiles jpegPath smallJPEGPath largeJPEGPath) (seqZ 1 N) /\
    NoDup (concat (map snd workers)).
Proof.
  intros HN HP.
  pose proof (scratch_files_NoDup (generateRandomString length random) N
                (noPercent_generateRandomString length random)
                ltac:(unfold Int.MaxInt; lia)) as Hnodup.
  destruct (scratchPaths (generateRandomString length random)) as [[jp sp] lp].
  destruct (spawnWorkers_sublist snd (pageFiles jp sp lp)
              (fun fuel => convertPagesToJPEGs fuel env pdfPath jp sp lp)
              N NUM_WORKERS_CONVERT HN ltac:(unfold NUM_WORKERS_CONVERT; lia)
              (convert_worker_total env pdfPath jp sp lp)) as (ws & Hws & Hsub).
  { intros fuel a b [evs fs] Hmin Hmax Hr.
    exact (convert_worker_files env pdfPath jp sp lp b Hmax fuel a evs fs Hmin Hr). }
  exists ws. split; [|split; [exact Hsub|]].
  - intros fuel Hfuel. unfold convertPDFToJPEGs. now rewrite HP, (Hws fuel Hfuel).
  - exact (sublist_NoDup _ _ Hnodup Hsub).
Qed.

Lemma X19_conversion_coordinator_witness :
  let '(jpegPath, smallJPEGPath, largeJPEGPath) :=
    scratchPaths (generateRandomString 50 (fun i => Z.of_nat i)) in
  exists workers,
    (forall fuel, (Z.to_nat 2 + 1 < fuel)%nat ->
       convertPDFToJPEGs fuel (envResizerFails "2") "/tmp/doc.pdf"
         jpegPath smallJPEGPath largeJPEGPath = Some (workers, Ok 2)) /\
    concat (map snd workers) `sublist_of`
      flat_map (pageFiles jpegPath smallJPEGPath largeJPEGPath) (seqZ 1 2) /\
    NoDup (concat (map snd workers)).
Proof.
  apply (X19_conversion_coordinator (envResizerFails "2") "/tmp/doc.pdf" 2 50
           (fun i => Z.of_nat i)); [vm_compute; discriminate | reflexivity].
Defined.

Lemma storeWrites_concat workers :
  storeWrites (concat workers) = concat (map storeWrites workers).
Proof.
  induction workers as [|evs workers IH]; [reflexivity|].
  cbn [concat map]. unfold storeWrites in *. now rewrite omap_app, IH.
Qed.

(** X20: in any environment, for templates that pass validation and a
    page count up to 2^53, the upload coordinator returns [nil], and the
    store writes its workers attempt are, in order, part of the 3N
    writes of the pages 1..N: nothing else is written, and no variant
    of a page is written twice. *)
Theorem X20_upload_coordinator
    (env : Env) (files : list string) (request : Request)
    (jpegPath smallJPEGPath largeJPEGPath : string) (N : Z)
    (normal small large : string) :
  N <= 2 ^ 53 ->
  remoteTemplates request normal small large ->
  exists workers,
    (forall fuel, (Z.to_nat N + 1 < fuel)%nat ->
       uploadAllJPEGsToS3 fuel env files request jpegPath smallJPEGPath largeJPEGPath N
         = Some (workers, None)) /\
    storeWrites (concat workers) `sublist_of`
      flat_map (pageWrites normal small large) (seqZ 1 N).
Proof.
  intros HN HT.
  destruct (spawnWorkers_sublist (fun r => storeWrites (fst r))
              (pageWrites normal small large)
              (fun fuel => uploadJPEGRangeToS3 fuel env files jpegPath smallJPEGPath
                             largeJPEGPath normal small large)
              N NUM_WORKERS_UPLOAD HN ltac:(unfold NUM_WORKERS_UPLOAD; lia)
              (upload_worker_total env files jpegPath smallJPEGPath largeJPEGPath
                 normal small large)) as (ws & Hws & Hsub).
  { intros fuel a b [evs err] Hmin Hmax Hr. cbn [fst].
    destruct (upload_worker_writes _ _ _ _ _ _ _ _ _ _ _ _ _ Hmin Hmax Hr) as [k ->].
    now apply sublist_inserts_r. }
  exists (map fst ws). split.
  - intros fuel Hfuel.
    rewrite (uploadAll_valid fuel env files request _ _ _ N normal small large HT).
    now rewrite (Hws fuel Hfuel).
  - rewrite storeWrites_concat, map_map. exact Hsub.
Qed.

(** The store refuses every write: each upload worker stops at its
    first page. *)
Lemma X20_upload_coordinator_witness :
  exists workers,
    (forall fuel, (Z.to_nat 2 + 1 < fuel)%nat ->
       uploadAllJPEGsToS3 fuel (envStoreFails "2") sampleFiles sampleRequest
         "/tmp/x%d.jpg" "/tmp/x%d-small.jpg" "/tmp/x%d-large.jpg" 2
         = Some (workers, None)) /\
    storeWrites (concat workers) `sublist_of`
      flat_map (pageWrites "split-pages/page%d.jpg" "split-pages/page%d-small.jpg"
                  "split-pages/page%d-large.jpg") (seqZ 1 2).
Proof.
  apply (X20_upload_coordinator (envStoreFails "2") sampleFiles sampleRequest
           "/tmp/x%d.jpg" "/tmp/x%d-small.jpg" "/tmp/x%d-large.jpg" 2);
    [vm_compute; discriminate | repeat split; reflexivity].
Defined.
